(** * XrayRefiner: line validation, reachability probing, partition and export

    A shallow embedding of [cmd/xraysubrefiner] ([validate.go], [probe.go],
    [main.go]) together with the properties its specification states about
    it.

    Go strings are byte strings: they are modelled as [string], a sequence
    of [ascii] bytes.  Go's [int] is taken to be 64 bits wide and modelled
    as [Z]; the only arithmetic the program does on it (comparisons, a
    length difference, [200*(i+1)]) cannot overflow.

    The file is organised as follows:
    - models of the functions of the Go standard library the program calls
      ([strings], [strconv], [encoding/base64], [sort], the accessors of
      [net/url]);
    - the interface [GoLib] of the library functions whose full behaviour
      is not needed ([url.Parse], [json.Unmarshal], ...): every general
      theorem holds for every implementation of that interface; a
      reference implementation [golib] is used for the concrete examples;
    - the program itself;
    - the theorems. *)

From Stdlib Require Import ZArith Lia List Ascii String Bool.
From Stdlib Require Import Sorting.Permutation Sorting.Sorted.
From Stdlib Require Import Floats.SpecFloat.
From stdpp Require Import base option list gmap strings pretty.

Open Scope string_scope.
Open Scope list_scope.
Open Scope Z_scope.

(** ** Errors and results *)

(** A Go [error] value.  [errorString] is [errors.New] (and any error that
    comes out of the standard library or the operating system, with its
    message); [Errorf] is [fmt.Errorf] with its format and arguments (the
    formatted text itself is never inspected by the program). *)
Inductive error : Type :=
| errorString (msg : string)
| Errorf (format : string) (args : list fmtarg)
with fmtarg : Type :=
| Aint (z : Z)
| Astr (s : string)
| Aerr (e : error).

(** A Go function returning [(T, error)]. *)
Inductive result (A : Type) : Type :=
| Ok (a : A)
| Err (e : error).
Arguments Ok {A} a.
Arguments Err {A} e.

Definition is_ok {A} (r : result A) : bool :=
  match r with Ok _ => true | Err _ => false end.

Definition is_err {A} (r : result A) : bool := negb (is_ok r).

(** ** Package [strings] *)

Module strings.

Fixpoint drop (n : nat) (s : string) : string :=
  match n, s with
  | O, _ => s
  | S _, EmptyString => EmptyString
  | S n', String _ r => drop n' r
  end.

Fixpoint take (n : nat) (s : string) : string :=
  match n, s with
  | O, _ => EmptyString
  | S _, EmptyString => EmptyString
  | S n', String c r => String c (take n' r)
  end.

(** [s[:i]] and [s[i:]] for an index the caller has checked. *)
Definition slice_to (s : string) (i : Z) : string := take (Z.to_nat i) s.
Definition slice_from (s : string) (i : Z) : string := drop (Z.to_nat i) s.

Definition len (s : string) : Z := Z.of_nat (String.length s).

Definition HasPrefix (s pre : string) : bool := String.prefix pre s.

Definition HasSuffix (s suf : string) : bool :=
  (String.length suf <=? String.length s)%nat
  && String.eqb (drop (String.length s - String.length suf) s) suf.

Definition TrimPrefix (s pre : string) : string :=
  if HasPrefix s pre then drop (String.length pre) s else s.

Fixpoint IndexByte (s : string) (c : ascii) : Z :=
  match s with
  | EmptyString => -1
  | String a r =>
      if Ascii.eqb a c then 0
      else let i := IndexByte r c in if i <? 0 then -1 else i + 1
  end.

Fixpoint Index (s sub : string) : Z :=
  if String.prefix sub s then 0
  else match s with
       | EmptyString => -1
       | String _ r => let i := Index r sub in if i <? 0 then -1 else i + 1
       end.

Fixpoint LastIndexByte (s : string) (c : ascii) : Z :=
  match s with
  | EmptyString => -1
  | String a r =>
      let i := LastIndexByte r c in
      if 0 <=? i then i + 1 else if Ascii.eqb a c then 0 else -1
  end.

Definition Contains (s sub : string) : bool := 0 <=? Index s sub.

(** Non-overlapping occurrences of a non-empty [sub], leftmost first;
    [skip] is the number of bytes of the current match still to pass. *)
Fixpoint count_from (skip : nat) (s sub : string) : Z :=
  match s with
  | EmptyString => 0
  | String _ r =>
      match skip with
      | S k => count_from k r sub
      | O => if String.prefix sub s
             then 1 + count_from (String.length sub - 1) r sub
             else count_from O r sub
      end
  end.

(** [strings.Count]; for the empty [sub] Go counts runes, which the
    program never asks for (the byte count stands in for it). *)
Definition Count (s sub : string) : Z :=
  match sub with
  | EmptyString => len s + 1
  | _ => count_from O s sub
  end.

(** [genSplit] with [sepSave = 0] and a non-empty separator: cut at the
    first [cuts] occurrences of [sep]. [cur] is the piece being read. *)
Fixpoint split_go (sep : string) (cuts skip : nat) (cur s : string)
  : list string :=
  match s with
  | EmptyString => [cur]
  | String c r =>
      match skip with
      | S j => split_go sep cuts j cur r
      | O =>
          match cuts with
          | O => [cur +:+ s]
          | S k =>
              if String.prefix sep s
              then cur :: split_go sep k (String.length sep - 1) "" r
              else split_go sep cuts O (cur +:+ String c "") r
          end
      end
  end.

Definition Split (s sep : string) : list string :=
  split_go sep (String.length s) O "" s.

Definition SplitN (s sep : string) (n : Z) : list string :=
  if n =? 0 then []
  else if n <? 0 then Split s sep
  else split_go sep (Z.to_nat (n - 1)) O "" s.

Fixpoint Join (elems : list string) (sep : string) : string :=
  match elems with
  | [] => ""
  | [x] => x
  | x :: rest => x +:+ sep +:+ Join rest sep
  end.

Fixpoint repeat_nat (s : string) (n : nat) : string :=
  match n with O => "" | S k => s +:+ repeat_nat s k end.

Definition Repeat (s : string) (count : Z) : string :=
  repeat_nat s (Z.to_nat count).

(** [strings.ReplaceAll] for a non-empty [old]. *)
Fixpoint replace_go (old new : string) (skip : nat) (s : string) : string :=
  match s with
  | EmptyString => ""
  | String c r =>
      match skip with
      | S k => replace_go old new k r
      | O => if String.prefix old s
             then new +:+ replace_go old new (String.length old - 1) r
             else String c (replace_go old new O r)
      end
  end.

Definition ReplaceAll (s old new : string) : string := replace_go old new O s.

(** White space, as [unicode.IsSpace] sees it through UTF-8: the six
    ASCII characters and the encodings of U+0085, U+00A0, U+1680,
    U+2000..U+200A, U+2028, U+2029, U+202F, U+205F and U+3000. *)
Definition asciiSpace (c : ascii) : bool :=
  let n := N_of_ascii c in
  ((9 <=? n) && (n <=? 13) || (n =? 32))%N.

Definition space2 (a b : ascii) : bool :=
  let x := N_of_ascii a in let y := N_of_ascii b in
  ((x =? 194) && ((y =? 133) || (y =? 160)))%N.

Definition space3 (a b c : ascii) : bool :=
  let x := N_of_ascii a in let y := N_of_ascii b in let z := N_of_ascii c in
  ((x =? 225) && (y =? 154) && (z =? 128)
   || (x =? 226) && (y =? 128)
      && ((128 <=? z) && (z <=? 138) || (z =? 168) || (z =? 169) || (z =? 175))
   || (x =? 226) && (y =? 129) && (z =? 159)
   || (x =? 227) && (y =? 128) && (z =? 128))%N.

Fixpoint trimLeft (s : string) : string :=
  match s with
  | EmptyString => ""
  | String a r =>
      if asciiSpace a then trimLeft r
      else match r with
           | EmptyString => s
           | String b r2 =>
               if space2 a b then trimLeft r2
               else match r2 with
                    | EmptyString => s
                    | String c r3 => if space3 a b c then trimLeft r3 else s
                    end
           end
  end.

(** Trimming on the right, read on the reversed string: the encodings
    appear last byte first. *)
Fixpoint trimLeft_rev (s : string) : string :=
  match s with
  | EmptyString => ""
  | String a r =>
      if asciiSpace a then trimLeft_rev r
      else match r with
           | EmptyString => s
           | String b r2 =>
               if space2 b a then trimLeft_rev r2
               else match r2 with
                    | EmptyString => s
                    | String c r3 =>
                        if space3 c b a then trimLeft_rev r3 else s
                    end
           end
  end.

Definition trimRight (s : string) : string :=
  String.rev (trimLeft_rev (String.rev s)).

Definition TrimSpace (s : string) : string := trimRight (trimLeft s).

End strings.

(** ** Package [strconv] *)

Module strconv.

Definition digit (c : ascii) : option Z :=
  let n := Z.of_N (N_of_ascii c) in
  if (48 <=? n) && (n <=? 57) then Some (n - 48) else None.

Fixpoint digits (acc : Z) (s : string) : option Z :=
  match s with
  | EmptyString => Some acc
  | String c r =>
      match digit c with
      | Some d => digits (acc * 10 + d) r
      | None => None
      end
  end.

Definition ErrSyntax (s : string) : error :=
  Errorf "strconv.Atoi: parsing %q: invalid syntax" [Astr s].
Definition ErrRange (s : string) : error :=
  Errorf "strconv.Atoi: parsing %q: value out of range" [Astr s].

(** [strconv.Atoi] on a 64-bit platform: an optional sign, at least one
    decimal digit, nothing else, and a value that fits [int]. *)
Definition Atoi (s : string) : result Z :=
  let '(neg, body) :=
    match s with
    | String "-" r => (true, r)
    | String "+" r => (false, r)
    | _ => (false, s)
    end in
  match body with
  | EmptyString => Err (ErrSyntax s)
  | _ =>
      match digits 0 body with
      | None => Err (ErrSyntax s)
      | Some n =>
          let v := if neg then - n else n in
          if (- 2 ^ 63 <=? v) && (v <=? 2 ^ 63 - 1) then Ok v
          else Err (ErrRange s)
      end
  end.

End strconv.

(** ** Package [encoding/base64]: [StdEncoding] *)

Module base64.

Definition encodeStd : string :=
  "ABCDEFGHIJKLMNOPQRSTUVWXYZabcdefghijklmnopqrstuvwxyz0123456789+/".

(** A 6-bit value is a byte whose two high bits are clear. *)
Definition encode1 (v : ascii) : ascii :=
  match String.get (N.to_nat (N_of_ascii v)) encodeStd with
  | Some c => c
  | None => "="%char
  end.

(** [val>>18&0x3F], [val>>12&0x3F], [val>>6&0x3F], [val&0x3F] of
    [val = a<<16 | b<<8 | c], written on the bits of the three bytes
    ([Ascii] lists the low bit first). *)
Definition sextets (a b c : ascii) : ascii * ascii * ascii * ascii :=
  let '(Ascii a0 a1 a2 a3 a4 a5 a6 a7) := a in
  let '(Ascii b0 b1 b2 b3 b4 b5 b6 b7) := b in
  let '(Ascii c0 c1 c2 c3 c4 c5 c6 c7) := c in
  (Ascii a2 a3 a4 a5 a6 a7 false false,
   Ascii b4 b5 b6 b7 a0 a1 false false,
   Ascii c6 c7 b0 b1 b2 b3 false false,
   Ascii c0 c1 c2 c3 c4 c5 false false).

Definition zero : ascii := Ascii false false false false false false false false.

Fixpoint encode (src : string) : string :=
  match src with
  | String a (String b (String c r)) =>
      let '(d0, d1, d2, d3) := sextets a b c in
      String (encode1 d0) (String (encode1 d1)
        (String (encode1 d2) (String (encode1 d3) (encode r))))
  | String a (String b EmptyString) =>
      let '(d0, d1, d2, _) := sextets a b zero in
      String (encode1 d0) (String (encode1 d1) (String (encode1 d2) "="))
  | String a EmptyString =>
      let '(d0, d1, _, _) := sextets a zero zero in
      String (encode1 d0) (String (encode1 d1) "==")
  | EmptyString => ""
  end.

Definition EncodeToString (src : string) : string := encode src.

(** [enc.decodeMap]: the 6-bit value of an alphabet character. *)
Definition decodeMap (c : ascii) : option ascii :=
  let n := N_of_ascii c in
  if ((65 <=? n) && (n <=? 90))%N then Some (ascii_of_N (n - 65))
  else if ((97 <=? n) && (n <=? 122))%N then Some (ascii_of_N (n - 71))
  else if ((48 <=? n) && (n <=? 57))%N then Some (ascii_of_N (n + 4))
  else if (n =? 43)%N then Some (ascii_of_N 62)
  else if (n =? 47)%N then Some (ascii_of_N 63)
  else None.

(** The three bytes of [d0<<18 | d1<<12 | d2<<6 | d3]. *)
Definition unsextets (d0 d1 d2 d3 : ascii) : ascii * ascii * ascii :=
  let '(Ascii p0 p1 p2 p3 p4 p5 _ _) := d0 in
  let '(Ascii q0 q1 q2 q3 q4 q5 _ _) := d1 in
  let '(Ascii r0 r1 r2 r3 r4 r5 _ _) := d2 in
  let '(Ascii s0 s1 s2 s3 s4 s5 _ _) := d3 in
  (Ascii q4 q5 p0 p1 p2 p3 p4 p5,
   Ascii r2 r3 r4 r5 q0 q1 q2 q3,
   Ascii s0 s1 s2 s3 s4 s5 r0 r1).

Definition isNL (c : ascii) : bool :=
  Ascii.eqb c "010"%char || Ascii.eqb c "013"%char.

Fixpoint skipNL (s : string) : string :=
  match s with
  | String c r => if isNL c then skipNL r else s
  | EmptyString => ""
  end.

(** The decoding loop, one input byte at a time; [q] holds the values of
    the current quantum read so far.  New lines and carriage returns are
    skipped wherever they occur; padding is required and may only be
    followed by new lines. *)
Fixpoint decode (q : list ascii) (s : string) : option string :=
  match s with
  | EmptyString => match q with [] => Some "" | _ => None end
  | String c r =>
      match decodeMap c with
      | Some v =>
          match q with
          | [d0; d1; d2] =>
              let '(x, y, z) := unsextets d0 d1 d2 v in
              match decode [] r with
              | Some t => Some (String x (String y (String z t)))
              | None => None
              end
          | _ => decode (q ++ [v]) r
          end
      | None =>
          if isNL c then decode q r
          else if Ascii.eqb c "="%char then
            match q with
            | [d0; d1] =>
                match skipNL r with
                | String c' r' =>
                    if Ascii.eqb c' "="%char then
                      match skipNL r' with
                      | EmptyString =>
                          let '(x, _, _) := unsextets d0 d1 zero zero in
                          Some (String x "")
                      | _ => None
                      end
                    else None
                | EmptyString => None
                end
            | [d0; d1; d2] =>
                match skipNL r with
                | EmptyString =>
                    let '(x, y, _) := unsextets d0 d1 d2 zero in
                    Some (String x (String y ""))
                | _ => None
                end
            | _ => None
            end
          else None
      end
  end.

(** [CorruptInputError]; the byte offset it carries is left out. *)
Definition CorruptInputError : error := errorString "illegal base64 data".

Definition DecodeString (s : string) : result string :=
  match decode [] s with
  | Some b => Ok b
  | None => Err CorruptInputError
  end.

End base64.

(** ** Package [sort] *)

Module sort.

Fixpoint insert (x : string) (l : list string) : list string :=
  match l with
  | [] => [x]
  | y :: r => if String.leb x y then x :: l else y :: insert x r
  end.

(** [sort.Strings]: the slice in increasing byte-wise order.  Equal
    strings cannot be told apart, so the sorted slice does not depend on
    the algorithm. *)
Fixpoint Strings (l : list string) : list string :=
  match l with
  | [] => []
  | x :: r => insert x (Strings r)
  end.

End sort.

(** ** Package [net/url]: the [URL] value and its accessors *)

Module url.

Record Userinfo := {
  username : string;
  password : string;
  passwordSet : bool
}.

Record URL := {
  Scheme : string;
  Opaque : string;
  User : option Userinfo;
  Host : string;
  Path : string;
  RawQuery : string;
  Fragment : string
}.

Definition isDigit (c : ascii) : bool :=
  let n := N_of_ascii c in ((48 <=? n) && (n <=? 57))%N.

Fixpoint allDigits (s : string) : bool :=
  match s with
  | EmptyString => true
  | String c r => isDigit c && allDigits r
  end.

Definition validOptionalPort (port : string) : bool :=
  match port with
  | EmptyString => true
  | String c r => Ascii.eqb c ":"%char && allDigits r
  end.

Definition splitHostPort (hostPort : string) : string * string :=
  let colon := strings.LastIndexByte hostPort ":"%char in
  let '(host, port) :=
    if negb (colon =? -1)
       && validOptionalPort (strings.slice_from hostPort colon)
    then (strings.slice_to hostPort colon,
          strings.slice_from hostPort (colon + 1))
    else (hostPort, "") in
  if strings.HasPrefix host "[" && strings.HasSuffix host "]"
  then (strings.take (String.length host - 2) (strings.drop 1 host), port)
  else (host, port).

Definition Hostname (u : URL) : string := fst (splitHostPort (Host u)).
Definition Port (u : URL) : string := snd (splitHostPort (Host u)).

(** [u.User.Username()] behind the program's [u.User != nil] test. *)
Definition Username (u : option Userinfo) : string :=
  match u with
  | Some ui => username ui
  | None => ""
  end.

End url.

(** ** [float64] and the conversion [int(f)] *)

(** A [float64] is an IEEE 754 binary64 value. *)
Definition float64 : Type := spec_float.

Definition prec64 : Z := 53.
Definition emax64 : Z := 1024.

(** The integer part of a finite value, fraction discarded. *)
Definition float64_trunc (f : float64) : option Z :=
  match f with
  | S754_zero _ => Some 0
  | S754_finite s m e =>
      let a := if 0 <=? e then Z.pos m * 2 ^ e else Z.pos m / 2 ^ (- e) in
      Some (if s then - a else a)
  | S754_infinity _ | S754_nan => None
  end.

(** ** Dynamic values and the library interface *)

(** A value of type [any], as [encoding/json] produces them and as the
    type switch of [extractPortFromJSON] inspects them.  [AnyNil] is the
    nil interface (a missing map entry, or JSON [null]). *)
#[warnings="-register-all"]
Inductive any : Type :=
| AnyNil
| AnyBool (b : bool)
| AnyFloat64 (f : float64)
| AnyInt (i : Z)
| AnyString (s : string)
| AnySlice (l : list any)
| AnyMap (m : list (string * any)).

(** The functions of the Go library and runtime that the program uses as
    black boxes.
    - [url_Parse] is [url.Parse];
    - [json_Unmarshal data] is [json.Unmarshal(data, &m)] for a nil
      [m map[string]any]: the error, or the final value of [m];
    - [strings_ToLower] is [strings.ToLower];
    - [int_of_float64_overflow] is the result of [int(f)] when [f] is
      not finite or its integer part does not fit [int], which Go leaves
      to the implementation;
    - [filepath_Dir], [filepath_Base] are the functions of
      [path/filepath]. *)
Class GoLib := {
  url_Parse : string -> result url.URL;
  json_Unmarshal : string -> result (gmap string any);
  strings_ToLower : string -> string;
  int_of_float64_overflow : float64 -> Z;
  filepath_Dir : string -> string;
  filepath_Base : string -> string
}.

(** [int(f)] for a [float64] [f]: truncation toward zero. *)
Definition int_of_float64 `{GoLib} (f : float64) : Z :=
  match float64_trunc f with
  | Some z =>
      if (- 2 ^ 63 <=? z) && (z <=? 2 ^ 63 - 1) then z
      else int_of_float64_overflow f
  | None => int_of_float64_overflow f
  end.

(** [m[key]] on a [map[string]any]. *)
Definition index (m : gmap string any) (key : string) : any :=
  match m !! key with
  | Some v => v
  | None => AnyNil
  end.

(** [s, _ := v.(string)] *)
Definition assert_string (v : any) : string :=
  match v with
  | AnyString s => s
  | _ => ""
  end.

(** * The program *)

(** ** validate.go *)

Section Validate.
Context `{GoLib}.

Definition decodeVmessBase64 (b64 : string) : result string :=
  let b64 := strings.TrimSpace b64 in
  if String.eqb b64 "" then Err (errorString "empty vmess payload")
  else
    let b64 := strings.ReplaceAll b64 "-" "+" in
    let b64 := strings.ReplaceAll b64 "_" "/" in
    let m := strings.len b64 mod 4 in
    let b64 := if negb (m =? 0) then b64 +:+ strings.Repeat "=" (4 - m)
               else b64 in
    match base64.DecodeString b64 with
    | Err err => Err err
    | Ok data => Ok data
    end.

Definition extractPortFromJSON (v : any) : result Z :=
  match v with
  | AnyString val =>
      if String.eqb val "" then Err (errorString "empty port")
      else match strconv.Atoi val with
           | Err _ => Err (Errorf "cannot parse port %q" [Astr val])
           | Ok p => Ok p
           end
  | AnyFloat64 val => Ok (int_of_float64 val)
  | AnyInt val => Ok val
  | _ => Err (errorString "port missing or wrong type")
  end.

(** The payload of a vmess line: the text after the scheme, cut at the
    first [#] and trimmed. *)
Definition vmessPayload (line : string) : string :=
  let raw := strings.TrimPrefix line "vmess://" in
  let i := strings.IndexByte raw "#"%char in
  let raw := if 0 <=? i then strings.slice_to raw i else raw in
  strings.TrimSpace raw.

Definition validateVmess (line : string) : option error :=
  let raw := vmessPayload line in
  if String.eqb raw "" then
    Some (errorString "vmess: empty payload after trimming fragment")
  else
    match decodeVmessBase64 raw with
    | Err err => Some (Errorf "vmess base64 decode: %w" [Aerr err])
    | Ok payload =>
        match json_Unmarshal payload with
        | Err err => Some (Errorf "vmess json: %w" [Aerr err])
        | Ok m =>
            let host := assert_string (index m "add") in
            if String.eqb (strings.TrimSpace host) "" then
              Some (errorString "vmess: missing add (server)")
            else
              match extractPortFromJSON (index m "port") with
              | Err err => Some (Errorf "vmess: %w" [Aerr err])
              | Ok port =>
                  if (port <=? 0) || (99999 <? port) then
                    Some (Errorf "vmess: invalid port %d" [Aint port])
                  else
                    let id := assert_string (index m "id") in
                    if String.eqb (strings.TrimSpace id) "" then
                      Some (errorString "vmess: missing id (UUID)")
                    else None
              end
        end
    end.

Definition parsePort (p : string) : result Z :=
  if String.eqb p "" then Err (errorString "missing port")
  else match strconv.Atoi p with
       | Err _ => Err (Errorf "cannot parse port %q" [Astr p])
       | Ok v => Ok v
       end.

Definition validateVless (line : string) : option error :=
  match url_Parse line with
  | Err err => Some (Errorf "parse: %w" [Aerr err])
  | Ok u =>
      if String.eqb (url.Hostname u) "" then Some (errorString "missing host")
      else
        match parsePort (url.Port u) with
        | Err err => Some err
        | Ok port =>
            if (port <=? 0) || (65535 <? port) then
              Some (Errorf "invalid port %d" [Aint port])
            else
              let user := url.Username (url.User u) in
              if String.eqb (strings.TrimSpace user) "" then
                Some (errorString "missing user/id in vless url")
              else None
        end
  end.

Definition validateTrojan (line : string) : option error :=
  match url_Parse line with
  | Err err => Some (Errorf "parse: %w" [Aerr err])
  | Ok u =>
      if String.eqb (url.Hostname u) "" then Some (errorString "missing host")
      else
        match parsePort (url.Port u) with
        | Err err => Some err
        | Ok port =>
            if (port <=? 0) || (65535 <? port) then
              Some (Errorf "invalid port %d" [Aint port])
            else
              let pass := url.Username (url.User u) in
              if String.eqb (strings.TrimSpace pass) "" then
                Some (errorString "missing trojan password in user part")
              else None
        end
  end.

Definition decodeSSUserInfo (user : string) : result string :=
  let fallback :=
    let parts := strings.SplitN user ":" 2 in
    Ok (hd "" parts) in
  match base64.DecodeString user with
  | Ok dec =>
      let parts := strings.SplitN dec ":" 2 in
      if (Z.of_nat (length parts) =? 2) then Ok (hd "" parts) else fallback
  | Err _ => fallback
  end.

Definition validateShadowsocks (line : string) : option error :=
  match url_Parse line with
  | Err err => Some (Errorf "parse: %w" [Aerr err])
  | Ok u =>
      if String.eqb (url.Hostname u) "" then Some (errorString "missing host")
      else
        match parsePort (url.Port u) with
        | Err err => Some err
        | Ok port =>
            if (port <=? 0) || (65535 <? port) then
              Some (Errorf "invalid port %d" [Aint port])
            else
              let user := url.Username (url.User u) in
              if String.eqb (strings.TrimSpace user) "" then
                Some (errorString "missing userinfo (method:password)")
              else
                match decodeSSUserInfo user with
                | Err err => Some err
                | Ok method =>
                    if String.eqb method "" then
                      Some (errorString "empty encryption method")
                    else None
                end
        end
  end.

Definition validateLine (line : string) : option error :=
  if strings.HasPrefix line "vmess://" then validateVmess line
  else if strings.HasPrefix line "vless://" then validateVless line
  else if strings.HasPrefix line "trojan://" then validateTrojan line
  else if strings.HasPrefix line "ss://" then validateShadowsocks line
  else Some (errorString "unsupported or unexpected scheme").

(** ** probe.go: [extractHostPort] *)

Definition extractHostPort (line : string) : result (string * Z) :=
  let line := strings.TrimSpace line in
  if strings.HasPrefix line "vless://"
     || strings.HasPrefix line "trojan://"
     || strings.HasPrefix line "ss://"
  then
    match url_Parse line with
    | Err perr => Err perr
    | Ok u =>
        let h := url.Hostname u in
        let pStr := url.Port u in
        if String.eqb h "" || String.eqb pStr "" then
          Err (errorString "missing host or port")
        else
          match strconv.Atoi pStr with
          | Err perr => Err perr
          | Ok p => Ok (h, p)
          end
    end
  else if strings.HasPrefix line "vmess://" then
    let raw := vmessPayload line in
    if String.eqb raw "" then Err (errorString "empty vmess payload")
    else
      match decodeVmessBase64 raw with
      | Err err => Err err
      | Ok payload =>
          match json_Unmarshal payload with
          | Err err => Err err
          | Ok m =>
              let h := assert_string (index m "add") in
              if String.eqb (strings.TrimSpace h) "" then
                Err (errorString "vmess missing add")
              else
                match extractPortFromJSON (index m "port") with
                | Err err => Err err
                | Ok p => Ok (h, p)
                end
          end
      end
  else Err (errorString "unsupported scheme").

End Validate.

(** ** probe.go: [filterReachableLines]

    The function starts [maxConcurrent] workers and one feeding
    goroutine, which communicate over the unbuffered channel [in]; the
    workers append to [reachable] under the mutex [mu].  The goroutines
    are modelled as a transition system whose steps are the
    communications and the probes; the outcome of [net.DialTimeout] is
    left to the environment. *)

Definition maxToTest : Z := 1000.

Record item := { idx : Z; line : string }.

(** Where a worker stands in its loop. *)
Inductive worker : Type :=
| Waiting                (* at [for it := range in] *)
| Got (it : item)        (* an item received, not yet probed *)
| Dialed (it : item)     (* connected and closed, about to take [mu] *)
| Exited.                (* [in] closed and drained: [wg.Done()] *)

(** The feeding goroutine: at iteration [i] of its loop, or past
    [close(in)]. *)
Inductive feeder : Type :=
| Feeding (i : Z)
| Closed.

(** [dials] records the calls of [net.DialTimeout]: the item probed and
    the address dialled. *)
Record pool := {
  feed : feeder;
  workers : list worker;
  reachable : list string;
  dials : list (item * string)
}.

(** [net.JoinHostPort] *)
Definition JoinHostPort (host port : string) : string :=
  if 0 <=? strings.IndexByte host ":"%char
  then "[" +:+ host +:+ "]:" +:+ port
  else host +:+ ":" +:+ port.

(** [strconv.Itoa] *)
Definition Itoa (i : Z) : string := pretty i.

Section Probe.
Context `{GoLib}.
Variable lines : list string.

Definition limit : Z :=
  let limit := Z.of_nat (length lines) in
  if maxToTest <? limit then maxToTest else limit.

(** What a worker does with an item before dialling: the address, or
    nothing when the item is skipped. *)
Definition target (it : item) : option string :=
  match extractHostPort (line it) with
  | Err _ => None
  | Ok (host, port) =>
      if String.eqb host "" || (port =? 0) then None
      else Some (JoinHostPort host (Itoa port))
  end.

Inductive step : pool -> pool -> Prop :=
| feed_skip i raw ws r d :
    i < limit ->
    lines !! Z.to_nat i = Some raw ->
    strings.TrimSpace raw = "" ->
    step (Build_pool (Feeding i) ws r d) (Build_pool (Feeding (i + 1)) ws r d)
| feed_send i raw w ws r d :
    i < limit ->
    lines !! Z.to_nat i = Some raw ->
    strings.TrimSpace raw <> "" ->
    ws !! w = Some Waiting ->
    step (Build_pool (Feeding i) ws r d)
         (Build_pool (Feeding (i + 1))
            (<[w := Got (Build_item i (strings.TrimSpace raw))]> ws) r d)
| feed_close i ws r d :
    ~ i < limit ->
    step (Build_pool (Feeding i) ws r d) (Build_pool Closed ws r d)
| work_skip f w it ws r d :
    ws !! w = Some (Got it) ->
    target it = None ->
    step (Build_pool f ws r d) (Build_pool f (<[w := Waiting]> ws) r d)
| work_dial_fail f w it addr ws r d :
    ws !! w = Some (Got it) ->
    target it = Some addr ->
    step (Build_pool f ws r d)
         (Build_pool f (<[w := Waiting]> ws) r (d ++ [(it, addr)]))
| work_dial_ok f w it addr ws r d :
    ws !! w = Some (Got it) ->
    target it = Some addr ->
    step (Build_pool f ws r d)
         (Build_pool f (<[w := Dialed it]> ws) r (d ++ [(it, addr)]))
| work_append f w it ws r d :
    ws !! w = Some (Dialed it) ->
    step (Build_pool f ws r d)
         (Build_pool f (<[w := Waiting]> ws) (r ++ [line it]) d)
| work_exit w ws r d :
    ws !! w = Some Waiting ->
    step (Build_pool Closed ws r d) (Build_pool Closed (<[w := Exited]> ws) r d).

Definition start (maxConcurrent : Z) : pool :=
  let maxConcurrent := if maxConcurrent <=? 0 then 20 else maxConcurrent in
  Build_pool (Feeding 0) (replicate (Z.to_nat maxConcurrent) Waiting) [] [].

(** [wg.Wait()] returns once every worker has exited. *)
Definition finished (p : pool) : Prop := Forall (fun w => w = Exited) (workers p).

(** [filterReachableLines lines timeout maxConcurrent] can return [res]. *)
Definition filterReachableLines (timeout maxConcurrent : Z)
  (res : list string) : Prop :=
  exists p, rtc step (start maxConcurrent) p /\ finished p /\ res = reachable p.

End Probe.

(** ** main.go: the partition *)

Definition buildLiteTail (normal : list string) (n : Z) : list string :=
  let n := if n <=? 0 then 100 else n in
  let n := if Z.of_nat (length normal) <? n then Z.of_nat (length normal)
           else n in
  let start := Z.of_nat (length normal) - n in
  drop (Z.to_nat start) normal.

Section Partition.
Context `{GoLib}.

(** One iteration of the loop of [splitByIPVersion]. *)
Definition splitByIPVersion_body (acc : list string * list string)
  (l : string) : list string * list string :=
  let '(ipv4, ipv6) := acc in
  match url_Parse l with
  | Err _ => acc
  | Ok u =>
      if String.eqb (url.Host u) "" then acc
      else
        let host := url.Host u in
        let host := if strings.Contains host ":"
                    then hd "" (strings.Split host ":") else host in
        if strings.HasPrefix host "[" && strings.HasSuffix host "]" then
          (ipv4, ipv6 ++ [l])
        else if strings.Count host "." =? 3 then (ipv4 ++ [l], ipv6)
        else (ipv4, ipv6 ++ [l])
  end.

Definition splitByIPVersion (lines : list string)
  : list string * list string :=
  fold_left splitByIPVersion_body lines ([], []).

End Partition.

(** ** main.go: the export

    [writeBase64Atomic] talks to the operating system.  It is written as
    a tree of system calls: each call is answered by the environment
    and the program continues with the answer. *)

(** An answer of the operating system: a value, or an error with the
    text that its [Error()] method reports. *)
Inductive osresult (A : Type) : Type :=
| OSOk (a : A)
| OSErr (msg : string).
Arguments OSOk {A} a.
Arguments OSErr {A} msg.

(** The calls; files are named by their path.  An [option string] answer
    is a Go [error]: [None] is nil. *)
Inductive oscall : Type -> Type :=
| CreateTemp (dir pattern : string) : oscall (osresult string)
| WriteString (name s : string) : oscall (option string)
| Flush (name : string) : oscall (option string)
| Close (name : string) : oscall (option string)
| Remove (path : string) : oscall (option string)
| Rename (oldpath newpath : string) : oscall (option string)
| Sleep (ns : Z) : oscall unit.

Inductive prog (A : Type) : Type :=
| Ret (a : A)
| Do {R : Type} (c : oscall R) (k : R -> prog A).
Arguments Ret {A} a.
Arguments Do {A R} c k.

Notation "x <- c ;; k" := (Do c (fun x => k))
  (at level 63, c at next level, right associativity).
Notation "c ;;; k" := (Do c (fun _ => k))
  (at level 63, right associativity).

Definition Millisecond : Z := 1000000.
Definition maxRetries : Z := 6.

Section Exporter.
Context `{GoLib}.

(** The test on the text of a rename error. *)
Definition busy (msg : string) : bool :=
  let lower := strings_ToLower msg in
  strings.Contains lower "used by another process"
  || strings.Contains lower "access is denied"
  || strings.Contains lower "sharing violation".

(** The loop [for i := 0; i < maxRetries; i++] from iteration [i] on,
    with [left = maxRetries - i] iterations left, and the two statements
    after it. *)
Fixpoint renameLoop (path tmpPath : string) (left : nat) (i : Z)
  : prog (option error) :=
  match left with
  | O =>
      Remove tmpPath ;;;
      Ret (Some (Errorf "rename failed after retries" []))
  | S left' =>
      Remove path ;;;
      r <- Rename tmpPath path ;;
      match r with
      | Some msg =>
          if busy msg && (i <? maxRetries - 1) then
            Sleep (200 * (i + 1) * Millisecond) ;;;
            renameLoop path tmpPath left' (i + 1)
          else
            Remove tmpPath ;;;
            Ret (Some (Errorf "rename failed (%d tries): %w"
                         [Aint (i + 1); Aerr (errorString msg)]))
      | None => Ret None
      end
  end.

Definition writeBase64Atomic (path : string) (lines : list string)
  : prog (option error) :=
  let payload := strings.Join lines (String "010" "") in
  let encoded := base64.EncodeToString payload in
  let dir := filepath_Dir path in
  let base := filepath_Base path in
  t <- CreateTemp dir (base +:+ ".*.tmp") ;;
  match t with
  | OSErr err => Ret (Some (errorString err))
  | OSOk tmpPath =>
      w <- WriteString tmpPath encoded ;;
      match w with
      | Some err =>
          Close tmpPath ;;; Remove tmpPath ;;; Ret (Some (errorString err))
      | None =>
          f <- Flush tmpPath ;;
          match f with
          | Some err =>
              Close tmpPath ;;; Remove tmpPath ;;;
              Ret (Some (errorString err))
          | None =>
              c <- Close tmpPath ;;
              match c with
              | Some err => Remove tmpPath ;;; Ret (Some (errorString err))
              | None => renameLoop path tmpPath (Z.to_nat maxRetries) 0
              end
          end
      end
  end.

Definition writeBase64Sorted (path : string) (lines : list string)
  : prog (option error) :=
  let cp := sort.Strings lines in
  writeBase64Atomic path cp.

Definition writeBase64NoSort (path : string) (lines : list string)
  : prog (option error) :=
  writeBase64Atomic path lines.

(** The contract [export(path, lines, sorted)] of the specification is
    served by the two functions above. *)
Definition export (path : string) (lines : list string) (sorted : bool)
  : prog (option error) :=
  if sorted then writeBase64Sorted path lines
  else writeBase64NoSort path lines.

End Exporter.

(** *** Executions *)

(** A call together with its answer. *)
Inductive event : Type :=
| EvCreateTemp (dir pattern : string) (r : osresult string)
| EvWriteString (name s : string) (r : option string)
| EvFlush (name : string) (r : option string)
| EvClose (name : string) (r : option string)
| EvRemove (path : string) (r : option string)
| EvRename (oldpath newpath : string) (r : option string)
| EvSleep (ns : Z).

Definition record {R : Type} (c : oscall R) : R -> event :=
  match c in oscall R return R -> event with
  | CreateTemp dir pattern => EvCreateTemp dir pattern
  | WriteString name s => EvWriteString name s
  | Flush name => EvFlush name
  | Close name => EvClose name
  | Remove path => EvRemove path
  | Rename oldpath newpath => EvRename oldpath newpath
  | Sleep ns => fun _ => EvSleep ns
  end.

(** [exec p tr a]: answered as [tr] records, [p] returns [a]. *)
Fixpoint exec {A : Type} (p : prog A) (tr : list event) (a : A) : Prop :=
  match p with
  | Ret b => tr = [] /\ a = b
  | Do c k => exists r tr', tr = record c r :: tr' /\ exec (k r) tr' a
  end.

(** *** A file system

    The files the export touches, for a process that is alone on them:
    [files] maps a path to the bytes of the file, [buffered] holds what a
    [bufio.Writer] has accepted and not yet written.  Any call may fail;
    a failed write leaves the file with some content. *)

Record fsys := {
  files : gmap string string;
  buffered : gmap string string
}.

Definition os_step (s : fsys) {R : Type} (c : oscall R) : R -> fsys -> Prop :=
  match c in oscall R return R -> fsys -> Prop with
  | CreateTemp dir pattern => fun r s' =>
      match r with
      | OSOk name =>
          files s !! name = None
          /\ s' = {| files := <[name := ""]> (files s);
                     buffered := <[name := ""]> (buffered s) |}
      | OSErr _ => s' = s
      end
  | WriteString name data => fun r s' =>
      match r with
      | None =>
          exists c b written kept,
            files s !! name = Some c
            /\ buffered s !! name = Some b
            /\ b +:+ data = written +:+ kept
            /\ s' = {| files := <[name := c +:+ written]> (files s);
                       buffered := <[name := kept]> (buffered s) |}
      | Some _ =>
          exists c', s' = {| files := <[name := c']> (files s);
                             buffered := buffered s |}
      end
  | Flush name => fun r s' =>
      match r with
      | None =>
          exists c b,
            files s !! name = Some c
            /\ buffered s !! name = Some b
            /\ s' = {| files := <[name := c +:+ b]> (files s);
                       buffered := <[name := ""]> (buffered s) |}
      | Some _ =>
          exists c', s' = {| files := <[name := c']> (files s);
                             buffered := buffered s |}
      end
  | Close name => fun _ s' => s' = s
  | Remove path => fun r s' =>
      match r with
      | None =>
          is_Some (files s !! path)
          /\ s' = {| files := delete path (files s);
                     buffered := buffered s |}
      | Some _ => s' = s
      end
  | Rename oldpath newpath => fun r s' =>
      match r with
      | None =>
          exists c,
            files s !! oldpath = Some c
            /\ s' = {| files := <[newpath := c]> (delete oldpath (files s));
                       buffered := buffered s |}
      | Some _ => s' = s
      end
  | Sleep _ => fun _ s' => s' = s
  end.

(** [run p s s' a]: started on [s], [p] returns [a] and leaves [s']. *)
Fixpoint run {A : Type} (p : prog A) (s s' : fsys) (a : A) : Prop :=
  match p with
  | Ret b => s' = s /\ a = b
  | Do c k => exists r s1, os_step s c r s1 /\ run (k r) s1 s' a
  end.


(** ** validate.go: the filters over the lines of a subscription *)

(** A text written with [fmt.Fprintf]: the format and its arguments. *)
Inductive printed : Type :=
| Fprintf (format : string) (args : list fmtarg).

(** [fmt.Sprintf], whose text is kept and never inspected. *)
Class Fmt := {
  fmt_Sprintf : string -> list fmtarg -> string
}.

Section Filters.
Context `{GoLib}.

(** The loop of [filterValidLines] from index [idx] on: [out] is the
    slice built so far, [stderr] what was written to [os.Stderr]. *)
Fixpoint filterValidLines_loop (key : string) (idx : Z) (lines : list string)
  (out : list string) (stderr : list printed) : list string * list printed :=
  match lines with
  | [] => (out, stderr)
  | raw :: rest =>
      let line := strings.TrimSpace raw in
      if String.eqb line "" then filterValidLines_loop key (idx + 1) rest out stderr
      else
        match validateLine line with
        | Some err =>
            filterValidLines_loop key (idx + 1) rest out
              (stderr ++ [Fprintf ("!! %s: skip invalid line [%d]: %v"
                                   +:+ String "010" "")
                            [Astr key; Aint idx; Aerr err]])
        | None => filterValidLines_loop key (idx + 1) rest (out ++ [line]) stderr
        end
  end.

(** [filterValidLines]: the slice returned and the text written to
    [os.Stderr]. *)
Definition filterValidLines (lines : list string) (key : string)
  : list string * list printed :=
  filterValidLines_loop key 0 lines [] [].

(** The loop of [validateLines]. *)
Fixpoint validateLines_loop `{Fmt} (idx : Z) (lines : list string)
  (problems : list string) : list string :=
  match lines with
  | [] => problems
  | raw :: rest =>
      let line := strings.TrimSpace raw in
      if String.eqb line "" then validateLines_loop (idx + 1) rest problems
      else
        match validateLine line with
        | Some err =>
            validateLines_loop (idx + 1) rest
              (problems ++ [fmt_Sprintf "  [%d] %s -> %v"
                              [Aint idx; Astr line; Aerr err]])
        | None => validateLines_loop (idx + 1) rest problems
        end
  end.

Definition validateLines `{Fmt} (lines : list string) (key : string)
  : option error :=
  let problems := validateLines_loop 0 lines [] in
  if Z.of_nat (length problems) =? 0 then None
  else Some (Errorf ("validation failed for key %q (%d bad lines):"
                     +:+ String "010" "%s")
               [Astr key; Aint (Z.of_nat (length problems));
                Astr (strings.Join problems (String "010" ""))]).

End Filters.

(** ** main.go: the intake of a subscription *)

(** One iteration of the loop of [dedupe]: [seen] is the map used as a
    set, [out] the slice built so far. *)
Definition dedupe_body (acc : gset string * list string) (s : string)
  : gset string * list string :=
  let '(seen, out) := acc in
  let k := strings.TrimSpace s in
  if String.eqb k "" then acc
  else if bool_decide (k ∈ seen) then acc
  else ({[k]} ∪ seen, out ++ [k]).

Definition dedupe (in_ : list string) : list string :=
  snd (fold_left dedupe_body in_ (∅, [])).

(** All the bytes of [s] satisfy [p]. *)
Fixpoint all_bytes (p : ascii -> bool) (s : string) : bool :=
  match s with
  | EmptyString => true
  | String c r => p c && all_bytes p r
  end.

(** The class [[A-Za-z0-9+/=\r\n]]. *)
Definition possibleB64 (c : ascii) : bool :=
  let n := N_of_ascii c in
  ((65 <=? n) && (n <=? 90) || (97 <=? n) && (n <=? 122)
   || (48 <=? n) && (n <=? 57)
   || (n =? 43) || (n =? 47) || (n =? 61) || (n =? 13) || (n =? 10))%N.

(** [rePossibleB64.Match]: the expression asks for one character of the
    class or more, from the start of the text to its end. *)
Definition rePossibleB64 (b : string) : bool :=
  negb (String.eqb b "") && all_bytes possibleB64 b.

Definition tryDecodeIfBase64 `{GoLib} (b : string) : string :=
  let trim := strings.TrimSpace b in
  if strings.len trim =? 0 then trim
  else if negb (rePossibleB64 trim) then b
  else
    let attempt :=
      match base64.DecodeString trim with
      | Ok dec => Some dec
      | Err _ =>
          match base64.DecodeString
                  (strings.ReplaceAll trim (String "010" "") "") with
          | Ok dec2 => Some dec2
          | Err _ => None
          end
      end in
    match attempt with
    | None => b
    | Some dec =>
        let l := strings_ToLower dec in
        if strings.Contains l "vless://" || strings.Contains l "vmess://"
           || strings.Contains l "ss://"
        then dec else b
    end.

(** How a function with an unbounded loop and with index expressions
    ends, when its loop is run for a given number of iterations at
    most: it returns, it panics on an index or a slice out of range, or
    the iterations did not suffice. *)
Inductive outcome (A : Type) : Type :=
| Done (a : A)
| Panic
| Unfinished.
Arguments Done {A} a.
Arguments Panic {A}.
Arguments Unfinished {A}.

(** [s[i]] *)
Definition byte_at (s : string) (i : Z) : option ascii :=
  if (0 <=? i) && (i <? strings.len s) then String.get (Z.to_nat i) s
  else None.

(** [s[lo:hi]] *)
Definition slice (s : string) (lo hi : Z) : option string :=
  if (0 <=? lo) && (lo <=? hi) && (hi <=? strings.len s)
  then Some (strings.take (Z.to_nat (hi - lo)) (strings.drop (Z.to_nat lo) s))
  else None.

Definition isSchemeChar (c : ascii) : bool :=
  let n := N_of_ascii c in
  ((97 <=? n) && (n <=? 122) || (65 <=? n) && (n <=? 90))%N.

(** The loop [for start >= 0 && isSchemeChar(cur[start]) { start-- }]. *)
Fixpoint schemeStart (fuel : nat) (cur : string) (start : Z) : outcome Z :=
  match fuel with
  | O => Unfinished
  | S fuel' =>
      if 0 <=? start then
        match byte_at cur start with
        | None => Panic
        | Some c =>
            if isSchemeChar c then schemeStart fuel' cur (start - 1)
            else Done start
        end
      else Done start
  end.

(** The loop of [splitPossible]. *)
Fixpoint splitPossible_loop (fuel : nat) (cur : string) (parts : list string)
  : outcome (list string) :=
  match fuel with
  | O => Unfinished
  | S fuel' =>
      let idx := strings.Index cur "://" in
      if idx <? 0 then Done parts
      else
        match schemeStart (S (String.length cur)) cur (idx - 1) with
        | Done start =>
            let start := start + 1 in
            match slice cur start (strings.len cur) with
            | None => Panic
            | Some rest =>
                match slice rest 3 (strings.len rest) with
                | None => Panic
                | Some rest3 =>
                    let next := strings.Index rest3 "://" in
                    if 0 <=? next then
                      match slice rest 0 (next + 3),
                            slice rest (next + 3) (strings.len rest) with
                      | Some part, Some cur' =>
                          splitPossible_loop fuel' cur'
                            (parts ++ [strings.TrimSpace part])
                      | _, _ => Panic
                      end
                    else Done (parts ++ [strings.TrimSpace rest])
                end
            end
        | Panic => Panic
        | Unfinished => Unfinished
        end
  end.

Definition splitPossible (s : string) : outcome (list string) :=
  if strings.Count s "://" <=? 1 then Done [s]
  else splitPossible_loop (S (String.length s)) s [].

(** The class of [sanitizeFileName]: the characters [<], [>], [:], the
    double quote, the backslash, [|], [?], [*], and the control
    characters from 0x00 to 0x1F. *)
Definition invalidName (c : ascii) : bool :=
  let n := N_of_ascii c in
  ((n =? 60) || (n =? 62) || (n =? 58) || (n =? 34) || (n =? 92)
   || (n =? 124) || (n =? 63) || (n =? 42) || (n <=? 31))%N.

(** [ReplaceAllString] of a class [p] by an underscore: every character
    of the class is replaced. *)
Fixpoint replaceClass (p : ascii -> bool) (s : string) : string :=
  match s with
  | EmptyString => ""
  | String c r => String (if p c then "_"%char else c) (replaceClass p r)
  end.

Definition sanitizeFileName (name : string) : string :=
  let name := strings.TrimSpace name in
  let name := strings.ReplaceAll name "/" "_" in
  let name := replaceClass invalidName name in
  if String.eqb name "" then "default" else name.

(** [bufio.Scanner] with the split function [ScanLines], over a text in
    memory and with a buffer that may grow to [max] bytes: the tokens
    that [Scan] yields in turn.  They are the lines of the text without
    their end-of-line marker (a new line and one carriage return before
    it); what follows the last new line is a token when it is not empty.
    A line of [max] bytes or more does not fit the buffer: [Scan] then
    returns false, and the lines before it are all that was read. *)
Module bufio.

Definition dropCR (data : string) : string :=
  if strings.HasSuffix data (String "013" "")
  then strings.take (String.length data - 1) data
  else data.

Fixpoint tokens (max : Z) (pieces : list string) : list string :=
  match pieces with
  | [] => []
  | [last] =>
      if String.eqb last "" then []
      else if strings.len last <? max then [dropCR last] else []
  | piece :: rest =>
      if strings.len piece <? max then dropCR piece :: tokens max rest
      else []
  end.

Definition ScanLines (max : Z) (text : string) : list string :=
  tokens max (strings.Split text (String "010" "")).

End bufio.

(** The class [\s] of a regular expression: tabulation, new line, form
    feed, carriage return and space. *)
Definition reSpace (c : ascii) : bool :=
  let n := N_of_ascii c in
  ((n =? 9) || (n =? 10) || (n =? 12) || (n =? 13) || (n =? 32))%N.

Fixpoint skipSpace (s : string) : string :=
  match s with
  | String c r => if reSpace c then skipSpace r else s
  | EmptyString => ""
  end.

(** [reCommentLine.MatchString]: white space or none, then [#], [//] or
    [;], then characters other than the new line up to the end of the
    text. *)
Definition reCommentLine (s : string) : bool :=
  let t := skipSpace s in
  (strings.HasPrefix t "#" || strings.HasPrefix t "//"
   || strings.HasPrefix t ";")
  && negb (strings.Contains t (String "010" "")).

Section Intake.
Context `{GoLib}.

Definition normalizeScheme (s : string) : string :=
  let idx := strings.Index s "://" in
  if idx <? 0 then s
  else strings_ToLower (strings.slice_to s idx) +:+ strings.slice_from s idx.

(** The loop over the map [allowed]: some scheme of the map, followed by
    [://], starts [l]. *)
Definition allowedScheme (allowed : gset string) (l : string) : bool :=
  existsb (fun sch => strings.HasPrefix l (sch +:+ "://")) (elements allowed).

(** One iteration of the inner loop of [parseAndFilterLines]. *)
Definition parseAndFilterLines_item (allowed : gset string)
  (out : list string) (it : string) : list string :=
  let it := strings.TrimSpace it in
  if String.eqb it "" || reCommentLine it then out
  else
    let l := strings_ToLower it in
    let ok := allowedScheme allowed l in
    if negb ok then out
    else out ++ [normalizeScheme it].

(** One iteration of the loop [for sc.Scan()], on the text of the
    token. *)
Definition parseAndFilterLines_line (allowed : gset string)
  (out : outcome (list string)) (text : string) : outcome (list string) :=
  match out with
  | Done out =>
      let line := strings.TrimSpace text in
      if String.eqb line "" || reCommentLine line then Done out
      else
        match splitPossible line with
        | Done items =>
            Done (fold_left (parseAndFilterLines_item allowed) items out)
        | Panic => Panic
        | Unfinished => Unfinished
        end
  | Panic => Panic
  | Unfinished => Unfinished
  end.

Definition parseAndFilterLines (b : string) (allowed : gset string)
  : outcome (list string) :=
  fold_left (parseAndFilterLines_line allowed)
    (bufio.ScanLines (10 * 1024 * 1024) b) (Done []).

End Intake.

(** * A reference implementation of the library interface

    Used for the concrete examples only. *)

(** ** [url.Parse]

    The algorithm of [net/url] (Go 1.22): scheme, query and fragment are
    split off, an authority after [//] is parsed into user information
    and host, and the escapes of each part are checked.  Later releases
    also require the text between brackets to be an IPv6 address; no
    example below has a bracketed host that is not. *)

Module urlparse.

Inductive encoding : Type :=
| encodePath | encodeHost | encodeZone | encodeUserPassword | encodeFragment.

Definition code (c : ascii) : Z := Z.of_N (N_of_ascii c).

Definition isAlpha (c : ascii) : bool :=
  let n := code c in
  (97 <=? n) && (n <=? 122) || (65 <=? n) && (n <=? 90).

Definition isAlnum (c : ascii) : bool := isAlpha c || url.isDigit c.

Fixpoint mem (c : ascii) (set : string) : bool :=
  match set with
  | EmptyString => false
  | String a r => Ascii.eqb a c || mem c r
  end.

Fixpoint forallb_str (p : ascii -> bool) (s : string) : bool :=
  match s with
  | EmptyString => true
  | String c r => p c && forallb_str p r
  end.

Definition dquote : ascii := "034"%char.

(** [strings.Cut] *)
Definition Cut (s sep : string) : string * string * bool :=
  let i := strings.Index s sep in
  if 0 <=? i
  then (strings.slice_to s i, strings.slice_from s (i + strings.len sep), true)
  else (s, "", false).

Definition stringContainsCTLByte (s : string) : bool :=
  negb (forallb_str (fun c => negb ((code c <? 32) || (code c =? 127))) s).

Fixpoint getScheme_go (i : nat) (rawURL s : string) : result (string * string) :=
  match s with
  | EmptyString => Ok ("", rawURL)
  | String c r =>
      if isAlpha c then getScheme_go (S i) rawURL r
      else if url.isDigit c || mem c "+-." then
        match i with
        | O => Ok ("", rawURL)
        | _ => getScheme_go (S i) rawURL r
        end
      else if Ascii.eqb c ":" then
        match i with
        | O => Err (errorString "missing protocol scheme")
        | _ => Ok (strings.take i rawURL, r)
        end
      else Ok ("", rawURL)
  end.

Definition getScheme (rawURL : string) : result (string * string) :=
  getScheme_go O rawURL rawURL.

(** [shouldEscape(c, encodeHost)] *)
Definition shouldEscapeHost (c : ascii) : bool :=
  negb (isAlnum c
        || mem c "!$&'()*+,;=:[]<>" || Ascii.eqb c dquote
        || mem c "-_.~").

Definition ishex (c : ascii) : bool :=
  let n := code c in
  url.isDigit c || (97 <=? n) && (n <=? 102) || (65 <=? n) && (n <=? 70).

Definition unhex (c : ascii) : Z :=
  let n := code c in
  if url.isDigit c then n - 48
  else if (97 <=? n) && (n <=? 102) then n - 97 + 10
  else if (65 <=? n) && (n <=? 70) then n - 65 + 10
  else 0.

Definition byte_of (z : Z) : ascii := ascii_of_N (Z.to_N z).

Definition EscapeError (s : string) : error :=
  Errorf "invalid URL escape %q" [Astr s].
Definition InvalidHostError (s : string) : error :=
  Errorf "invalid character %q in host name" [Astr s].

Definition isHostMode (mode : encoding) : bool :=
  match mode with encodeHost | encodeZone => true | _ => false end.

Fixpoint unescape (s : string) (mode : encoding) : result string :=
  match s with
  | EmptyString => Ok ""
  | String c r =>
      if Ascii.eqb c "%" then
        match r with
        | String h1 (String h2 r') =>
            if negb (ishex h1 && ishex h2) then
              Err (EscapeError (strings.take 3 s))
            else
              let v := unhex h1 * 16 + unhex h2 in
              let is25 := String.eqb (strings.take 3 s) "%25" in
              if match mode with
                 | encodeHost => (unhex h1 <? 8) && negb is25
                 | encodeZone =>
                     negb is25 && negb (v =? 32)
                     && shouldEscapeHost (byte_of v)
                 | _ => false
                 end
              then Err (EscapeError (strings.take 3 s))
              else match unescape r' mode with
                   | Ok t => Ok (String (byte_of v) t)
                   | Err e => Err e
                   end
        | _ => Err (EscapeError (strings.take 3 s))
        end
      else if isHostMode mode && (code c <? 128) && shouldEscapeHost c then
        Err (InvalidHostError (String c ""))
      else match unescape r mode with
           | Ok t => Ok (String c t)
           | Err e => Err e
           end
  end.

Definition validUserinfo (s : string) : bool :=
  forallb_str (fun c => isAlnum c || mem c "-._:~!$&'()*+,;=%@") s.

(** [strings.LastIndex] for a one-byte pattern. *)
Definition LastIndex1 (s : string) (c : ascii) : Z := strings.LastIndexByte s c.

Definition parseHost (host : string) : result string :=
  let plain :=
    match unescape host encodeHost with
    | Ok h => Ok h
    | Err e => Err e
    end in
  if strings.HasPrefix host "[" then
    let i := LastIndex1 host "]" in
    if i <? 0 then Err (errorString "missing ']' in host")
    else
      let colonPort := strings.slice_from host (i + 1) in
      if negb (url.validOptionalPort colonPort) then
        Err (Errorf "invalid port %q after host" [Astr colonPort])
      else
        let zone := strings.Index (strings.slice_to host i) "%25" in
        if 0 <=? zone then
          match unescape (strings.slice_to host zone) encodeHost with
          | Err e => Err e
          | Ok host1 =>
              match unescape (strings.take (Z.to_nat (i - zone))
                                (strings.slice_from host zone)) encodeZone with
              | Err e => Err e
              | Ok host2 =>
                  match unescape (strings.slice_from host i) encodeHost with
                  | Err e => Err e
                  | Ok host3 => Ok (host1 +:+ host2 +:+ host3)
                  end
              end
          end
        else plain
  else
    let i := LastIndex1 host ":" in
    if negb (i =? -1)
       && negb (url.validOptionalPort (strings.slice_from host i))
    then Err (Errorf "invalid port %q after host"
                [Astr (strings.slice_from host i)])
    else plain.

Definition parseAuthority (authority : string)
  : result (option url.Userinfo * string) :=
  let i := LastIndex1 authority "@" in
  match (if i <? 0 then parseHost authority
         else parseHost (strings.slice_from authority (i + 1))) with
  | Err e => Err e
  | Ok host =>
      if i <? 0 then Ok (None, host)
      else
        let userinfo := strings.slice_to authority i in
        if negb (validUserinfo userinfo) then
          Err (errorString "net/url: invalid userinfo")
        else if negb (strings.Contains userinfo ":") then
          match unescape userinfo encodeUserPassword with
          | Err e => Err e
          | Ok u => Ok (Some (url.Build_Userinfo u "" false), host)
          end
        else
          let '(username, password, _) := Cut userinfo ":" in
          match unescape username encodeUserPassword with
          | Err e => Err e
          | Ok username =>
              match unescape password encodeUserPassword with
              | Err e => Err e
              | Ok password =>
                  Ok (Some (url.Build_Userinfo username password true), host)
              end
          end
  end.

Definition lower1 (c : ascii) : ascii :=
  let n := code c in
  if (65 <=? n) && (n <=? 90) then byte_of (n + 32) else c.

Fixpoint lowerASCII (s : string) : string :=
  match s with
  | EmptyString => ""
  | String c r => String (lower1 c) (lowerASCII r)
  end.

(** [parse(rawURL, false)] *)
Definition parse (rawURL : string) : result url.URL :=
  if stringContainsCTLByte rawURL then
    Err (errorString "net/url: invalid control character in URL")
  else if String.eqb rawURL "*" then
    Ok (url.Build_URL "" "" None "" "*" "" "")
  else
    match getScheme rawURL with
    | Err e => Err e
    | Ok (scheme, rest) =>
        let scheme := lowerASCII scheme in
        let '(rest, rawQuery) :=
          if strings.HasSuffix rest "?" && (strings.Count rest "?" =? 1)
          then (strings.take (String.length rest - 1) rest, "")
          else let '(a, b, _) := Cut rest "?" in (a, b) in
        if negb (strings.HasPrefix rest "/") && negb (String.eqb scheme "")
        then Ok (url.Build_URL scheme rest None "" "" rawQuery "")
        else if negb (strings.HasPrefix rest "/")
                && strings.Contains (fst (fst (Cut rest "/"))) ":"
        then Err (errorString
                    "first path segment in URL cannot contain colon")
        else
          let finish (user : option url.Userinfo) (host rest : string) :=
            match unescape rest encodePath with
            | Err e => Err e
            | Ok path => Ok (url.Build_URL scheme "" user host path rawQuery "")
            end in
          if (negb (String.eqb scheme "")
              || negb (strings.HasPrefix rest "///"))
             && strings.HasPrefix rest "//"
          then
            let authority := strings.drop 2 rest in
            let i := strings.Index authority "/" in
            let '(authority, rest) :=
              if 0 <=? i
              then (strings.slice_to authority i,
                    strings.slice_from authority i)
              else (authority, "") in
            match parseAuthority authority with
            | Err e => Err e
            | Ok (user, host) => finish user host rest
            end
          else finish None "" rest
    end.

Definition Parse (rawURL : string) : result url.URL :=
  let '(u, frag, _) := Cut rawURL "#" in
  match parse u with
  | Err err => Err (Errorf "parse %q: %w" [Astr u; Aerr err])
  | Ok r =>
      if String.eqb frag "" then Ok r
      else
        match unescape frag encodeFragment with
        | Err err => Err (Errorf "parse %q: %w" [Astr rawURL; Aerr err])
        | Ok f =>
            Ok (url.Build_URL (url.Scheme r) (url.Opaque r) (url.User r)
                  (url.Host r) (url.Path r) (url.RawQuery r) f)
        end
  end.

End urlparse.

(** ** [json.Unmarshal] into a [map[string]any]

    A decoder for JSON texts as [encoding/json] reads them: numbers
    become the nearest [float64], strings are unquoted with invalid
    UTF-8 replaced by U+FFFD, a later member of an object overrides an
    earlier one with the same key, containers nest at most 10000 deep,
    and the text must be an object or [null]. *)

Module jsondec.

Definition code (c : ascii) : Z := Z.of_N (N_of_ascii c).
Definition byte_of (z : Z) : ascii := ascii_of_N (Z.to_N z).

Definition isWS (c : ascii) : bool :=
  let n := code c in (n =? 32) || (n =? 9) || (n =? 13) || (n =? 10).

Fixpoint skip_ws (s : string) : string :=
  match s with
  | String c r => if isWS c then skip_ws r else s
  | EmptyString => ""
  end.

(** [strconv.ParseFloat(s, 64)] on the number [(-1)^neg * m * 10^e10]:
    the nearest [float64], ties to even. *)
Definition float64_of_decimal (neg : bool) (m e10 : Z) : float64 :=
  match m with
  | Zpos p =>
      if 0 <=? e10 then
        binary_normalize prec64 emax64
          ((if neg then -1 else 1) * (m * 10 ^ e10)) 0 false
      else
        SFdiv prec64 emax64 (S754_finite neg p 0)
          (S754_finite false (Z.to_pos (10 ^ (- e10))) 0)
  | _ => S754_zero neg
  end.

Fixpoint take_digits (s : string) : string * string :=
  match s with
  | String c r =>
      if url.isDigit c then let '(d, t) := take_digits r in (String c d, t)
      else ("", s)
  | EmptyString => ("", "")
  end.

Definition digits_value (d : string) : Z :=
  match strconv.digits 0 d with Some z => z | None => 0 end.

(** A number at the head of [s], as the scanner accepts it. *)
Definition number (s : string) : option (float64 * string) :=
  let '(neg, s1) :=
    match s with
    | String "-" r => (true, r)
    | _ => (false, s)
    end in
  let '(ip, s2) :=
    match s1 with
    | String "0" r => ("0", r)
    | _ => take_digits s1
    end in
  if String.eqb ip "" then None
  else
    let frac :=
      match s2 with
      | String "." r =>
          let '(fp, s3) := take_digits r in
          if String.eqb fp "" then None else Some (fp, s3)
      | _ => Some ("", s2)
      end in
    match frac with
    | None => None
    | Some (fp, s3) =>
        let ex :=
          match s3 with
          | String c r =>
              if Ascii.eqb c "e" || Ascii.eqb c "E" then
                let '(eneg, r1) :=
                  match r with
                  | String "-" r1 => (true, r1)
                  | String "+" r1 => (false, r1)
                  | _ => (false, r)
                  end in
                let '(ed, s4) := take_digits r1 in
                if String.eqb ed "" then None
                else Some ((if eneg then -1 else 1) * digits_value ed, s4)
              else Some (0, s3)
          | EmptyString => Some (0, s3)
          end in
        match ex with
        | None => None
        | Some (e, s4) =>
            let f := float64_of_decimal neg (digits_value (ip +:+ fp))
                       (e - strings.len fp) in
            match f with
            | S754_infinity _ | S754_nan => None
            | _ => Some (f, s4)
            end
        end
    end.

(** The length of the well-formed UTF-8 sequence at the head of [s];
    [O] when there is none. *)
Definition utf8_len (s : string) : nat :=
  let cont (lo hi : Z) (c : ascii) := (lo <=? code c) && (code c <=? hi) in
  match s with
  | String a (String b r) =>
      let x := code a in
      if (194 <=? x) && (x <=? 223) then
        if cont 128 191 b then 2%nat else O
      else
        match r with
        | String c r' =>
            let three (lo hi : Z) :=
              if cont lo hi b && cont 128 191 c then 3%nat else O in
            let four (lo hi : Z) :=
              match r' with
              | String d _ =>
                  if cont lo hi b && cont 128 191 c && cont 128 191 d
                  then 4%nat else O
              | EmptyString => O
              end in
            if x =? 224 then three 160 191
            else if (225 <=? x) && (x <=? 236) then three 128 191
            else if x =? 237 then three 128 159
            else if (238 <=? x) && (x <=? 239) then three 128 191
            else if x =? 240 then four 144 191
            else if (241 <=? x) && (x <=? 243) then four 128 191
            else if x =? 244 then four 128 143
            else O
        | EmptyString => O
        end
  | _ => O
  end.

Definition ReplacementChar : Z := 65533.

(** [utf8.EncodeRune] *)
Definition EncodeRune (r : Z) : string :=
  let r := if (r <? 0) || (1114111 <? r) || (55296 <=? r) && (r <=? 57343)
           then ReplacementChar else r in
  if r <? 128 then String (byte_of r) ""
  else if r <? 2048 then
    String (byte_of (192 + r / 64)) (String (byte_of (128 + r mod 64)) "")
  else if r <? 65536 then
    String (byte_of (224 + r / 4096))
      (String (byte_of (128 + (r / 64) mod 64))
         (String (byte_of (128 + r mod 64)) ""))
  else
    String (byte_of (240 + r / 262144))
      (String (byte_of (128 + (r / 4096) mod 64))
         (String (byte_of (128 + (r / 64) mod 64))
            (String (byte_of (128 + r mod 64)) ""))).

(** [getu4] past the [\u]: four hexadecimal digits. *)
Definition hex4 (s : string) : option (Z * string) :=
  match s with
  | String a (String b (String c (String d r))) =>
      if urlparse.ishex a && urlparse.ishex b
         && urlparse.ishex c && urlparse.ishex d
      then Some (((urlparse.unhex a * 16 + urlparse.unhex b) * 16
                  + urlparse.unhex c) * 16 + urlparse.unhex d, r)
      else None
  | _ => None
  end.

(** [utf16.DecodeRune] *)
Definition utf16_DecodeRune (r1 r2 : Z) : Z :=
  if (55296 <=? r1) && (r1 <? 56320) && (56320 <=? r2) && (r2 <? 57344)
  then (r1 - 55296) * 1024 + (r2 - 56320) + 65536
  else ReplacementChar.

Definition backslash : ascii := "092"%char.

(** A string literal past its opening quote: the text it denotes and
    what follows the closing quote. *)
Fixpoint unquote (fuel : nat) (s : string) : option (string * string) :=
  match fuel with
  | O => None
  | S fuel =>
      let emit (t r : string) :=
        match unquote fuel r with
        | Some (u, rest) => Some (t +:+ u, rest)
        | None => None
        end in
      match s with
      | EmptyString => None
      | String c r =>
          if Ascii.eqb c urlparse.dquote then Some ("", r)
          else if Ascii.eqb c backslash then
            match r with
            | EmptyString => None
            | String e r1 =>
                if Ascii.eqb e urlparse.dquote || Ascii.eqb e backslash
                   || Ascii.eqb e "/"
                then emit (String e "") r1
                else if Ascii.eqb e "b" then emit (String "008" "") r1
                else if Ascii.eqb e "f" then emit (String "012" "") r1
                else if Ascii.eqb e "n" then emit (String "010" "") r1
                else if Ascii.eqb e "r" then emit (String "013" "") r1
                else if Ascii.eqb e "t" then emit (String "009" "") r1
                else if Ascii.eqb e "u" then
                  match hex4 r1 with
                  | None => None
                  | Some (rr, r2) =>
                      if (55296 <=? rr) && (rr <=? 57343) then
                        let rr1 :=
                          match r2 with
                          | String b1 (String b2 r3) =>
                              if Ascii.eqb b1 backslash && Ascii.eqb b2 "u"
                              then match hex4 r3 with
                                   | Some (v, r4) => Some (v, r4)
                                   | None => None
                                   end
                              else None
                          | _ => None
                          end in
                        match rr1 with
                        | Some (v, r4) =>
                            let dec := utf16_DecodeRune rr v in
                            if dec =? ReplacementChar
                            then emit (EncodeRune ReplacementChar) r2
                            else emit (EncodeRune dec) r4
                        | None => emit (EncodeRune ReplacementChar) r2
                        end
                      else emit (EncodeRune rr) r2
                  end
                else None
            end
          else if code c <? 32 then None
          else if code c <? 128 then emit (String c "") r
          else
            match utf8_len s with
            | O => emit (EncodeRune ReplacementChar) r
            | n => emit (strings.take n s) (strings.drop n s)
            end
      end
  end.

(** [m[k] = v] on the members of a nested object. *)
Fixpoint set_key (k : string) (v : any) (m : list (string * any))
  : list (string * any) :=
  match m with
  | [] => [(k, v)]
  | (k', v') :: r =>
      if String.eqb k k' then (k, v) :: r else (k', v') :: set_key k v r
  end.

Definition maxNestingDepth : Z := 10000.

(** A value at the head of [s] (white space already skipped), inside
    [depth] containers. *)
Fixpoint value (fuel : nat) (depth : Z) (s : string) : option (any * string) :=
  match fuel with
  | O => None
  | S fuel =>
      match s with
      | EmptyString => None
      | String c r =>
          if Ascii.eqb c "{" then
            if maxNestingDepth <? depth + 1 then None
            else
              match skip_ws r with
              | String "}" r' => Some (AnyMap [], r')
              | r1 => members fuel (depth + 1) r1 []
              end
          else if Ascii.eqb c "[" then
            if maxNestingDepth <? depth + 1 then None
            else
              match skip_ws r with
              | String "]" r' => Some (AnySlice [], r')
              | r1 => elements fuel (depth + 1) r1 []
              end
          else if Ascii.eqb c urlparse.dquote then
            match unquote (S (String.length r)) r with
            | Some (t, r') => Some (AnyString t, r')
            | None => None
            end
          else if String.prefix "true" s then
            Some (AnyBool true, strings.drop 4 s)
          else if String.prefix "false" s then
            Some (AnyBool false, strings.drop 5 s)
          else if String.prefix "null" s then
            Some (AnyNil, strings.drop 4 s)
          else
            match number s with
            | Some (f, r') => Some (AnyFloat64 f, r')
            | None => None
            end
      end
  end
with members (fuel : nat) (depth : Z) (s : string) (acc : list (string * any))
  : option (any * string) :=
  match fuel with
  | O => None
  | S fuel =>
      match s with
      | String c r =>
          if Ascii.eqb c urlparse.dquote then
            match unquote (S (String.length r)) r with
            | None => None
            | Some (k, r1) =>
                match skip_ws r1 with
                | String ":" r2 =>
                    match value fuel depth (skip_ws r2) with
                    | None => None
                    | Some (v, r3) =>
                        let acc := set_key k v acc in
                        match skip_ws r3 with
                        | String "," r4 => members fuel depth (skip_ws r4) acc
                        | String "}" r4 => Some (AnyMap acc, r4)
                        | _ => None
                        end
                    end
                | _ => None
                end
            end
          else None
      | EmptyString => None
      end
  end
with elements (fuel : nat) (depth : Z) (s : string) (acc : list any)
  : option (any * string) :=
  match fuel with
  | O => None
  | S fuel =>
      match value fuel depth s with
      | None => None
      | Some (v, r) =>
          match skip_ws r with
          | String "," r1 => elements fuel depth (skip_ws r1) (acc ++ [v])
          | String "]" r1 => Some (AnySlice (acc ++ [v]), r1)
          | _ => None
          end
      end
  end.

Definition SyntaxError : error := errorString "json: syntax error".
Definition UnmarshalTypeError : error :=
  errorString "json: cannot unmarshal into Go value of type map[string]interface {}".

Definition Unmarshal (data : string) : result (gmap string any) :=
  match value (S (String.length data)) 0 (skip_ws data) with
  | None => Err SyntaxError
  | Some (v, rest) =>
      match skip_ws rest with
      | EmptyString =>
          match v with
          | AnyMap m => Ok (list_to_map m)
          | AnyNil => Ok ∅
          | _ => Err UnmarshalTypeError
          end
      | _ => Err SyntaxError
      end
  end.

End jsondec.

(** ** The other functions *)

(** [filepath.Dir] and [filepath.Base] on a clean slash-separated path. *)
Definition Dir (path : string) : string :=
  let i := strings.LastIndexByte path "/" in
  if i <? 0 then "." else if i =? 0 then "/" else strings.slice_to path i.

Definition Base (path : string) : string :=
  let i := strings.LastIndexByte path "/" in
  if String.eqb path "" then "."
  else if i <? 0 then path else strings.slice_from path (i + 1).

(** [golib]: [strings.ToLower] is given on ASCII text, and [int(f)]
    out of range yields the smallest [int], as on amd64. *)
#[export] Instance golib : GoLib := {
  url_Parse := urlparse.Parse;
  json_Unmarshal := jsondec.Unmarshal;
  strings_ToLower := urlparse.lowerASCII;
  int_of_float64_overflow := fun _ => - 2 ^ 63;
  filepath_Dir := Dir;
  filepath_Base := Base
}.

(** * Notions the properties are stated with *)

(** The size asked of [buildLiteTail]: [n], or 100 when [n] is not
    positive. *)
Definition tailSize (n : Z) : Z := if n <=? 0 then 100 else n.

(** The text of [s] before its first [c]: all of [s] when it has none. *)
Definition before (c : ascii) (s : string) : string :=
  let i := strings.IndexByte s c in
  if 0 <=? i then strings.slice_to s i else s.

(** The method of a Shadowsocks user information, in the words of the
    description of [decodeSSUserInfo]: read in the decoded text when
    the user information is base64 and the decoded text has a colon, in
    the user information itself in every other case. *)
Definition ssMethod (user : string) : string :=
  match base64.DecodeString user with
  | Ok dec =>
      if strings.Contains dec ":" then before ":" dec else before ":" user
  | Err _ => before ":" user
  end.

(** [quoted s] is [s] with every apostrophe turned into a double quote:
    a way to write JSON texts. *)
Definition quoted (s : string) : string :=
  strings.ReplaceAll s "'" (String urlparse.dquote "").

(** The signed mantissa of a finite [float64]. *)
Definition signed (s : bool) (m : positive) : Z :=
  if s then Z.neg m else Z.pos m.

(** The value [(-1)^s * m * 2^e] of a finite [float64] rounded toward
    zero to an integer: the quotient of its numerator by its
    denominator, the fraction being dropped. *)
Definition toward_zero (s : bool) (m : positive) (e : Z) : Z :=
  Z.quot (signed s m * 2 ^ Z.max e 0) (2 ^ Z.max (- e) 0).

Section Vmess.
Context `{GoLib}.

(** A port value coerces to an integer: a string by [strconv.Atoi], a
    floating value by [int( )], an integer as it is. *)
Inductive coerces : any -> Z -> Prop :=
| coerces_string s p : strconv.Atoi s = Ok p -> coerces (AnyString s) p
| coerces_float f : coerces (AnyFloat64 f) (int_of_float64 f)
| coerces_int i : coerces (AnyInt i) i.

(** The conditions on a vmess line, in the words of the specification:
    the payload decodes to JSON whose [add] is a string that is
    [present], whose [port] coerces to an integer in (0, 99999] and
    whose [id] is a string that is [present]. *)
Definition vmess_conditions (present : string -> Prop) (line : string) : Prop :=
  exists payload m host p id,
    decodeVmessBase64 (vmessPayload line) = Ok payload
    /\ json_Unmarshal payload = Ok m
    /\ index m "add" = AnyString host /\ present host
    /\ coerces (index m "port") p /\ 0 < p <= 99999
    /\ index m "id" = AnyString id /\ present id.

End Vmess.

Definition nonempty (s : string) : Prop := s <> "".
Definition nonblank (s : string) : Prop := strings.TrimSpace s <> "".

(** The errors of [validateLine] that come from a check
    [extractHostPort] does not make: the range of the port, and the
    presence of the user information, of the [id] or of the method. *)
Definition beyond_endpoint (e : error) : bool :=
  match e with
  | Errorf format _ =>
      String.eqb format "invalid port %d"
      || String.eqb format "vmess: invalid port %d"
  | errorString msg =>
      String.eqb msg "vmess: missing id (UUID)"
      || String.eqb msg "missing user/id in vless url"
      || String.eqb msg "missing trojan password in user part"
      || String.eqb msg "missing userinfo (method:password)"
      || String.eqb msg "empty encryption method"
  end.

(** The method of a Shadowsocks user information, in the words of
    the specification of [ss] lines: the text before the first colon
    of the base64-decoded user information, or of the user information
    itself when it is not base64. *)
Definition ssMethod_stated (user : string) : string :=
  match base64.DecodeString user with
  | Ok dec => before ":" dec
  | Err _ => before ":" user
  end.

(** For a Shadowsocks line with a host, a port in (0, 65535] and user
    information that is [present], validation accepts exactly when the
    method is not empty. *)
Definition ss_accepts_on_method `{GoLib} (present : string -> Prop) : Prop :=
  forall (line : string) (u : url.URL) (p : Z),
    url_Parse line = Ok u ->
    url.Hostname u <> "" ->
    parsePort (url.Port u) = Ok p ->
    0 < p <= 65535 ->
    present (url.Username (url.User u)) ->
    (validateShadowsocks line = None
     <-> ssMethod_stated (url.Username (url.User u)) <> "").

(** A text made of new lines and carriage returns only. *)
Fixpoint allNL (s : string) : bool :=
  match s with
  | EmptyString => true
  | String c r => base64.isNL c && allNL r
  end.

(** The two buckets of [splitByIPVersion]. *)
Inductive family : Type := IPv4 | IPv6.

Definition family_eqb (a b : family) : bool :=
  match a, b with
  | IPv4, IPv4 | IPv6, IPv6 => true
  | _, _ => false
  end.

(** [host] without an optional trailing [:port]. *)
Definition stripPort (host : string) : string :=
  let i := strings.LastIndexByte host ":" in
  if (0 <=? i) && url.validOptionalPort (strings.slice_from host i)
  then strings.slice_to host i else host.

(** The family of a host, in the words of the specification: a
    bracketed host is IPv6; otherwise the host without its port is IPv4
    when it has exactly three dots, and IPv6 when it has not. *)
Definition family_stated (host : string) : family :=
  if strings.HasPrefix host "[" then IPv6
  else if strings.Count (stripPort host) "." =? 3 then IPv4 else IPv6.

(** The family [splitByIPVersion] gives to a host: the text is cut at
    its first colon before the tests. *)
Definition family_of (host : string) : family :=
  let host := if strings.Contains host ":"
              then hd "" (strings.Split host ":") else host in
  if strings.HasPrefix host "[" && strings.HasSuffix host "]" then IPv6
  else if strings.Count host "." =? 3 then IPv4 else IPv6.

(** The family of a host as [splitByIPVersion] decides it: of the host
    (which still carries the port) only the text before the first colon
    is looked at; it is IPv6 when it starts with an opening bracket and
    ends with a closing bracket, IPv4 when it has exactly three dots,
    and IPv6 in every other case. *)
Definition family_cut (host : string) : family :=
  let h := before ":" host in
  if strings.HasPrefix h "[" && strings.HasSuffix h "]" then IPv6
  else if strings.Count h "." =? 3 then IPv4 else IPv6.

(** The host of a URI as RFC 3986 writes it: between brackets an IPv6
    address, which starts with hexadecimal digits (or none) and a
    colon; or a name or IPv4 address without colon; and in both cases an
    optional colon and decimal port. *)
Definition uri_host (host : string) : bool :=
  if strings.HasPrefix host "[" then
    let r := strings.drop 1 host in
    let j := strings.IndexByte r ":" in
    (0 <=? j) && urlparse.forallb_str urlparse.ishex (strings.slice_to r j)
  else
    let i := strings.IndexByte host ":" in
    (i <? 0) || url.allDigits (strings.slice_from host (i + 1)).

Section Families.
Context `{GoLib}.

(** The bucket of a line, if any: none when the URI does not parse or
    has no host. *)
Definition bucket (fam : string -> family) (l : string) : option family :=
  match url_Parse l with
  | Err _ => None
  | Ok u => if String.eqb (url.Host u) "" then None else Some (fam (url.Host u))
  end.

Definition in_bucket (fam : string -> family) (f : family) (l : string)
  : bool :=
  match bucket fam l with
  | Some g => family_eqb f g
  | None => false
  end.

End Families.

(** An item made from one of the first 1000 lines: its line is the
    trimmed text of the input line at its index. *)
Definition first_thousand (lines : list string) (it : item) : Prop :=
  0 <= idx it < 1000
  /\ exists raw, lines !! Z.to_nat (idx it) = Some raw
                 /\ line it = strings.TrimSpace raw.

Definition held (lines : list string) (w : worker) : Prop :=
  match w with
  | Got it | Dialed it => first_thousand lines it
  | Waiting | Exited => True
  end.

(** What holds of the pool all along. *)
Definition pool_inv (lines : list string) (p : pool) : Prop :=
  match feed p with Feeding i => 0 <= i | Closed => True end
  /\ Forall (held lines) (workers p)
  /\ Forall (fun r => exists it, first_thousand lines it /\ r = line it)
       (reachable p)
  /\ Forall (fun d => first_thousand lines (fst d)) (dials p).

(** The attempts and pauses of an execution, in order: the answer of
    each [os.Rename] and the duration of each [time.Sleep]. *)
Fixpoint schedule (tr : list event) : list (option string + Z) :=
  match tr with
  | [] => []
  | EvRename _ _ r :: tr' => inl r :: schedule tr'
  | EvSleep ns :: tr' => inr ns :: schedule tr'
  | _ :: tr' => schedule tr'
  end.

Fixpoint renames (tr : list event) : list (option string) :=
  match tr with
  | [] => []
  | EvRename _ _ r :: tr' => r :: renames tr'
  | _ :: tr' => renames tr'
  end.

(** The schedule that the answers [rs] call for, from attempt number
    [k] on: after each attempt but the last, a pause of 200ms times the
    number of the attempt. *)
Fixpoint plan (k : Z) (rs : list (option string)) : list (option string + Z) :=
  match rs with
  | [] => []
  | [a] => [inl a]
  | a :: rest => inl a :: inr (200 * k * Millisecond) :: plan (k + 1) rest
  end.

(** An attempt that is tried again: it failed, and the text of the error
    tells that the destination is in use. *)
Definition retried `{GoLib} (a : option string) : Prop :=
  exists msg, a = Some msg /\ busy msg = true.

(** The temporary file, once created, is removed last when the export
    fails. *)
Definition cleaned (tr : list event) (res : option error) : Prop :=
  match res, tr with
  | Some _, EvCreateTemp _ _ (OSOk tmpPath) :: _ =>
      exists r, last tr = Some (EvRemove tmpPath r)
  | _, _ => True
  end.




(** An execution of the export of the one line [a] to [out/normal]: the
    first two renames fail on a destination in use, the third goes
    through. *)
Definition retried_twice : list event :=
  let tmp := "out/normal.123.tmp" in
  [EvCreateTemp "out" "normal.*.tmp" (OSOk tmp);
   EvWriteString tmp "YQ==" None;
   EvFlush tmp None;
   EvClose tmp None;
   EvRemove "out/normal" None;
   EvRename tmp "out/normal"
     (Some "rename out/normal.123.tmp out/normal: Access is denied.");
   EvSleep 200000000;
   EvRemove "out/normal" (Some "remove out/normal: no such file");
   EvRename tmp "out/normal"
     (Some "The process cannot access the file because it is being used by another process.");
   EvSleep 400000000;
   EvRemove "out/normal" (Some "remove out/normal: no such file");
   EvRename tmp "out/normal" None].


(** A 6-bit value survives [encode1] and [decodeMap]. *)
Definition six (d : ascii) : Prop :=
  base64.decodeMap (base64.encode1 d) = Some d.

(** The new line, and the lines that have none. *)
Definition newline : string := String "010" "".

Definition newline_free (l : string) : Prop :=
  strings.IndexByte l "010" = -1.

(** The byte-wise order of Go strings. *)
Definition string_le (a b : string) : Prop := String.leb a b = true.

(** The file system with no file. *)
Definition no_files : fsys := {| files := ∅; buffered := ∅ |}.

(** What the round trip of the export reads back: the content of the
    destination decodes to a text whose split on new lines is [back]. *)
Definition reads_back (s : fsys) (path : string) (back : list string) : Prop :=
  exists content decoded,
    files s !! path = Some content
    /\ base64.DecodeString content = Ok decoded
    /\ strings.Split decoded newline = back.

(** An ASCII byte that is not white space: no part of the encoding of a
    white space character. *)
Definition plain (c : ascii) : bool :=
  negb (strings.asciiSpace c) && (N_of_ascii c <? 128)%N.

(** A line that [filterValidLines] keeps: not empty, and valid. *)
Definition accepted `{GoLib} (l : string) : bool :=
  negb (String.eqb l "")
  && match validateLine l with None => true | Some _ => false end.

(** The text of the report of a line skipped by [filterValidLines]. *)
Definition skipped (key : string) (i : Z) (e : error) : printed :=
  Fprintf ("!! %s: skip invalid line [%d]: %v" +:+ String "010" "")
    [Astr key; Aint i; Aerr e].

(** A line with nothing but white space. *)
Definition blank (raw : string) : bool := String.eqb (strings.TrimSpace raw) "".

(** The lines that a worker holds between the reception of an item and
    the end of its probe. *)
Definition carried (ws : list worker) : list string :=
  flat_map (fun w => match w with
                     | Got it | Dialed it => [line it]
                     | Waiting | Exited => []
                     end) ws.

(** The lines sent so far: the trimmed lines below the index of the
    feeder. *)
Definition sent (lines : list string) (f : feeder) : list string :=
  strings.TrimSpace
    <$> take (Z.to_nat match f with
                       | Feeding i => i
                       | Closed => limit lines
                       end) lines.

(** Every line in the result or in the hands of a worker was sent, once
    for each time it is there. *)
Definition pool_count (lines : list string) (p : pool) : Prop :=
  match feed p with Feeding i => 0 <= i <= limit lines | Closed => True end
  /\ reachable p ++ carried (workers p) ⊆+ sent lines (feed p).

(** A line that a worker dials: its endpoint is extracted, with a host
    and a port. *)
Definition dialable `{GoLib} (l : string) : bool :=
  match extractHostPort l with
  | Ok (host, port) => negb (String.eqb host "") && negb (port =? 0)
  | Err _ => false
  end.

(** A worker past its probe holds an item that was dialled, and so was
    every line of the result. *)
Definition pool_dialed `{GoLib} (p : pool) : Prop :=
  Forall (fun w => match w with
                   | Dialed it =>
                       exists addr, target it = Some addr /\ (it, addr) ∈ dials p
                   | _ => True
                   end) (workers p)
  /\ Forall (fun r => exists it addr,
               r = line it /\ target it = Some addr /\ (it, addr) ∈ dials p)
       (reachable p).

(** The index up to which the feeder has gone through the lines. *)
Definition fed (lines : list string) (f : feeder) : Z :=
  match f with
  | Feeding i => i
  | Closed => limit lines
  end.

(** Every line that the feeder has sent is in the hands of a worker
    that has not probed it yet, or was skipped for want of an endpoint,
    or was dialled; and a worker exits only once the channel is
    closed. *)
Definition pool_served `{GoLib} (lines : list string) (p : pool) : Prop :=
  workers p <> []
  /\ (forall w, workers p !! w = Some Exited -> feed p = Closed)
  /\ forall i raw,
       0 <= i < fed lines (feed p) ->
       lines !! Z.to_nat i = Some raw ->
       strings.TrimSpace raw <> "" ->
       let it := Build_item i (strings.TrimSpace raw) in
       (exists w, workers p !! w = Some (Got it))
       \/ target it = None
       \/ exists addr, target it = Some addr /\ (it, addr) ∈ dials p.

(** The time spent in [time.Sleep] during an execution. *)
Fixpoint slept (tr : list event) : Z :=
  match tr with
  | [] => 0
  | EvSleep ns :: tr' => ns + slept tr'
  | _ :: tr' => slept tr'
  end.

(** The pauses of a schedule. *)
Fixpoint pauses (sch : list (option string + Z)) : Z :=
  match sch with
  | [] => 0
  | inr ns :: sch' => ns + pauses sch'
  | inl _ :: sch' => pauses sch'
  end.

(** The text that [writeBase64Atomic] writes for a list of lines. *)
Definition encoded (lines : list string) : string :=
  base64.EncodeToString (strings.Join lines newline).

(** The files of a state in the middle of an export to [path] of the
    text [data], started on the files [F]: the temporary file is gone,
    or it holds [data] beside files that a rename turns into the files
    aimed at. *)
Definition staged (F : gmap string string) (path tmpPath data : string)
  (s : fsys) : Prop :=
  files s !! tmpPath = None
  \/ exists G, files s = <[tmpPath := data]> G /\ G !! tmpPath = None
               /\ <[path := data]> G = <[path := data]> F.

(** The files of [F] other than [path] are in [s] as they are in [F]. *)
Definition others_kept (F : gmap string string) (path : string) (s : fsys)
  : Prop :=
  forall q c, q <> path -> F !! q = Some c -> files s !! q = Some c.

(** The file [path] of [F], if any, is in [s] as it is in [F], or is not
    in [s]. *)
Definition old_or_gone (F : gmap string string) (path : string) (s : fsys)
  : Prop :=
  forall old, F !! path = Some old ->
              files s !! path = Some old \/ files s !! path = None.

(** A character of a base64 text: of the alphabet, or the padding. *)
Definition b64char (c : ascii) : bool :=
  match base64.decodeMap c with
  | Some _ => true
  | None => Ascii.eqb c "="
  end.

(** A decoded subscription names one of the schemes. *)
Definition marked `{GoLib} (dec : string) : bool :=
  let l := strings_ToLower dec in
  strings.Contains l "vless://" || strings.Contains l "vmess://"
  || strings.Contains l "ss://".

(** [s] with each byte replaced by its image. *)
Fixpoint strmap (f : ascii -> ascii) (s : string) : string :=
  match s with
  | EmptyString => ""
  | String c r => String (f c) (strmap f r)
  end.

(** [s] without its bytes [c]. *)
Fixpoint without (c : ascii) (s : string) : string :=
  match s with
  | EmptyString => ""
  | String a r => if Ascii.eqb a c then without c r else String a (without c r)
  end.

(** The URL-safe alphabet: [-] for [+] and [_] for [/]. *)
Definition urlsafe1 (c : ascii) : ascii :=
  if Ascii.eqb c "+" then "-"%char
  else if Ascii.eqb c "/" then "_"%char else c.

(** The four encodings of [encoding/base64]: [StdEncoding],
    [RawStdEncoding], [URLEncoding] and [RawURLEncoding]. *)
Definition encodeWith (urlsafe pad : bool) (src : string) : string :=
  let e := base64.EncodeToString src in
  let e := if pad then e else without "=" e in
  if urlsafe then strmap urlsafe1 e else e.

(** [b64] with its padding restored, as [decodeVmessBase64] does. *)
Definition padded (b64 : string) : string :=
  let m := strings.len b64 mod 4 in
  if negb (m =? 0) then b64 +:+ strings.Repeat "=" (4 - m) else b64.

(** A byte that may stand in a file name. *)
Definition safeName (c : ascii) : bool :=
  negb (invalidName c) && negb (Ascii.eqb c "/").

(** A line that [splitByIPVersion] puts in a bucket: its URI parses and
    has a host. *)
Definition hosted `{GoLib} (l : string) : bool :=
  match url_Parse l with
  | Ok u => negb (String.eqb (url.Host u) "")
  | Err _ => false
  end.

(** Bytes other than the colon. *)
Definition no_colon (c : ascii) : bool := negb (Ascii.eqb c ":").

(** The bytes of a scheme written in lower case: a letter from a to z, a
    digit, or one of [+], [-] and [.]. *)
Definition lowerScheme (c : ascii) : bool :=
  let n := N_of_ascii c in
  ((97 <=? n) && (n <=? 122) || (48 <=? n) && (n <=? 57)
   || (n =? 43) || (n =? 45) || (n =? 46))%N.

(** A text of ASCII bytes. *)
Definition ascii_text (s : string) : bool :=
  all_bytes (fun c => (N_of_ascii c <? 128)%N) s.

(** What the intake needs of [strings.ToLower]: a text of ASCII bytes is
    lower-cased byte by byte, and so is an ASCII prefix of any text, the
    rest being lower-cased on its own.  ([strings.ToLower] maps a text
    rune by rune, and an ASCII byte is a rune.) *)
Definition ToLower_ascii `{GoLib} : Prop :=
  (forall p, ascii_text p = true -> strings_ToLower p = urlparse.lowerASCII p)
  /\ (forall p s, ascii_text p = true ->
        strings_ToLower (p +:+ s)
        = urlparse.lowerASCII p +:+ strings_ToLower s).

(** A line that the intake takes as it is: no surrounding white space,
    no new line, shorter than the buffer of the scanner, and of the
    form [sch://rest] for a scheme [sch] of [allowed] written in lower
    case and a [rest] without [://]. *)
Definition uri_line (allowed : gset string) (l : string) : Prop :=
  strings.TrimSpace l = l /\ newline_free l
  /\ strings.len l < 10 * 1024 * 1024
  /\ exists sch rest,
       l = sch +:+ "://" +:+ rest /\ sch ∈ allowed
       /\ all_bytes lowerScheme sch = true
       /\ strings.Contains rest "://" = false.

(** * Properties *)

(** ** The library models on examples *)

Example TrimSpace_example :
  strings.TrimSpace (String "009" " a b " +:+ String "010" "") = "a b".
Proof. reflexivity. Qed.

(** U+00A0 and U+3000 are white space, U+200B is not. *)
Example TrimSpace_unicode :
  strings.TrimSpace
    (String "194" (String "160" "x"
       +:+ String "227" (String "128" (String "128" ""))))
  = "x"
  /\ strings.TrimSpace (String "226" (String "128" (String "139" "")))
     = String "226" (String "128" (String "139" "")).
Proof. split; reflexivity. Qed.

Example Split_example :
  strings.Split "a:b::c" ":" = ["a"; "b"; ""; "c"]
  /\ strings.Split "" ":" = [""]
  /\ strings.SplitN "a:b:c" ":" 2 = ["a"; "b:c"]
  /\ strings.SplitN "abc" ":" 2 = ["abc"].
Proof. repeat split; reflexivity. Qed.

Example Atoi_example :
  strconv.Atoi "443" = Ok 443 /\ strconv.Atoi "-7" = Ok (-7)
  /\ strconv.Atoi "+7" = Ok 7
  /\ is_err (strconv.Atoi "") = true /\ is_err (strconv.Atoi "4 43") = true
  /\ is_err (strconv.Atoi "443.0") = true
  /\ strconv.Atoi "9223372036854775807" = Ok 9223372036854775807
  /\ is_err (strconv.Atoi "9223372036854775808") = true.
Proof. repeat split; reflexivity. Qed.

Example base64_example :
  base64.EncodeToString "Man" = "TWFu"
  /\ base64.EncodeToString "Ma" = "TWE="
  /\ base64.EncodeToString "M" = "TQ=="
  /\ base64.DecodeString "TWE=" = Ok "Ma"
  /\ base64.DecodeString ("TW" +:+ String "010" "E=" +:+ String "013" "")
     = Ok "Ma"
  /\ is_err (base64.DecodeString "TWE") = true
  /\ is_err (base64.DecodeString "TWE=x") = true
  /\ is_err (base64.DecodeString "T-E=") = true.
Proof. repeat split; reflexivity. Qed.

Example sort_example :
  sort.Strings ["b"; "a"; "B"; "ab"; ""] = [""; "B"; "a"; "ab"; "b"].
Proof. reflexivity. Qed.

Example url_example :
  match url_Parse "vless://id@[2001:db8::1]:443?type=tcp#name" with
  | Ok u => (url.Host u, url.Hostname u, url.Port u,
             url.Username (url.User u))
  | Err _ => ("", "", "", "")
  end = ("[2001:db8::1]:443", "2001:db8::1", "443", "id").
Proof. vm_compute. reflexivity. Qed.

(** ** Strings *)

Lemma app_nil_l s : "" +:+ s = s.
Proof. reflexivity. Qed.

Lemma app_cons c s t : String c s +:+ t = String c (s +:+ t).
Proof. reflexivity. Qed.

Ltac sapp := repeat (rewrite app_cons || rewrite app_nil_l).

Lemma app_String_assoc cur c r :
  (cur +:+ String c "") +:+ r = cur +:+ String c r.
Proof. induction cur; sapp; congruence. Qed.

Lemma app_empty_r s : s +:+ "" = s.
Proof. induction s; sapp; congruence. Qed.

Lemma prefix_cons c p a r :
  String.prefix (String c p) (String a r) = Ascii.eqb a c && String.prefix p r.
Proof.
  cbn [String.prefix]. destruct (ascii_dec c a) as [->|Hne].
  - now rewrite Ascii.eqb_refl.
  - symmetry. apply andb_false_iff. left. apply Ascii.eqb_neq. congruence.
Qed.

Lemma prefix_nil s : String.prefix "" s = true.
Proof. destruct s; reflexivity. Qed.

Lemma prefix1 c a r :
  String.prefix (String c "") (String a r) = Ascii.eqb a c.
Proof. now rewrite prefix_cons, prefix_nil, andb_true_r. Qed.

Lemma IndexByte_ge s c : -1 <= strings.IndexByte s c.
Proof.
  induction s as [|a r IH]; simpl; [lia|].
  destruct (Ascii.eqb a c); [lia|].
  destruct (strings.IndexByte r c <? 0) eqn:E; lia.
Qed.

Lemma Index_byte s c : strings.Index s (String c "") = strings.IndexByte s c.
Proof.
  induction s as [|a r IH].
  - reflexivity.
  - cbn [strings.Index strings.IndexByte]. rewrite prefix1, IH.
    destruct (Ascii.eqb a c); reflexivity.
Qed.

Lemma Contains_byte s c :
  strings.Contains s (String c "") = (0 <=? strings.IndexByte s c).
Proof. unfold strings.Contains. now rewrite Index_byte. Qed.

Lemma slice_to_cons a r i :
  0 <= i ->
  strings.slice_to (String a r) (i + 1) = String a (strings.slice_to r i).
Proof.
  intros Hi. unfold strings.slice_to.
  replace (Z.to_nat (i + 1)) with (S (Z.to_nat i)) by lia. reflexivity.
Qed.

Lemma slice_from_cons a r i :
  0 <= i -> strings.slice_from (String a r) (i + 1) = strings.slice_from r i.
Proof.
  intros Hi. unfold strings.slice_from.
  replace (Z.to_nat (i + 1)) with (S (Z.to_nat i)) by lia. reflexivity.
Qed.

(** One cut, at the first [c]. *)
Lemma split_go_one c s : forall cur,
  strings.split_go (String c "") 1 0 cur s =
  let i := strings.IndexByte s c in
  if 0 <=? i then [cur +:+ strings.slice_to s i; strings.slice_from s (i + 1)]
  else [cur +:+ s].
Proof.
  induction s as [|a r IH]; intros cur.
  - simpl. now rewrite app_empty_r.
  - cbn [strings.split_go strings.IndexByte]. rewrite prefix1.
    destruct (Ascii.eqb a c) eqn:E.
    + simpl. rewrite app_empty_r. destruct r; reflexivity.
    + rewrite IH. cbv zeta.
      pose proof (IndexByte_ge r c).
      destruct (Z.ltb_spec (strings.IndexByte r c) 0).
      * assert (strings.IndexByte r c = -1) as -> by lia. simpl.
        now rewrite app_String_assoc.
      * destruct (Z.leb_spec 0 (strings.IndexByte r c)); [|lia].
        destruct (Z.leb_spec 0 (strings.IndexByte r c + 1)); [|lia].
        rewrite slice_to_cons, slice_from_cons by lia.
        now rewrite app_String_assoc.
Qed.

Lemma SplitN_2 s c :
  strings.SplitN s (String c "") 2 =
  let i := strings.IndexByte s c in
  if 0 <=? i then [strings.slice_to s i; strings.slice_from s (i + 1)]
  else [s].
Proof. unfold strings.SplitN. simpl. now rewrite split_go_one. Qed.

Lemma SplitN_2_hd s c : hd "" (strings.SplitN s (String c "") 2) = before c s.
Proof.
  rewrite SplitN_2. unfold before. cbv zeta.
  destruct (0 <=? strings.IndexByte s c); reflexivity.
Qed.

Lemma SplitN_2_length s c :
  (Z.of_nat (length (strings.SplitN s (String c "") 2)) =? 2)
  = strings.Contains s (String c "").
Proof.
  rewrite SplitN_2, Contains_byte. cbv zeta.
  destruct (0 <=? strings.IndexByte s c); reflexivity.
Qed.

(** ** The lite tail *)

(** C7. For every list of lines and every integer [n],
    [buildLiteTail lines n] is the end of [lines] (its elements in
    their input order, nothing sorted), it has
    [min (n, len lines)] elements, where a non-positive [n] counts as
    100, and a non-positive [n] gives what [n = 100] gives. *)
Theorem buildLiteTail_last (lines : list string) (n : Z) :
  (exists front, lines = front ++ buildLiteTail lines n)
  /\ Z.of_nat (length (buildLiteTail lines n))
     = Z.min (tailSize n) (Z.of_nat (length lines))
  /\ buildLiteTail lines n = buildLiteTail lines (tailSize n).
Proof.
  unfold buildLiteTail, tailSize.
  split; [|split].
  - eexists. symmetry. apply take_drop.
  - rewrite length_drop.
    destruct (n <=? 0) eqn:Hn;
      destruct (Z.of_nat (length lines) <? _) eqn:Hl; lia.
  - destruct (n <=? 0) eqn:Hn; [reflexivity|].
    rewrite Hn. reflexivity.
Qed.

(** 150 lines, named by their index: the tail of size 100, and the
    tail asked with size 0. *)
Example buildLiteTail_150 :
  let lines := Itoa <$> seqZ 0 150 in
  buildLiteTail lines 100 = Itoa <$> seqZ 50 100
  /\ buildLiteTail lines 0 = Itoa <$> seqZ 50 100.
Proof. vm_compute. split; reflexivity. Qed.

(** ** Shadowsocks user information *)

Lemma decodeSSUserInfo_method (user : string) :
  decodeSSUserInfo user = Ok (ssMethod user).
Proof.
  unfold decodeSSUserInfo, ssMethod.
  destruct (base64.DecodeString user) as [dec|e].
  - rewrite SplitN_2_length, !SplitN_2_hd.
    destruct (strings.Contains dec ":"); reflexivity.
  - now rewrite SplitN_2_hd.
Qed.

(** C9. [decodeSSUserInfo] returns a method and no error for every user
    information: the decoded text before its first colon when the user
    information is standard base64 and the decoded text has a colon,
    and otherwise the user information before its first colon (all of
    it when it has none). *)
Theorem decodeSSUserInfo_total (user : string) :
  decodeSSUserInfo user = Ok (ssMethod user).
Proof. apply decodeSSUserInfo_method. Qed.

(** ** The vmess port *)

Section VmessFacts.
Context `{GoLib}.

Lemma extractPortFromJSON_coerces v p :
  extractPortFromJSON v = Ok p <-> coerces v p.
Proof.
  split.
  - destruct v; simpl; try discriminate.
    + intros [= <-]. constructor.
    + intros [= <-]. constructor.
    + destruct (String.eqb s "") eqn:E; [discriminate|].
      destruct (strconv.Atoi s) as [q|e] eqn:Ha; [|discriminate].
      intros [= <-]. now constructor.
  - intros [s q Ha| |]; simpl; try reflexivity.
    destruct (String.eqb s "") eqn:E.
    + apply String.eqb_eq in E. subst s. discriminate.
    + now rewrite Ha.
Qed.

Lemma validateVmess_conditions line :
  validateVmess line = None <-> vmess_conditions nonblank line.
Proof.
  unfold validateVmess, vmess_conditions, nonblank. split.
  - destruct (String.eqb (vmessPayload line) "") eqn:Ep; [discriminate|].
    destruct (decodeVmessBase64 (vmessPayload line)) as [payload|e];
      [|discriminate].
    destruct (json_Unmarshal payload) as [m|e] eqn:Hj; [|discriminate].
    destruct (String.eqb (strings.TrimSpace (assert_string (index m "add"))) "")
      eqn:Ea; [discriminate|].
    destruct (extractPortFromJSON (index m "port")) as [p|e] eqn:Hp;
      [|discriminate].
    destruct ((p <=? 0) || (99999 <? p)) eqn:Hr; [discriminate|].
    destruct (String.eqb (strings.TrimSpace (assert_string (index m "id"))) "")
      eqn:Ei; [discriminate|].
    intros _.
    apply String.eqb_neq in Ea, Ei.
    destruct (index m "add") as [| | | |host| |] eqn:Hadd;
      try (exfalso; apply Ea; reflexivity).
    destruct (index m "id") as [| | | |id| |] eqn:Hid;
      try (exfalso; apply Ei; reflexivity).
    exists payload, m, host, p, id.
    apply extractPortFromJSON_coerces in Hp.
    apply orb_false_iff in Hr as [H1 H2].
    apply Z.leb_gt in H1. apply Z.ltb_ge in H2.
    repeat split; try reflexivity; try assumption; try lia.
  - intros (payload & m & host & p & id & Hd & Hj & Ha & Hh & Hp & Hr & Hi & Hn).
    destruct (String.eqb (vmessPayload line) "") eqn:Ep.
    + apply String.eqb_eq in Ep. rewrite Ep in Hd. discriminate.
    + rewrite Hd, Hj, Ha, Hi. simpl.
      apply String.eqb_neq in Hh, Hn. rewrite Hh, Hn.
      apply extractPortFromJSON_coerces in Hp. rewrite Hp.
      replace ((p <=? 0) || (99999 <? p)) with false; [reflexivity|].
      symmetry. apply orb_false_iff.
      split; [apply Z.leb_gt | apply Z.ltb_ge]; lia.
Qed.

End VmessFacts.

Lemma float64_trunc_quot s m e :
  float64_trunc (S754_finite s m e)
  = Some (if 0 <=? e then signed s m * 2 ^ e
          else Z.quot (signed s m) (2 ^ (- e))).
Proof.
  unfold float64_trunc, signed. f_equal.
  destruct (0 <=? e) eqn:He.
  - destruct s; [|reflexivity]. rewrite <- Pos2Z.opp_pos. ring.
  - assert (0 < 2 ^ (- e)) by (apply Z.pow_pos_nonneg; lia).
    destruct s.
    + rewrite <- Pos2Z.opp_pos, Z.quot_opp_l by lia.
      rewrite Z.quot_div_nonneg by lia. reflexivity.
    + rewrite Z.quot_div_nonneg by lia. reflexivity.
Qed.

(** Two vmess lines whose payloads are the base64 of
    [{"add":"1.2.3.4","port":443,"id":"u"}] and of the same text with the
    port written as the string ["443"]. *)
Example vmess_int_port_payload :
  base64.DecodeString "eyJhZGQiOiIxLjIuMy40IiwicG9ydCI6NDQzLCJpZCI6InUifQ=="
  = Ok (quoted "{'add':'1.2.3.4','port':443,'id':'u'}").
Proof. vm_compute. reflexivity. Qed.

Example vmess_string_port_payload :
  base64.DecodeString "eyJhZGQiOiIxLjIuMy40IiwicG9ydCI6IjQ0MyIsImlkIjoidSJ9"
  = Ok (quoted "{'add':'1.2.3.4','port':'443','id':'u'}").
Proof. vm_compute. reflexivity. Qed.

(** C4, as the code has it.  A vmess line is accepted exactly when its
    payload (the text after [vmess://], cut at an optional [#] fragment
    and trimmed) base64-decodes, after the URL-safe and padding
    normalisation, to JSON whose [add] is a string that is not empty
    once white space is trimmed, whose [port] is a string, an integer or
    a floating value that coerces to an integer [p] with
    [0 < p <= 99999], and whose [id] is a string that is not empty once
    white space is trimmed.  The port ["443"] gives the number that the
    port [443] gives, and the two lines above are accepted with the same
    endpoint. *)
Theorem validateVmess_accepts_exactly :
  (forall (L : GoLib) (line : string),
     validateVmess line = None <-> vmess_conditions nonblank line)
  /\ (forall (L : GoLib),
        extractPortFromJSON (AnyString "443") = Ok 443
        /\ extractPortFromJSON (AnyInt 443) = Ok 443
        /\ extractPortFromJSON
             (AnyFloat64 (jsondec.float64_of_decimal false 443 0)) = Ok 443)
  /\ (let a := "vmess://eyJhZGQiOiIxLjIuMy40IiwicG9ydCI6NDQzLCJpZCI6InUifQ==" in
      let b := "vmess://eyJhZGQiOiIxLjIuMy40IiwicG9ydCI6IjQ0MyIsImlkIjoidSJ9" in
      validateLine a = None /\ validateLine b = None
      /\ extractHostPort a = Ok ("1.2.3.4", 443)
      /\ extractHostPort b = Ok ("1.2.3.4", 443)).
Proof.
  split; [|split].
  - intros L line. apply validateVmess_conditions.
  - intros L. repeat split; reflexivity.
  - cbv zeta. repeat split; vm_compute; reflexivity.
Qed.

(** C4, as stated, fails: the payload below is the base64 of
    [{"add":" ","port":443,"id":"u"}], whose [add] is a non-empty string,
    and the line is rejected. *)
Lemma vmess_blank_add_rejected :
  ~ (forall line : string,
       validateVmess line = None <-> vmess_conditions nonempty line).
Proof.
  intros Hc.
  destruct (Hc "vmess://eyJhZGQiOiIgIiwicG9ydCI6NDQzLCJpZCI6InUifQ==")
    as [_ Hback].
  assert (Hacc : validateVmess
            "vmess://eyJhZGQiOiIgIiwicG9ydCI6NDQzLCJpZCI6InUifQ==" = None).
  { apply Hback.
    pose (payload := quoted "{'add':' ','port':443,'id':'u'}").
    assert (Hfields :
      match json_Unmarshal payload with
      | Ok m => (index m "add", extractPortFromJSON (index m "port"),
                 index m "id")
      | Err _ => (AnyNil, Ok 0, AnyNil)
      end = (AnyString " ", Ok 443, AnyString "u"))
      by (vm_compute; reflexivity).
    destruct (json_Unmarshal payload) as [m|e] eqn:Hj;
      [|discriminate Hfields].
    injection Hfields as Hadd Hport Hid.
    exists payload, m, " ", 443, "u".
    split; [vm_compute; reflexivity|].
    split; [exact Hj|].
    split; [exact Hadd|].
    split; [discriminate|].
    split; [apply extractPortFromJSON_coerces; exact Hport|].
    split; [lia|].
    split; [exact Hid|discriminate]. }
  vm_compute in Hacc. discriminate.
Qed.

(** The payload of the line used below is the base64 of
    [{"add":"1.2.3.4","port":443.9,"id":"u"}]. *)
Example vmess_float_port_payload :
  base64.DecodeString "eyJhZGQiOiIxLjIuMy40IiwicG9ydCI6NDQzLjksImlkIjoidSJ9"
  = Ok (quoted "{'add':'1.2.3.4','port':443.9,'id':'u'}").
Proof. vm_compute. reflexivity. Qed.

Lemma float64_trunc_toward_zero s m e :
  float64_trunc (S754_finite s m e) = Some (toward_zero s m e).
Proof.
  rewrite float64_trunc_quot. unfold toward_zero. f_equal.
  destruct (Z.leb_spec 0 e).
  - rewrite Z.max_l, Z.max_r by lia. now rewrite Z.pow_0_r, Z.quot_1_r.
  - rewrite Z.max_r, Z.max_l by lia. now rewrite Z.pow_0_r, Z.mul_1_r.
Qed.

(** [toward_zero] has the sign of the value and its magnitude is the
    largest integer that does not exceed the magnitude of the value. *)
Lemma toward_zero_bounds s m e :
  let z := toward_zero s m e in
  (if s then z <= 0 else 0 <= z)
  /\ Z.abs z * 2 ^ Z.max (- e) 0 <= Z.pos m * 2 ^ Z.max e 0
     < (Z.abs z + 1) * 2 ^ Z.max (- e) 0.
Proof.
  cbv zeta. unfold toward_zero.
  set (n := Z.pos m * 2 ^ Z.max e 0). set (d := 2 ^ Z.max (- e) 0).
  assert (Hd : 0 < d) by (apply Z.pow_pos_nonneg; lia).
  assert (Hn : 0 <= n).
  { apply Z.mul_nonneg_nonneg; [lia|]. apply Z.pow_nonneg. lia. }
  assert (Hs : signed s m * 2 ^ Z.max e 0 = if s then - n else n).
  { unfold signed, n. destruct s; [|reflexivity].
    rewrite <- Pos2Z.opp_pos. ring. }
  rewrite Hs.
  assert (Hq : 0 <= n / d) by (apply Z.div_pos; lia).
  assert (Hlo : n / d * d <= n) by (rewrite Z.mul_comm; apply Z.mul_div_le; lia).
  assert (Hhi : n < (n / d + 1) * d).
  { rewrite Z.mul_comm. replace (n / d + 1) with (Z.succ (n / d)) by lia.
    apply Z.mul_succ_div_gt. lia. }
  destruct s.
  - rewrite Z.quot_opp_l by lia. rewrite Z.quot_div_nonneg by lia.
    split; [lia|]. rewrite Z.abs_opp, Z.abs_eq by lia. lia.
  - rewrite Z.quot_div_nonneg by lia.
    split; [lia|]. rewrite Z.abs_eq by lia. lia.
Qed.

Lemma extractPortFromJSON_finite `{GoLib} s m e :
  - 2 ^ 63 <= toward_zero s m e <= 2 ^ 63 - 1 ->
  extractPortFromJSON (AnyFloat64 (S754_finite s m e))
  = Ok (toward_zero s m e).
Proof.
  intros [Hlo Hhi]. cbn [extractPortFromJSON]. unfold int_of_float64.
  rewrite float64_trunc_toward_zero.
  apply Z.leb_le in Hlo, Hhi. now rewrite Hlo, Hhi.
Qed.

(** C10.  A port given as a JSON number is converted with [int( )] and
    nothing else.  [extractPortFromJSON] returns an integer and no error
    for every [float64]; for a finite value whose integer part fits
    [int], the integer is the value rounded toward zero: it has the sign
    of the value, and its magnitude is the largest integer that does not
    exceed the magnitude of the value; a zero gives 0.  So [443.9] gives
    443, [-443.9] gives -443 and [-0.9] gives 0, and the vmess line
    whose port is [443.9] is accepted, with port 443. *)
Theorem extractPortFromJSON_float_truncates :
  (forall (L : GoLib) (f : float64),
     exists p, extractPortFromJSON (AnyFloat64 f) = Ok p)
  /\ (forall (L : GoLib) (s : bool) (m : positive) (e : Z),
        - 2 ^ 63 <= toward_zero s m e <= 2 ^ 63 - 1 ->
        extractPortFromJSON (AnyFloat64 (S754_finite s m e))
        = Ok (toward_zero s m e))
  /\ (forall (s : bool) (m : positive) (e : Z),
        let z := toward_zero s m e in
        (if s then z <= 0 else 0 <= z)
        /\ Z.abs z * 2 ^ Z.max (- e) 0 <= Z.pos m * 2 ^ Z.max e 0
           < (Z.abs z + 1) * 2 ^ Z.max (- e) 0)
  /\ (forall (L : GoLib) (s : bool),
        extractPortFromJSON (AnyFloat64 (S754_zero s)) = Ok 0)
  /\ (forall L : GoLib,
        extractPortFromJSON
          (AnyFloat64 (jsondec.float64_of_decimal false 4439 (-1))) = Ok 443
        /\ extractPortFromJSON
             (AnyFloat64 (jsondec.float64_of_decimal true 4439 (-1)))
           = Ok (-443)
        /\ extractPortFromJSON
             (AnyFloat64 (jsondec.float64_of_decimal true 9 (-1))) = Ok 0)
  /\ (let l := "vmess://eyJhZGQiOiIxLjIuMy40IiwicG9ydCI6NDQzLjksImlkIjoidSJ9" in
      validateLine l = None /\ extractHostPort l = Ok ("1.2.3.4", 443)).
Proof.
  split; [|split; [|split; [|split; [|split]]]].
  - intros L f. eexists. reflexivity.
  - intros L s m e. apply extractPortFromJSON_finite.
  - apply toward_zero_bounds.
  - reflexivity.
  - intros L. repeat split; vm_compute; reflexivity.
  - cbv zeta. split; vm_compute; reflexivity.
Qed.

(** The value [-443.9]: the nearest [float64] is
    [-7809171385116262 * 2^-44]. *)
Lemma extractPortFromJSON_float_truncates_witness :
  jsondec.float64_of_decimal true 4439 (-1)
  = S754_finite true 7809171385116262 (-44)
  /\ toward_zero true 7809171385116262 (-44) = -443
  /\ extractPortFromJSON (AnyFloat64 (S754_finite true 7809171385116262 (-44)))
     = Ok (toward_zero true 7809171385116262 (-44)).
Proof.
  split; [vm_compute; reflexivity|]. split; [vm_compute; reflexivity|].
  apply (proj1 (proj2 extractPortFromJSON_float_truncates) golib).
  vm_compute. split; discriminate.
Defined.

(** ** Validation and endpoint extraction *)

Lemma HasPrefix_vmess_only l :
  strings.HasPrefix l "vmess://" = true ->
  strings.HasPrefix l "vless://" = false
  /\ strings.HasPrefix l "trojan://" = false
  /\ strings.HasPrefix l "ss://" = false.
Proof.
  unfold strings.HasPrefix.
  destruct l as [|a [|b r]]; [discriminate| |].
  { rewrite prefix_cons. cbn [String.prefix]. rewrite andb_false_r.
    discriminate. }
  rewrite !prefix_cons.
  destruct (Ascii.eqb_spec a "v") as [->|]; [|discriminate].
  destruct (Ascii.eqb_spec b "m") as [->|]; [|discriminate].
  intros _. repeat split; reflexivity.
Qed.

Section Endpoint.
Context `{GoLib}.

Ltac settle H Hb :=
  exfalso;
  repeat match type of H with
         | (if ?c then _ else _) = _ => destruct c
         end;
  try (injection H as <-; discriminate Hb); try discriminate H.

Ltac url_endpoint H Hb :=
  destruct (url_Parse _) as [u|pe]; [|eauto];
  destruct (String.eqb (url.Hostname u) "") eqn:Eh; [simpl; eauto|];
  unfold parsePort in H;
  destruct (String.eqb (url.Port u) "") eqn:Ep; [simpl; eauto|]; simpl;
  destruct (strconv.Atoi (url.Port u)) as [p|ae]; [|eauto].

Lemma validateVless_endpoint l e :
  validateVless l = Some e -> beyond_endpoint e = false ->
  exists e',
    match url_Parse l with
    | Err perr => Err perr
    | Ok u =>
        if String.eqb (url.Hostname u) "" || String.eqb (url.Port u) ""
        then Err (errorString "missing host or port")
        else match strconv.Atoi (url.Port u) with
             | Err perr => Err perr
             | Ok p => Ok (url.Hostname u, p)
             end
    end = Err e'.
Proof.
  unfold validateVless. intros Hv Hb.
  url_endpoint Hv Hb. settle Hv Hb.
Qed.

Lemma validateTrojan_endpoint l e :
  validateTrojan l = Some e -> beyond_endpoint e = false ->
  exists e',
    match url_Parse l with
    | Err perr => Err perr
    | Ok u =>
        if String.eqb (url.Hostname u) "" || String.eqb (url.Port u) ""
        then Err (errorString "missing host or port")
        else match strconv.Atoi (url.Port u) with
             | Err perr => Err perr
             | Ok p => Ok (url.Hostname u, p)
             end
    end = Err e'.
Proof.
  unfold validateTrojan. intros Hv Hb.
  url_endpoint Hv Hb. settle Hv Hb.
Qed.

Lemma validateShadowsocks_endpoint l e :
  validateShadowsocks l = Some e -> beyond_endpoint e = false ->
  exists e',
    match url_Parse l with
    | Err perr => Err perr
    | Ok u =>
        if String.eqb (url.Hostname u) "" || String.eqb (url.Port u) ""
        then Err (errorString "missing host or port")
        else match strconv.Atoi (url.Port u) with
             | Err perr => Err perr
             | Ok p => Ok (url.Hostname u, p)
             end
    end = Err e'.
Proof.
  unfold validateShadowsocks. intros Hv Hb.
  url_endpoint Hv Hb.
  rewrite decodeSSUserInfo_method in Hv. settle Hv Hb.
Qed.

Lemma validateVmess_endpoint l e :
  validateVmess l = Some e -> beyond_endpoint e = false ->
  exists e',
    (if String.eqb (vmessPayload l) "" then
       Err (errorString "empty vmess payload")
     else
       match decodeVmessBase64 (vmessPayload l) with
       | Err err => Err err
       | Ok payload =>
           match json_Unmarshal payload with
           | Err err => Err err
           | Ok m =>
               if String.eqb
                    (strings.TrimSpace (assert_string (index m "add"))) ""
               then Err (errorString "vmess missing add")
               else match extractPortFromJSON (index m "port") with
                    | Err err => Err err
                    | Ok p => Ok (assert_string (index m "add"), p)
                    end
           end
       end) = Err e'.
Proof.
  unfold validateVmess. intros Hv Hb.
  destruct (String.eqb (vmessPayload l) ""); [eauto|].
  destruct (decodeVmessBase64 (vmessPayload l)) as [payload|de]; [|eauto].
  destruct (json_Unmarshal payload) as [m|je]; [|eauto].
  destruct (String.eqb (strings.TrimSpace (assert_string (index m "add"))) "");
    [eauto|].
  destruct (extractPortFromJSON (index m "port")) as [p|pe]; [|eauto].
  settle Hv Hb.
Qed.

Lemma extractHostPort_fails line e :
  validateLine (strings.TrimSpace line) = Some e ->
  beyond_endpoint e = false ->
  exists e', extractHostPort line = Err e'.
Proof.
  unfold validateLine, extractHostPort. cbv zeta.
  set (l := strings.TrimSpace line). intros Hv Hb.
  destruct (strings.HasPrefix l "vmess://") eqn:Evm.
  - destruct (HasPrefix_vmess_only l Evm) as (-> & -> & ->). simpl.
    now apply validateVmess_endpoint with e.
  - destruct (strings.HasPrefix l "vless://") eqn:Evl.
    { simpl. now apply validateVless_endpoint with e. }
    destruct (strings.HasPrefix l "trojan://") eqn:Etr.
    { simpl. now apply validateTrojan_endpoint with e. }
    destruct (strings.HasPrefix l "ss://") eqn:Ess.
    { simpl. now apply validateShadowsocks_endpoint with e. }
    simpl. eauto.
Qed.

End Endpoint.

Section EndpointConverse.
Context `{GoLib}.

(** [extractHostPort] fails only where validation does, at a check they
    share. *)
Lemma extractHostPort_fails_only line e' :
  extractHostPort line = Err e' ->
  exists e, validateLine (strings.TrimSpace line) = Some e
            /\ beyond_endpoint e = false.
Proof.
  unfold validateLine, extractHostPort. cbv zeta.
  set (l := strings.TrimSpace line).
  destruct (strings.HasPrefix l "vmess://") eqn:Evm.
  - destruct (HasPrefix_vmess_only l Evm) as (-> & -> & ->). cbn [orb].
    unfold validateVmess.
    destruct (String.eqb (vmessPayload l) ""); [eauto|].
    destruct (decodeVmessBase64 (vmessPayload l)) as [payload|de]; [|eauto].
    destruct (json_Unmarshal payload) as [m|je]; [|eauto].
    destruct (String.eqb (strings.TrimSpace (assert_string (index m "add")))
                ""); [eauto|].
    destruct (extractPortFromJSON (index m "port")) as [p|pe]; [|eauto].
    discriminate.
  - assert (Hurl : forall v,
      match url_Parse l with
      | Err perr => Err perr
      | Ok u =>
          if String.eqb (url.Hostname u) "" || String.eqb (url.Port u) ""
          then Err (errorString "missing host or port")
          else match strconv.Atoi (url.Port u) with
               | Err perr => Err perr
               | Ok p => Ok (url.Hostname u, p)
               end
      end = Err e' ->
      (v = validateVless l \/ v = validateTrojan l
       \/ v = validateShadowsocks l) ->
      exists e, v = Some e /\ beyond_endpoint e = false).
    { intros v Hx Hv.
      unfold validateVless, validateTrojan, validateShadowsocks, parsePort
        in Hv.
      destruct (url_Parse l) as [u|pe];
        [|destruct Hv as [-> | [-> | ->]]; eauto].
      destruct (String.eqb (url.Hostname u) "");
        [destruct Hv as [-> | [-> | ->]]; eauto|].
      destruct (String.eqb (url.Port u) "");
        [destruct Hv as [-> | [-> | ->]]; eauto|].
      cbn [orb] in Hx.
      destruct (strconv.Atoi (url.Port u)) as [p|ae]; [discriminate|].
      destruct Hv as [-> | [-> | ->]]; eauto. }
    destruct (strings.HasPrefix l "vless://");
      [cbn [orb]; intros Hx; apply (Hurl _ Hx); auto|].
    destruct (strings.HasPrefix l "trojan://");
      [cbn [orb]; intros Hx; apply (Hurl _ Hx); auto|].
    destruct (strings.HasPrefix l "ss://");
      [cbn [orb]; intros Hx; apply (Hurl _ Hx); auto|].
    cbn [orb]. eauto.
Qed.

(** The endpoint is extracted from every line that validation accepts. *)
Lemma extractHostPort_of_valid line :
  validateLine (strings.TrimSpace line) = None ->
  exists host port, extractHostPort line = Ok (host, port).
Proof.
  intros Hv. destruct (extractHostPort line) as [[h p]|e'] eqn:He; [eauto|].
  apply extractHostPort_fails_only in He as (e & He & _). congruence.
Qed.

End EndpointConverse.

(** C1, as the code has it.  For every line, if validation of the
    trimmed line fails for a reason other than the range of the port or
    the absence of the user information, of the [id] or of the method,
    then [extractHostPort] fails on the line.  ([extractHostPort] trims
    the line and makes the checks of validation up to the reading of the
    port, and no other.) *)
Theorem extractHostPort_fails_with_validation
  (L : GoLib) (line : string) (e : error) :
  validateLine (strings.TrimSpace line) = Some e ->
  beyond_endpoint e = false ->
  exists e', extractHostPort line = Err e'.
Proof. apply extractHostPort_fails. Qed.

Lemma extractHostPort_fails_with_validation_witness :
  exists e', extractHostPort "vless://u@1.2.3.4" = Err e'.
Proof.
  apply (extractHostPort_fails_with_validation golib "vless://u@1.2.3.4"
           (errorString "missing port")); reflexivity.
Defined.

(** C1, as stated, fails: a vless line whose port is 70000 is rejected by
    [validateLine] and [extractHostPort] returns its endpoint. *)
Lemma extractHostPort_accepts_invalid_line :
  ~ (forall line : string,
       validateLine line <> None -> exists e', extractHostPort line = Err e').
Proof.
  intros Hc.
  destruct (Hc "vless://u@1.2.3.4:70000") as [e' He'].
  - vm_compute. discriminate.
  - vm_compute in He'. discriminate.
Qed.

(** ** Base64 texts *)

Lemma decodeMap_not c v (x : ascii) :
  base64.decodeMap c = Some v -> base64.decodeMap x = None -> c <> x.
Proof. intros Hc Hx ->. congruence. Qed.

Lemma isNL_not c (x : ascii) :
  base64.isNL c = true -> base64.isNL x = false -> c <> x.
Proof. intros Hc Hx ->. congruence. Qed.

Lemma IndexByte_cons_ne a r c :
  a <> c -> strings.IndexByte r c = -1 -> strings.IndexByte (String a r) c = -1.
Proof.
  intros Hne Hr. simpl. rewrite Hr.
  destruct (Ascii.eqb_spec a c); [contradiction|reflexivity].
Qed.

Lemma skipNL_no_colon r :
  strings.IndexByte (base64.skipNL r) ":" = -1 -> strings.IndexByte r ":" = -1.
Proof.
  induction r as [|c r IH]; [auto|].
  cbn [base64.skipNL]. destruct (base64.isNL c) eqn:E; [|auto].
  intros Hr. apply IndexByte_cons_ne; [|auto].
  now apply isNL_not with (x := ":"%char) in E.
Qed.

(** A text that decodes has no colon. *)
Lemma decode_no_colon s : forall q t,
  base64.decode q s = Some t -> strings.IndexByte s ":" = -1.
Proof.
  induction s as [|c r IH]; intros q t Hd; [reflexivity|].
  cbn [base64.decode] in Hd.
  destruct (base64.decodeMap c) as [v|] eqn:Em.
  - apply IndexByte_cons_ne.
    { now apply decodeMap_not with (x := ":"%char) in Em. }
    destruct q as [|d0 [|d1 [|d2 [|d3 q]]]];
      try (now apply IH in Hd).
    destruct (base64.unsextets d0 d1 d2 v) as [[x y] z].
    destruct (base64.decode [] r) as [t'|] eqn:Er; [|discriminate].
    now apply IH in Er.
  - destruct (base64.isNL c) eqn:En.
    + apply IndexByte_cons_ne; [|now apply IH in Hd].
      now apply isNL_not with (x := ":"%char) in En.
    + destruct (Ascii.eqb_spec c "=") as [->|]; [|discriminate].
      apply IndexByte_cons_ne; [discriminate|].
      apply skipNL_no_colon.
      destruct q as [|d0 [|d1 [|d2 [|d3 q]]]]; try discriminate.
      * destruct (base64.skipNL r) as [|c' r'] eqn:Es; [discriminate|].
        destruct (Ascii.eqb_spec c' "=") as [->|]; [|discriminate].
        apply IndexByte_cons_ne; [discriminate|].
        apply skipNL_no_colon.
        destruct (base64.skipNL r'); [reflexivity|discriminate].
      * destruct (base64.skipNL r); [reflexivity|discriminate].
Qed.

(** Only new lines decode to the empty text. *)
Lemma decode_empty s : forall q,
  base64.decode q s = Some "" -> q = [] /\ allNL s = true.
Proof.
  induction s as [|c r IH]; intros q Hd.
  - destruct q; [auto|discriminate].
  - cbn [base64.decode] in Hd. cbn [allNL].
    destruct (base64.decodeMap c) as [v|] eqn:Em.
    + exfalso.
      destruct q as [|d0 [|d1 [|d2 [|d3 q]]]];
        try (apply IH in Hd as [Hq _]; discriminate Hq).
      destruct (base64.unsextets d0 d1 d2 v) as [[x y] z].
      destruct (base64.decode [] r); discriminate.
    + destruct (base64.isNL c) eqn:En.
      * now apply IH in Hd.
      * exfalso.
        destruct (Ascii.eqb c "="); [|discriminate].
        destruct q as [|d0 [|d1 [|d2 [|d3 q]]]]; try discriminate.
        -- destruct (base64.skipNL r) as [|c' r']; [discriminate|].
           destruct (Ascii.eqb c' "="); [|discriminate].
           destruct (base64.skipNL r'); [|discriminate].
           destruct (base64.unsextets d0 d1 base64.zero base64.zero)
             as [[x y] z]. discriminate.
        -- destruct (base64.skipNL r); [|discriminate].
           destruct (base64.unsextets d0 d1 d2 base64.zero) as [[x y] z].
           discriminate.
Qed.

Lemma isNL_asciiSpace c : base64.isNL c = true -> strings.asciiSpace c = true.
Proof.
  unfold base64.isNL. intros Hc. apply orb_true_iff in Hc.
  destruct Hc as [Hc|Hc]; apply Ascii.eqb_eq in Hc; subst c; reflexivity.
Qed.

Lemma allNL_blank s : allNL s = true -> strings.TrimSpace s = "".
Proof.
  intros Hs. unfold strings.TrimSpace.
  assert (Hl : strings.trimLeft s = "").
  { induction s as [|c r IH]; [reflexivity|].
    cbn [allNL] in Hs. apply andb_true_iff in Hs as [Hc Hr].
    cbn [strings.trimLeft]. rewrite (isNL_asciiSpace c Hc). auto. }
  rewrite Hl. reflexivity.
Qed.

Lemma before_none c s : strings.IndexByte s c = -1 -> before c s = s.
Proof. unfold before. now intros ->. Qed.

Lemma before_not_contains c s :
  strings.Contains s (String c "") = false -> before c s = s.
Proof.
  rewrite Contains_byte. unfold before. now intros ->.
Qed.

(** The two readings of the method are empty together when the user
    information is not blank. *)
Lemma ssMethod_stated_empty user :
  nonblank user -> ssMethod user = "" <-> ssMethod_stated user = "".
Proof.
  unfold nonblank, ssMethod, ssMethod_stated, base64.DecodeString.
  intros Hu.
  destruct (base64.decode [] user) as [dec|] eqn:Hd; [|reflexivity].
  destruct (strings.Contains dec ":") eqn:Hc; [reflexivity|].
  rewrite (before_not_contains _ _ Hc).
  rewrite (before_none _ _ (decode_no_colon _ _ _ Hd)).
  split; intros ->.
  - exfalso. apply Hu. reflexivity.
  - exfalso. apply Hu. apply allNL_blank. now apply decode_empty in Hd.
Qed.

Lemma validateShadowsocks_method `{GoLib} :
  ss_accepts_on_method nonblank.
Proof.
  intros line u p Hp Hh Hport Hr Hu.
  unfold validateShadowsocks. rewrite Hp, Hport.
  apply String.eqb_neq in Hh. rewrite Hh.
  replace ((p <=? 0) || (65535 <? p)) with false.
  2:{ symmetry. apply orb_false_iff.
      split; [apply Z.leb_gt | apply Z.ltb_ge]; lia. }
  pose proof Hu as Hu'. apply String.eqb_neq in Hu'. rewrite Hu'.
  rewrite decodeSSUserInfo_method.
  pose proof (ssMethod_stated_empty _ Hu) as Hm.
  destruct (String.eqb_spec (ssMethod (url.Username (url.User u))) "") as [E|E].
  - split; [discriminate|]. intros Hs. exfalso. apply Hs. now apply Hm.
  - split; [|reflexivity]. intros _ Hs. apply E. now apply Hm.
Qed.

(** C8, as the code has it.  For every ss line with a host, a port in
    (0, 65535] and user information that is not empty once white space
    is trimmed, validation accepts the line exactly when the method (the
    text before the first colon of the base64-decoded user information,
    or of the user information itself when it is not base64) is not
    empty; the password plays no part. *)
Theorem validateShadowsocks_method_only
  (L : GoLib) (line : string) (u : url.URL) (p : Z) :
  url_Parse line = Ok u ->
  url.Hostname u <> "" ->
  parsePort (url.Port u) = Ok p ->
  0 < p <= 65535 ->
  nonblank (url.Username (url.User u)) ->
  (validateShadowsocks line = None
   <-> ssMethod_stated (url.Username (url.User u)) <> "").
Proof. apply validateShadowsocks_method. Qed.

(** The user information of the line is the base64 of [aes-256-gcm:],
    a method and an empty password. *)
Lemma validateShadowsocks_method_only_witness :
  validateShadowsocks "ss://YWVzLTI1Ni1nY206@1.2.3.4:8388" = None
  <-> ssMethod_stated "YWVzLTI1Ni1nY206" <> "".
Proof.
  refine (validateShadowsocks_method_only golib
            "ss://YWVzLTI1Ni1nY206@1.2.3.4:8388"
            (url.Build_URL "ss" ""
               (Some (url.Build_Userinfo "YWVzLTI1Ni1nY206" "" false))
               "1.2.3.4:8388" "" "" "") 8388 _ _ _ _ _).
  - vm_compute. reflexivity.
  - vm_compute. discriminate.
  - vm_compute. reflexivity.
  - lia.
  - vm_compute. discriminate.
Defined.

(** C8, as stated, fails: the user information of [ss://%20@1.2.3.4:443]
    is one space, which is not empty and whose method is not empty, and
    the line is rejected. *)
Lemma validateShadowsocks_rejects_blank_user :
  ~ ss_accepts_on_method nonempty.
Proof.
  intros Hc.
  pose (u := url.Build_URL "ss" "" (Some (url.Build_Userinfo " " "" false))
               "1.2.3.4:443" "" "" "").
  assert (H1 : url_Parse "ss://%20@1.2.3.4:443" = Ok u)
    by (vm_compute; reflexivity).
  assert (H2 : url.Hostname u <> "") by (vm_compute; discriminate).
  assert (H3 : parsePort (url.Port u) = Ok 443) by (vm_compute; reflexivity).
  assert (H4 : 0 < 443 <= 65535) by lia.
  assert (H5 : nonempty (url.Username (url.User u)))
    by (vm_compute; discriminate).
  destruct (Hc _ u 443 H1 H2 H3 H4 H5) as [_ Hback].
  assert (Hv : validateShadowsocks "ss://%20@1.2.3.4:443" = None).
  { apply Hback. vm_compute. discriminate. }
  vm_compute in Hv. discriminate.
Qed.

(** ** The partition by family *)

Lemma before_cons_ne a r c :
  a <> c -> before c (String a r) = String a (before c r).
Proof.
  intros Hne. unfold before. cbn [strings.IndexByte].
  destruct (Ascii.eqb_spec a c); [contradiction|].
  pose proof (IndexByte_ge r c).
  destruct (Z.ltb_spec (strings.IndexByte r c) 0).
  - assert (strings.IndexByte r c = -1) as -> by lia. reflexivity.
  - destruct (Z.leb_spec 0 (strings.IndexByte r c + 1)); [|lia].
    destruct (Z.leb_spec 0 (strings.IndexByte r c)); [|lia].
    now rewrite slice_to_cons.
Qed.

Lemma before_cons_eq c r : before c (String c r) = "".
Proof. unfold before. cbn [strings.IndexByte]. now rewrite Ascii.eqb_refl. Qed.

Lemma split_go_hd c s : forall k cur,
  hd "" (strings.split_go (String c "") (S k) 0 cur s) = cur +:+ before c s.
Proof.
  induction s as [|a r IH]; intros k cur.
  - simpl. now rewrite app_empty_r.
  - cbn [strings.split_go]. rewrite prefix1.
    destruct (Ascii.eqb_spec a c) as [->|Hne].
    + rewrite before_cons_eq, app_empty_r. reflexivity.
    + rewrite IH, before_cons_ne, app_String_assoc by assumption. reflexivity.
Qed.

Lemma Split_hd s c : hd "" (strings.Split s (String c "")) = before c s.
Proof.
  unfold strings.Split. destruct s as [|a r]; [reflexivity|].
  cbn [String.length]. now rewrite split_go_hd.
Qed.

(** What [splitByIPVersion] tests is the host before its first colon. *)
Lemma family_of_before host :
  family_of host =
  let h := before ":" host in
  if strings.HasPrefix h "[" && strings.HasSuffix h "]" then IPv6
  else if strings.Count h "." =? 3 then IPv4 else IPv6.
Proof.
  unfold family_of. rewrite Contains_byte, Split_hd.
  destruct (Z.leb_spec 0 (strings.IndexByte host ":")); [reflexivity|].
  rewrite before_none; [reflexivity|].
  pose proof (IndexByte_ge host ":"). lia.
Qed.

Lemma HasSuffix1_cons a r c :
  strings.HasSuffix (String a r) (String c "") =
  match r with
  | EmptyString => Ascii.eqb a c
  | _ => strings.HasSuffix r (String c "")
  end.
Proof.
  unfold strings.HasSuffix. destruct r as [|b r'].
  - simpl. destruct (Ascii.eqb a c); reflexivity.
  - cbn [String.length]. simpl Nat.leb.
    replace (S (S (String.length r')) - 1)%nat with (S (String.length r'))
      by lia.
    replace (S (String.length r') - 1)%nat with (String.length r') by lia.
    reflexivity.
Qed.

Lemma HasSuffix1_forall p s c :
  urlparse.forallb_str p s = true -> p c = false ->
  strings.HasSuffix s (String c "") = false.
Proof.
  intros Hs Hc. induction s as [|a r IH]; [reflexivity|].
  cbn [urlparse.forallb_str] in Hs. apply andb_true_iff in Hs as [Ha Hr].
  rewrite HasSuffix1_cons. destruct r as [|b r'].
  - apply Ascii.eqb_neq. intros ->. congruence.
  - now apply IH.
Qed.

Lemma count_from_forall p s c :
  urlparse.forallb_str p s = true -> p c = false ->
  strings.count_from 0 s (String c "") = 0.
Proof.
  intros Hs Hc. induction s as [|a r IH]; [reflexivity|].
  cbn [urlparse.forallb_str] in Hs. apply andb_true_iff in Hs as [Ha Hr].
  cbn [strings.count_from]. rewrite prefix1.
  destruct (Ascii.eqb_spec a c) as [->|]; [congruence|]. now apply IH.
Qed.

Lemma HasPrefix1_inv s c :
  strings.HasPrefix s (String c "") = true -> exists r, s = String c r.
Proof.
  unfold strings.HasPrefix. destruct s as [|a r]; [discriminate|].
  rewrite prefix1. intros Ha. apply Ascii.eqb_eq in Ha. subst a. eauto.
Qed.

Lemma HasPrefix1_before s c d :
  c <> d ->
  strings.HasPrefix s (String c "") = false ->
  strings.HasPrefix (before d s) (String c "") = false.
Proof.
  intros Hcd. unfold strings.HasPrefix. destruct s as [|a r]; [auto|].
  rewrite prefix1. intros Ha.
  destruct (Ascii.eqb_spec a d) as [->|Hne].
  - now rewrite before_cons_eq.
  - rewrite before_cons_ne by assumption. now rewrite prefix1.
Qed.

Lemma allDigits_no_colon t :
  url.allDigits t = true -> strings.IndexByte t ":" = -1.
Proof.
  induction t as [|a r IH]; [reflexivity|].
  cbn [url.allDigits]. intros Ht. apply andb_true_iff in Ht as [Ha Hr].
  apply IndexByte_cons_ne; [|auto]. intros ->. discriminate.
Qed.

Lemma LastIndexByte_none s c :
  strings.IndexByte s c = -1 -> strings.LastIndexByte s c = -1.
Proof.
  induction s as [|a r IH]; [reflexivity|].
  cbn [strings.IndexByte strings.LastIndexByte].
  destruct (Ascii.eqb a c); [discriminate|].
  pose proof (IndexByte_ge r c).
  destruct (Z.ltb_spec (strings.IndexByte r c) 0); [|lia].
  intros _. rewrite IH by lia. reflexivity.
Qed.

Lemma LastIndexByte_first s c : forall i,
  strings.IndexByte s c = i -> 0 <= i ->
  strings.IndexByte (strings.slice_from s (i + 1)) c = -1 ->
  strings.LastIndexByte s c = i.
Proof.
  induction s as [|a r IH]; intros i Hi Hpos Hrest; [simpl in Hi; lia|].
  cbn [strings.IndexByte strings.LastIndexByte] in *.
  destruct (Ascii.eqb_spec a c) as [->|Hne].
  - subst i. change (strings.slice_from (String c r) (0 + 1)) with r in Hrest.
    now rewrite (LastIndexByte_none r c Hrest).
  - pose proof (IndexByte_ge r c).
    destruct (Z.ltb_spec (strings.IndexByte r c) 0); [lia|].
    subst i. rewrite slice_from_cons in Hrest by lia.
    rewrite (IH _ eq_refl ltac:(lia) Hrest).
    destruct (Z.leb_spec 0 (strings.IndexByte r c)); [reflexivity|lia].
Qed.

Lemma slice_from_IndexByte s c : forall i,
  strings.IndexByte s c = i -> 0 <= i ->
  strings.slice_from s i = String c (strings.slice_from s (i + 1)).
Proof.
  induction s as [|a r IH]; intros i Hi Hpos; [simpl in Hi; lia|].
  cbn [strings.IndexByte] in Hi.
  destruct (Ascii.eqb_spec a c) as [->|Hne].
  - subst i. reflexivity.
  - pose proof (IndexByte_ge r c).
    destruct (Z.ltb_spec (strings.IndexByte r c) 0); [lia|].
    subst i. rewrite !slice_from_cons by lia. now apply IH.
Qed.

(** A host with one colon, followed by digits: the port is what
    follows the first colon. *)
Lemma stripPort_before host :
  0 <= strings.IndexByte host ":" ->
  url.allDigits (strings.slice_from host (strings.IndexByte host ":" + 1))
  = true ->
  stripPort host = before ":" host.
Proof.
  intros Hi Hd. unfold stripPort, before.
  rewrite (LastIndexByte_first host ":" _ eq_refl Hi
             (allDigits_no_colon _ Hd)).
  rewrite (slice_from_IndexByte host ":" _ eq_refl Hi).
  cbn [url.validOptionalPort]. rewrite Hd.
  destruct (Z.leb_spec 0 (strings.IndexByte host ":")); [reflexivity|lia].
Qed.

Lemma stripPort_none host :
  strings.IndexByte host ":" = -1 -> stripPort host = host.
Proof.
  intros Hi. unfold stripPort.
  now rewrite (LastIndexByte_none host ":" Hi).
Qed.

(** On the hosts of RFC 3986 the two orders of the tests agree. *)
Lemma family_of_stated host :
  uri_host host = true -> family_of host = family_stated host.
Proof.
  unfold uri_host, family_stated. rewrite family_of_before. cbv zeta.
  destruct (strings.HasPrefix host "[") eqn:Hb.
  - destruct (HasPrefix1_inv _ _ Hb) as [r ->].
    change (strings.drop 1 (String "[" r)) with r.
    intros Hu. apply andb_true_iff in Hu as [Hj Hx].
    apply Z.leb_le in Hj.
    rewrite before_cons_ne by discriminate.
    unfold before. destruct (Z.leb_spec 0 (strings.IndexByte r ":")); [|lia].
    set (h := strings.slice_to r (strings.IndexByte r ":")) in *.
    assert (Hall : urlparse.forallb_str
                     (fun c => urlparse.ishex c || Ascii.eqb c "[")
                     (String "[" h) = true).
    { cbn [urlparse.forallb_str]. simpl Ascii.eqb. rewrite orb_true_r.
      clear - Hx. induction h as [|a t IH]; [reflexivity|].
      cbn [urlparse.forallb_str] in *.
      apply andb_true_iff in Hx as [Ha Ht]. rewrite Ha. simpl. auto. }
    rewrite (HasSuffix1_forall _ _ "]" Hall eq_refl), andb_false_r.
    unfold strings.Count.
    rewrite (count_from_forall _ _ "." Hall eq_refl). reflexivity.
  - intros Hu.
    rewrite (HasPrefix1_before host "[" ":" ltac:(discriminate) Hb).
    cbn [andb].
    pose proof (IndexByte_ge host ":").
    destruct (Z.ltb_spec (strings.IndexByte host ":") 0).
    + assert (Hn : strings.IndexByte host ":" = -1) by lia.
      now rewrite stripPort_none, before_none.
    + cbn [orb] in Hu. now rewrite stripPort_before.
Qed.

Section FamiliesFacts.
Context `{GoLib}.

Lemma splitByIPVersion_body_bucket acc l :
  splitByIPVersion_body acc l =
  (fst acc ++ (if in_bucket family_of IPv4 l then [l] else []),
   snd acc ++ (if in_bucket family_of IPv6 l then [l] else [])).
Proof.
  destruct acc as [v4 v6].
  unfold splitByIPVersion_body, in_bucket, bucket, family_of. cbn [fst snd].
  destruct (url_Parse l) as [u|e]; [|now rewrite !app_nil_r].
  destruct (String.eqb (url.Host u) ""); [now rewrite !app_nil_r|].
  destruct (_ && _); [now rewrite app_nil_r|].
  destruct (_ =? 3); now rewrite app_nil_r.
Qed.

Lemma splitByIPVersion_fold lines : forall acc,
  fold_left splitByIPVersion_body lines acc =
  (fst acc ++ List.filter (in_bucket family_of IPv4) lines,
   snd acc ++ List.filter (in_bucket family_of IPv6) lines).
Proof.
  induction lines as [|l lines IH]; intros acc.
  - simpl. rewrite !app_nil_r. now destruct acc.
  - cbn [fold_left List.filter]. rewrite IH, splitByIPVersion_body_bucket.
    cbn [fst snd].
    destruct (in_bucket family_of IPv4 l), (in_bucket family_of IPv6 l);
      now rewrite <- ?app_assoc.
Qed.

Lemma splitByIPVersion_filter lines :
  splitByIPVersion lines =
  (List.filter (in_bucket family_of IPv4) lines,
   List.filter (in_bucket family_of IPv6) lines).
Proof. unfold splitByIPVersion. now rewrite splitByIPVersion_fold. Qed.

Lemma in_bucket_stated f l :
  (forall u, url_Parse l = Ok u -> uri_host (url.Host u) = true) ->
  in_bucket family_of f l = in_bucket family_stated f l.
Proof.
  intros Hl. unfold in_bucket, bucket.
  destruct (url_Parse l) as [u|e]; [|reflexivity].
  destruct (String.eqb (url.Host u) ""); [reflexivity|].
  now rewrite family_of_stated by auto.
Qed.

Lemma splitByIPVersion_stated lines :
  (forall l u, In l lines -> url_Parse l = Ok u ->
               uri_host (url.Host u) = true) ->
  splitByIPVersion lines =
  (List.filter (in_bucket family_stated IPv4) lines,
   List.filter (in_bucket family_stated IPv6) lines).
Proof.
  intros Hwf. rewrite splitByIPVersion_filter.
  f_equal; apply List.filter_ext_in; intros l Hl;
    apply in_bucket_stated; eauto.
Qed.

End FamiliesFacts.

Section FamilyCut.
Context `{GoLib}.

Lemma splitByIPVersion_cut lines :
  splitByIPVersion lines =
  (List.filter (in_bucket family_cut IPv4) lines,
   List.filter (in_bucket family_cut IPv6) lines).
Proof.
  rewrite splitByIPVersion_filter.
  f_equal; apply List.filter_ext; intros l; unfold in_bucket, bucket;
    destruct (url_Parse l) as [u|e]; try reflexivity;
    destruct (String.eqb (url.Host u) ""); try reflexivity;
    now rewrite family_of_before.
Qed.

Lemma family_cut_stated host :
  uri_host host = true -> family_cut host = family_stated host.
Proof.
  intros Hu. rewrite <- (family_of_stated host Hu).
  symmetry. apply family_of_before.
Qed.

End FamilyCut.

(** C6, amended.  [splitByIPVersion] sorts each line by the host of its
    URI: a line whose URI does not parse or has no host goes to neither
    bucket; of the host only the text before its first colon is looked
    at, which goes to the IPv4 bucket when it has exactly three dots and
    is not between brackets, and to the IPv6 bucket in every other case
    (so do domain names and bracketed addresses).  For the hosts that
    RFC 3986 allows (an IPv6 address between brackets, or a name or IPv4
    address without colon, and an optional port) this is the rule of the
    specification: a bracketed host is IPv6, and any other host, its
    optional trailing [:port] removed, is IPv4 when it has exactly three
    dots and IPv6 when it has not. *)
Theorem splitByIPVersion_by_host (L : GoLib) :
  (forall lines : list string,
     splitByIPVersion lines =
     (List.filter (in_bucket family_cut IPv4) lines,
      List.filter (in_bucket family_cut IPv6) lines))
  /\ (forall host : string,
        uri_host host = true -> family_cut host = family_stated host)
  /\ (forall lines : list string,
        (forall l u, In l lines -> url_Parse l = Ok u ->
                     uri_host (url.Host u) = true) ->
        splitByIPVersion lines =
        (List.filter (in_bucket family_stated IPv4) lines,
         List.filter (in_bucket family_stated IPv6) lines)).
Proof.
  split; [|split].
  - apply splitByIPVersion_cut.
  - apply family_cut_stated.
  - apply splitByIPVersion_stated.
Qed.

(** The three lines of the specification, and one with no URI host. *)
Lemma splitByIPVersion_by_host_witness :
  splitByIPVersion
    ["vless://u@203.0.113.5:443"; "vless://u@[2001:db8::1]:443";
     "vless://u@example.com:443"; "no host"]
  = (["vless://u@203.0.113.5:443"],
     ["vless://u@[2001:db8::1]:443"; "vless://u@example.com:443"]).
Proof.
  refine (eq_trans
            (proj2 (proj2 (splitByIPVersion_by_host golib)) _ _) _).
  - intros l u Hl Hu. cbn [In] in Hl.
    repeat destruct Hl as [<-|Hl]; try contradiction;
      vm_compute in Hu; try discriminate;
      injection Hu as <-; reflexivity.
  - vm_compute. reflexivity.
Defined.

(** C6, as stated, fails on a host with several colons and no bracket.
    The URI [vless://u@::ffff:1.2.3.4:443] parses, with the host
    [::ffff:1.2.3.4:443]; the line passes [validateLine] and is dialled
    at [[::ffff:1.2.3.4]:443].  Without its trailing [:443] the host is
    [::ffff:1.2.3.4], which has exactly three dots, so that the rule of
    the specification puts the line in the IPv4 bucket; the program,
    which cuts the host at its first colon, puts it in the IPv6
    bucket. *)
Lemma splitByIPVersion_cuts_at_first_colon :
  let l := "vless://u@::ffff:1.2.3.4:443" in
  (exists u, url_Parse l = Ok u /\ url.Host u = "::ffff:1.2.3.4:443")
  /\ validateLine l = None
  /\ extractHostPort l = Ok ("::ffff:1.2.3.4", 443)
  /\ stripPort "::ffff:1.2.3.4:443" = "::ffff:1.2.3.4"
  /\ strings.Count "::ffff:1.2.3.4" "." = 3
  /\ List.filter (in_bucket family_stated IPv4) [l] = [l]
  /\ splitByIPVersion [l] = ([], [l]).
Proof.
  cbv zeta. split.
  - destruct (url_Parse "vless://u@::ffff:1.2.3.4:443") as [u|e] eqn:Hu;
      vm_compute in Hu; [|discriminate].
    exists u. split; [reflexivity|]. injection Hu as <-. reflexivity.
  - repeat split; vm_compute; reflexivity.
Qed.

(** ** The probe *)

Section ProbeFacts.
Context `{GoLib}.
Variable lines : list string.

Lemma limit_le : limit lines <= 1000.
Proof.
  unfold limit, maxToTest.
  destruct (Z.ltb_spec 1000 (Z.of_nat (length lines))); lia.
Qed.

Lemma pool_inv_start maxConcurrent : pool_inv lines (start maxConcurrent).
Proof.
  unfold pool_inv, start. cbn. repeat split; try constructor; try lia.
  apply Forall_replicate. exact I.
Qed.

Lemma pool_inv_step p q : step lines p q -> pool_inv lines p -> pool_inv lines q.
Proof.
  pose proof limit_le as Hlim.
  unfold pool_inv.
  intros Hs (Hf & Hw & Hr & Hd).
  destruct Hs; cbn [feed workers reachable dials] in *.
  - repeat split; auto; lia.
  - repeat split; auto; try lia.
    apply Forall_insert; [assumption|].
    cbn. split; cbn; [lia|eauto].
  - repeat split; auto.
  - repeat split; auto. now apply Forall_insert.
  - pose proof (Forall_lookup_1 _ _ _ _ Hw H0) as Hit. cbn in Hit.
    repeat split; auto.
    + now apply Forall_insert.
    + apply Forall_app. split; [assumption|].
      constructor; [exact Hit|constructor].
  - pose proof (Forall_lookup_1 _ _ _ _ Hw H0) as Hit. cbn in Hit.
    repeat split; auto.
    + now apply Forall_insert.
    + apply Forall_app. split; [assumption|].
      constructor; [exact Hit|constructor].
  - pose proof (Forall_lookup_1 _ _ _ _ Hw H0) as Hit. cbn in Hit.
    repeat split; auto.
    + now apply Forall_insert.
    + apply Forall_app. split; [assumption|].
      constructor; [eauto|constructor].
  - repeat split; auto. now apply Forall_insert.
Qed.

Lemma pool_inv_rtc p q : rtc (step lines) p q -> pool_inv lines p -> pool_inv lines q.
Proof.
  induction 1 as [|p q r Hpq _ IH]; [auto|].
  intros Hp. apply IH. now apply pool_inv_step with p.
Qed.

Lemma pool_inv_reached maxConcurrent p :
  rtc (step lines) (start maxConcurrent) p -> pool_inv lines p.
Proof. intros Hr. eapply pool_inv_rtc; [eassumption|apply pool_inv_start]. Qed.

(** No line past the first 1000 is dialled. *)
Lemma dials_first_thousand maxConcurrent p :
  rtc (step lines) (start maxConcurrent) p ->
  Forall (fun d => first_thousand lines (fst d)) (dials p).
Proof. intros Hr. now apply pool_inv_reached in Hr as (_ & _ & _ & Hd). Qed.


End ProbeFacts.

Section ProbeProgress.
Context `{GoLib}.
Variable lines : list string.

Lemma limit_bounds : 0 <= limit lines <= Z.of_nat (length lines).
Proof.
  unfold limit, maxToTest.
  destruct (Z.ltb_spec 1000 (Z.of_nat (length lines))); lia.
Qed.

(** The feeder goes through its loop while the first worker takes each
    item and fails to connect. *)
Lemma feed_through ws r (k : nat) : forall i d,
  0 <= i -> i + Z.of_nat k = limit lines ->
  exists d',
    rtc (step lines) (Build_pool (Feeding i) (Waiting :: ws) r d)
      (Build_pool (Feeding (limit lines)) (Waiting :: ws) r d').
Proof.
  pose proof limit_bounds as Hlim.
  induction k as [|k IH]; intros i d Hi Hk.
  - replace i with (limit lines) by lia. exists d. apply rtc_refl.
  - destruct (lines !! Z.to_nat i) as [raw|] eqn:Hraw.
    2:{ apply lookup_ge_None in Hraw. lia. }
    destruct (String.eqb_spec (strings.TrimSpace raw) "") as [Hb|Hb].
    + destruct (IH (i + 1) d) as [d' Hrun]; [lia|lia|].
      exists d'. eapply rtc_l; [|exact Hrun].
      apply feed_skip with raw; [lia|assumption|assumption].
    + set (it := Build_item i (strings.TrimSpace raw)).
      destruct (target it) as [addr|] eqn:Ht.
      * destruct (IH (i + 1) (d ++ [(it, addr)])) as [d' Hrun]; [lia|lia|].
        exists d'.
        eapply rtc_l.
        { apply (feed_send lines i raw 0%nat);
            [lia|assumption|assumption|reflexivity]. }
        eapply rtc_l; [|exact Hrun].
        apply (work_dial_fail lines _ 0%nat it addr);
          [reflexivity|assumption].
      * destruct (IH (i + 1) d) as [d' Hrun]; [lia|lia|].
        exists d'.
        eapply rtc_l.
        { apply (feed_send lines i raw 0%nat);
            [lia|assumption|assumption|reflexivity]. }
        eapply rtc_l; [|exact Hrun].
        apply (work_skip lines _ 0%nat it); [reflexivity|assumption].
Qed.

(** Once the channel is closed the waiting workers exit one by one. *)
Lemma exit_all r d (m : nat) : forall pre,
  rtc (step lines) (Build_pool Closed (pre ++ replicate m Waiting) r d)
    (Build_pool Closed (pre ++ replicate m Exited) r d).
Proof.
  induction m as [|m IH]; intros pre; [apply rtc_refl|].
  cbn [replicate].
  eapply rtc_l.
  { apply (work_exit lines (length pre)). apply list_lookup_middle.
    reflexivity. }
  replace (<[length pre := Exited]> (pre ++ Waiting :: replicate m Waiting))
    with ((pre ++ [Exited]) ++ replicate m Waiting).
  2:{ rewrite <- (Nat.add_0_r (length pre)) at 1.
      rewrite insert_app_r. cbn. now rewrite <- app_assoc. }
  replace (pre ++ Exited :: replicate m Exited)
    with ((pre ++ [Exited]) ++ replicate m Exited)
    by now rewrite <- app_assoc.
  apply IH.
Qed.

(** [filterReachableLines] can return on every input: with no line when
    no connection is made. *)
Lemma filterReachableLines_returns timeout maxConcurrent :
  filterReachableLines lines timeout maxConcurrent [].
Proof.
  pose proof limit_bounds as Hlim.
  unfold filterReachableLines, start. cbv zeta.
  set (n := Z.to_nat (if maxConcurrent <=? 0 then 20 else maxConcurrent)).
  assert (Hn : exists n', n = S n').
  { exists (Nat.pred n). subst n.
    destruct (Z.leb_spec maxConcurrent 0); lia. }
  destruct Hn as [n' ->]. cbn [replicate].
  destruct (feed_through (replicate n' Waiting) [] (Z.to_nat (limit lines))
              0 []) as [d' Hfeed]; [lia|lia|].
  exists (Build_pool Closed (replicate (S n') Exited) [] d').
  split; [|split; [apply Forall_replicate; reflexivity|reflexivity]].
  eapply rtc_trans; [exact Hfeed|].
  eapply rtc_l; [apply feed_close; lia|].
  apply (exit_all [] d' (S n') []).
Qed.

End ProbeProgress.


(** A run on one line with a leading space, one worker, and a probe that
    connects. *)
Lemma probe_one_line :
  filterReachableLines [" vless://u@1.2.3.4:443"] 2000000000 1
    ["vless://u@1.2.3.4:443"].
Proof.
  set (it := Build_item 0 "vless://u@1.2.3.4:443").
  exists (Build_pool Closed [Exited] ["vless://u@1.2.3.4:443"]
            [(it, "1.2.3.4:443")]).
  split; [|split; [repeat constructor|reflexivity]].
  eapply rtc_l.
  { apply (feed_send _ 0 " vless://u@1.2.3.4:443" 0%nat);
      [vm_compute; reflexivity | reflexivity
      | vm_compute; discriminate | reflexivity]. }
  eapply rtc_l.
  { apply (work_dial_ok _ _ 0%nat it "1.2.3.4:443");
      [reflexivity | vm_compute; reflexivity]. }
  eapply rtc_l.
  { apply (work_append _ _ 0%nat it). reflexivity. }
  eapply rtc_l.
  { apply feed_close. vm_compute. discriminate. }
  eapply rtc_l.
  { apply (work_exit _ 0%nat). reflexivity. }
  apply rtc_refl.
Qed.



(** ** The export: attempts and cleaning *)

Section ExportFacts.
Context `{GoLib}.

Lemma plan_cons k a b rest :
  plan k (a :: b :: rest) = inl a :: inr (200 * k * Millisecond) :: plan (k + 1) (b :: rest).
Proof. reflexivity. Qed.

(** The loop, from iteration [i] with [left] iterations left. *)
Lemma renameLoop_exec path tmpPath left : forall i tr res,
  Z.of_nat left + i = maxRetries ->
  exec (renameLoop path tmpPath left i) tr res ->
  (length (renames tr) <= left)%nat
  /\ (left <> O -> renames tr <> [])
  /\ Forall retried (take (length (renames tr) - 1) (renames tr))
  /\ schedule tr = plan (i + 1) (renames tr)
  /\ (res <> None -> exists r, last tr = Some (EvRemove tmpPath r)).
Proof.
  induction left as [|left IH]; intros i tr res Hi He.
  - cbn in He. destruct He as (r & tr' & -> & -> & ->).
    cbn. repeat split; try lia; try congruence; try (now constructor). eauto.
  - cbn [renameLoop exec] in He.
    destruct He as (r0 & tr0 & -> & r & tr1 & -> & He).
    destruct r as [msg|].
    + destruct (busy msg && (i <? maxRetries - 1)) eqn:Hb.
      * apply andb_true_iff in Hb as [Hbusy Hlt]. apply Z.ltb_lt in Hlt.
        cbn [exec] in He. destruct He as ([] & tr2 & -> & He).
        apply IH in He; [|lia].
        destruct He as (Hlen & Hne & Hret & Hsch & Hclean).
        assert (Hleft : left <> O) by (unfold maxRetries in *; lia).
        specialize (Hne Hleft).
        cbn [record renames schedule length].
        destruct (renames tr2) as [|b rest] eqn:Hrs; [congruence|].
        repeat split.
        -- cbn [length] in *. lia.
        -- congruence.
        -- cbn [length] in *.
           replace (S (S (length rest)) - 1)%nat with (S (length rest)) by lia.
           cbn [take]. constructor.
           ++ exists msg. auto.
           ++ replace (S (length rest) - 1)%nat with (length rest) in Hret
                by lia. exact Hret.
        -- rewrite plan_cons, Hsch. reflexivity.
        -- intros Hres. destruct (Hclean Hres) as [r Hlast].
           exists r. cbn [last]. 
           destruct tr2 as [|e2 tr2']; [discriminate Hrs|].
           exact Hlast.
      * cbn [exec] in He. destruct He as (r1 & tr2 & -> & -> & ->).
        cbn. repeat split; try lia; try congruence; try (now constructor). eauto.
    + cbn [exec] in He. destruct He as (-> & ->).
      cbn. repeat split; try lia; try congruence; try (now constructor).
Qed.

Lemma writeBase64Atomic_exec path lines tr res :
  exec (writeBase64Atomic path lines) tr res ->
  (length (renames tr) <= 6)%nat
  /\ Forall retried (take (length (renames tr) - 1) (renames tr))
  /\ schedule tr = plan 1 (renames tr)
  /\ cleaned tr res.
Proof.
  unfold writeBase64Atomic. cbv zeta. cbn [exec].
  intros (t & tr0 & -> & He).
  destruct t as [tmpPath|err].
  2:{ cbn [exec] in He. destruct He as (-> & ->).
      cbn. repeat split; try lia; try (now constructor). }
  cbn [exec] in He. destruct He as (w & tr1 & -> & He).
  destruct w as [err|].
  { cbn [exec] in He.
    destruct He as (c & tr2 & -> & r & tr3 & -> & -> & ->).
    cbn. repeat split; try lia; try (now constructor). eauto. }
  cbn [exec] in He. destruct He as (f & tr2 & -> & He).
  destruct f as [err|].
  { cbn [exec] in He.
    destruct He as (c & tr3 & -> & r & tr4 & -> & -> & ->).
    cbn. repeat split; try lia; try (now constructor). eauto. }
  cbn [exec] in He. destruct He as (c & tr3 & -> & He).
  destruct c as [err|].
  { cbn [exec] in He. destruct He as (r & tr4 & -> & -> & ->).
    cbn. repeat split; try lia; try (now constructor). eauto. }
  apply renameLoop_exec in He; [|reflexivity].
  destruct He as (Hlen & _ & Hret & Hsch & Hclean).
  cbn [record renames schedule cleaned].
  repeat split; auto.
  destruct res as [e|]; [|exact I].
  destruct Hclean as [r Hlast]; [discriminate|].
  exists r. 
  destruct tr3 as [|e3 tr3']; [discriminate Hlast|].
  exact Hlast.
Qed.

End ExportFacts.

Section LockFacts.
Context `{GoLib}.





End LockFacts.



Section LockTheorem.
Context `{GoLib}.



End LockTheorem.


Lemma exec_Do {A R} (c : oscall R) (k : R -> prog A) r e tr a :
  e = record c r -> exec (k r) tr a -> exec (Do c k) (e :: tr) a.
Proof. intros -> He. cbn [exec]. eauto. Qed.

Lemma exec_Ret {A} (a : A) : exec (Ret a) [] a.
Proof. cbn. auto. Qed.

Ltac exec_step :=
  lazymatch goal with
  | |- exec (Ret _) _ _ => apply exec_Ret
  | |- exec (Do (Sleep _) _) _ _ =>
      eapply (exec_Do _ _ tt); [lazy; reflexivity | cbv beta iota]
  | |- exec (Do _ _) _ _ =>
      eapply exec_Do; [lazy; reflexivity | cbv beta iota]
  | |- exec (if ?c then _ else _) _ _ =>
      let v := eval vm_compute in c in change c with v; cbv iota
  | |- exec (renameLoop _ _ _ _) _ _ => cbn [renameLoop]
  end.

Lemma retried_twice_exec :
  exec (writeBase64Atomic "out/normal" ["a"]) retried_twice None.
Proof.
  unfold retried_twice, writeBase64Atomic. cbv zeta.
  change (Z.to_nat maxRetries) with 6%nat.
  repeat exec_step.
Qed.



(** ** Base64: decoding what was encoded *)

Lemma decodeMap_encode1 b0 b1 b2 b3 b4 b5 :
  base64.decodeMap (base64.encode1 (Ascii b0 b1 b2 b3 b4 b5 false false))
  = Some (Ascii b0 b1 b2 b3 b4 b5 false false).
Proof. destruct b0, b1, b2, b3, b4, b5; reflexivity. Qed.

Lemma sextets_six a b c :
  let '(d0, d1, d2, d3) := base64.sextets a b c in
  six d0 /\ six d1 /\ six d2 /\ six d3.
Proof.
  destruct a, b, c. cbn [base64.sextets]. unfold six.
  repeat split; apply decodeMap_encode1.
Qed.

Lemma unsextets_sextets a b c :
  let '(d0, d1, d2, d3) := base64.sextets a b c in
  base64.unsextets d0 d1 d2 d3 = (a, b, c).
Proof. destruct a, b, c. reflexivity. Qed.

Lemma unsextets_sextets_2 a b :
  let '(d0, d1, d2, _) := base64.sextets a b base64.zero in
  exists z, base64.unsextets d0 d1 d2 base64.zero = (a, b, z).
Proof. destruct a, b. cbn. eauto. Qed.

Lemma unsextets_sextets_1 a :
  let '(d0, d1, _, _) := base64.sextets a base64.zero base64.zero in
  exists y z, base64.unsextets d0 d1 base64.zero base64.zero = (a, y, z).
Proof. destruct a. cbn. eauto. Qed.

Lemma string_ind3 (P : string -> Prop) :
  P "" ->
  (forall a, P (String a "")) ->
  (forall a b, P (String a (String b ""))) ->
  (forall a b c r, P r -> P (String a (String b (String c r)))) ->
  forall s, P s.
Proof.
  intros H0 H1 H2 H3.
  assert (H : forall s, P s /\ (forall a, P (String a s))
                        /\ (forall a b, P (String a (String b s)))).
  { induction s as [|c r (IH0 & IH1 & IH2)].
    - auto.
    - repeat split; auto. }
  intros s. apply H.
Qed.

Lemma decode_alphabet d q r :
  six d ->
  base64.decode q (String (base64.encode1 d) r) =
  match q with
  | [d0; d1; d2] =>
      let '(x, y, z) := base64.unsextets d0 d1 d2 d in
      match base64.decode [] r with
      | Some t => Some (String x (String y (String z t)))
      | None => None
      end
  | _ => base64.decode (q ++ [d]) r
  end.
Proof. intros Hd. cbn [base64.decode]. rewrite Hd. reflexivity. Qed.

Lemma decode_encode s : base64.decode [] (base64.encode s) = Some s.
Proof.
  induction s as [|a|a b|a b c r IH] using string_ind3.
  - reflexivity.
  - cbn [base64.encode].
    pose proof (sextets_six a base64.zero base64.zero) as H6.
    pose proof (unsextets_sextets_1 a) as Hu.
    destruct (base64.sextets a base64.zero base64.zero) as [[[d0 d1] d2] d3].
    destruct H6 as (H0 & H1 & _). destruct Hu as (y & z & Hu).
    rewrite !decode_alphabet by assumption. cbn. now rewrite Hu.
  - cbn [base64.encode].
    pose proof (sextets_six a b base64.zero) as H6.
    pose proof (unsextets_sextets_2 a b) as Hu.
    destruct (base64.sextets a b base64.zero) as [[[d0 d1] d2] d3].
    destruct H6 as (H0 & H1 & H2 & _). destruct Hu as (z & Hu).
    rewrite !decode_alphabet by assumption. cbn. now rewrite Hu.
  - cbn [base64.encode].
    pose proof (sextets_six a b c) as H6.
    pose proof (unsextets_sextets a b c) as Hu.
    destruct (base64.sextets a b c) as [[[d0 d1] d2] d3].
    destruct H6 as (H0 & H1 & H2 & H3).
    rewrite !decode_alphabet by assumption. cbn [app].
    now rewrite Hu, IH.
Qed.

Lemma DecodeString_EncodeToString s :
  base64.DecodeString (base64.EncodeToString s) = Ok s.
Proof.
  unfold base64.DecodeString, base64.EncodeToString.
  now rewrite decode_encode.
Qed.

(** ** Joining and splitting *)

Lemma IndexByte_cons_inv a r c :
  strings.IndexByte (String a r) c = -1 ->
  a <> c /\ strings.IndexByte r c = -1.
Proof.
  cbn [strings.IndexByte].
  destruct (Ascii.eqb_spec a c); [discriminate|].
  pose proof (IndexByte_ge r c).
  destruct (Z.ltb_spec (strings.IndexByte r c) 0); [|lia].
  intros _. split; [assumption|lia].
Qed.

(** A piece without separator is read whole. *)
Lemma split_go_piece c l : forall k cur,
  strings.IndexByte l c = -1 ->
  strings.split_go (String c "") k 0 cur l = [cur +:+ l].
Proof.
  induction l as [|a r IH]; intros k cur Hl.
  - cbn. now rewrite app_empty_r.
  - apply IndexByte_cons_inv in Hl as [Hne Hr].
    cbn [strings.split_go]. destruct k as [|k]; [reflexivity|].
    rewrite prefix1. destruct (Ascii.eqb_spec a c); [contradiction|].
    now rewrite IH, app_String_assoc.
Qed.

(** A piece followed by a separator is cut off. *)
Lemma split_go_cut c l : forall k cur rest,
  strings.IndexByte l c = -1 ->
  strings.split_go (String c "") (S k) 0 cur (l +:+ String c rest)
  = (cur +:+ l) :: strings.split_go (String c "") k 0 "" rest.
Proof.
  induction l as [|a r IH]; intros k cur rest Hl.
  - sapp. cbn [strings.split_go]. rewrite prefix1, Ascii.eqb_refl.
    now rewrite app_empty_r.
  - apply IndexByte_cons_inv in Hl as [Hne Hr].
    sapp. cbn [strings.split_go].
    rewrite prefix1. destruct (Ascii.eqb_spec a c); [contradiction|].
    now rewrite IH, app_String_assoc.
Qed.

Lemma split_go_Join c ls : forall k,
  ls <> [] ->
  Forall (fun l => strings.IndexByte l c = -1) ls ->
  (length ls <= S k)%nat ->
  strings.split_go (String c "") k 0 "" (strings.Join ls (String c "")) = ls.
Proof.
  induction ls as [|l rest IH]; intros k Hne Hall Hk; [contradiction|].
  apply Forall_cons in Hall as [Hl Hrest].
  destruct rest as [|l' rest'].
  - cbn [strings.Join]. now rewrite split_go_piece.
  - change (strings.Join (l :: l' :: rest') (String c ""))
      with (l +:+ String c "" +:+ strings.Join (l' :: rest') (String c "")).
    sapp. destruct k as [|k]; [cbn [length] in Hk; lia|].
    rewrite split_go_cut by assumption. sapp.
    rewrite IH; [reflexivity|discriminate|assumption|cbn [length] in *; lia].
Qed.

Lemma length_app_str s t :
  String.length (s +:+ t) = (String.length s + String.length t)%nat.
Proof. induction s as [|a r IH]; sapp; cbn [String.length]; lia. Qed.

Lemma Join_length ls sep :
  sep <> "" -> (length ls <= S (String.length (strings.Join ls sep)))%nat.
Proof.
  intros Hsep. induction ls as [|l rest IH]; [cbn; lia|].
  destruct rest as [|l' rest'].
  - cbn. lia.
  - change (strings.Join (l :: l' :: rest') sep)
      with (l +:+ sep +:+ strings.Join (l' :: rest') sep).
    rewrite !length_app_str. cbn [length] in *.
    destruct sep; [contradiction|]. cbn [String.length]. lia.
Qed.

(** Splitting a join on new lines gives the lines back. *)
Lemma Split_Join lines :
  lines <> [] -> Forall newline_free lines ->
  strings.Split (strings.Join lines newline) newline = lines.
Proof.
  intros Hne Hall. unfold strings.Split, newline.
  apply split_go_Join; [assumption|exact Hall|].
  apply Join_length. discriminate.
Qed.

(** ** Sorting *)

Lemma insert_Permutation x l : Permutation (x :: l) (sort.insert x l).
Proof.
  induction l as [|y r IH]; cbn [sort.insert]; [reflexivity|].
  destruct (String.leb x y); [reflexivity|].
  rewrite perm_swap. now constructor.
Qed.

Lemma Strings_Permutation l : Permutation l (sort.Strings l).
Proof.
  induction l as [|x r IH]; cbn [sort.Strings]; [reflexivity|].
  rewrite <- insert_Permutation. now constructor.
Qed.

Lemma insert_HdRel a x l :
  string_le a x -> HdRel string_le a l -> HdRel string_le a (sort.insert x l).
Proof.
  intros Hax Hal. destruct l as [|y r]; cbn [sort.insert].
  - now constructor.
  - destruct (String.leb x y); constructor; [assumption|].
    now inversion Hal.
Qed.

Lemma insert_Sorted x l :
  Sorted string_le l -> Sorted string_le (sort.insert x l).
Proof.
  induction 1 as [|y r Hr IH Hy]; cbn [sort.insert].
  - repeat constructor.
  - destruct (String.leb x y) eqn:Hxy.
    + constructor; [now constructor|]. now constructor.
    + constructor; [assumption|].
      apply insert_HdRel; [|assumption].
      unfold string_le. destruct (String.leb_total x y); congruence.
Qed.

Lemma Strings_Sorted l : Sorted string_le (sort.Strings l).
Proof.
  induction l as [|x r IH]; cbn [sort.Strings]; [constructor|].
  now apply insert_Sorted.
Qed.

(** ** The export on the file system *)

Section ExportRun.
Context `{GoLib}.

Lemma renameLoop_run path tmpPath data left : forall i s s',
  (forall c, files s !! tmpPath = Some c -> c = data) ->
  run (renameLoop path tmpPath left i) s s' None ->
  files s' !! path = Some data.
Proof.
  induction left as [|left IH]; intros i s s' Hinv Hrun.
  - cbn in Hrun. destruct Hrun as (r & s1 & _ & _ & [=]).
  - cbn [renameLoop run] in Hrun.
    destruct Hrun as (r0 & s1 & Hrm & r & s2 & Hrn & Hrun).
    assert (Hinv1 : forall c, files s1 !! tmpPath = Some c -> c = data).
    { cbn [os_step] in Hrm. destruct r0 as [msg|].
      - now subst s1.
      - destruct Hrm as [_ ->]. cbn [files]. intros c Hc.
        apply lookup_delete_Some in Hc as [_ Hc]. auto. }
    cbn [os_step] in Hrn. destruct r as [msg|].
    + subst s2.
      destruct (busy msg && (i <? maxRetries - 1)).
      * cbn [run] in Hrun. destruct Hrun as ([] & s3 & Hsl & Hrun).
        cbn [os_step] in Hsl. subst s3. now apply IH in Hrun.
      * cbn [run] in Hrun. destruct Hrun as (r1 & s3 & _ & _ & [=]).
    + destruct Hrn as (c & Hc & ->).
      cbn [run] in Hrun. destruct Hrun as [-> _].
      cbn [files]. rewrite lookup_insert_eq.
      now rewrite (Hinv1 c Hc).
Qed.

(** A successful [writeBase64Atomic] leaves the encoded join of the
    lines at the destination. *)
Lemma writeBase64Atomic_run path lines s s' :
  run (writeBase64Atomic path lines) s s' None ->
  files s' !! path
  = Some (base64.EncodeToString (strings.Join lines newline)).
Proof.
  unfold writeBase64Atomic. cbv zeta. fold newline.
  set (data := base64.EncodeToString (strings.Join lines newline)).
  cbn [run]. intros (t & s1 & Hct & Hrun).
  destruct t as [tmpPath|err];
    [|cbn [run] in Hrun; destruct Hrun as [_ [=]]].
  cbn [os_step] in Hct. destruct Hct as [Hfresh ->].
  cbn [run] in Hrun. destruct Hrun as (w & s2 & Hw & Hrun).
  destruct w as [err|].
  { cbn [run] in Hrun.
    destruct Hrun as (? & ? & _ & ? & ? & _ & _ & [=]). }
  cbn [os_step files buffered] in Hw.
  destruct Hw as (c & b & written & kept & Hc & Hb & Hsplit & ->).
  rewrite lookup_insert_eq in Hc, Hb.
  injection Hc as <-. injection Hb as <-.
  cbn [run] in Hrun. destruct Hrun as (f & s3 & Hf & Hrun).
  destruct f as [err|].
  { cbn [run] in Hrun.
    destruct Hrun as (? & ? & _ & ? & ? & _ & _ & [=]). }
  cbn [os_step files buffered] in Hf.
  destruct Hf as (c & b & Hc & Hb & ->).
  rewrite lookup_insert_eq in Hc, Hb.
  injection Hc as <-. injection Hb as <-.
  cbn [run] in Hrun. destruct Hrun as (cl & s4 & Hcl & Hrun).
  cbn [os_step] in Hcl. subst s4.
  destruct cl as [err|].
  { cbn [run] in Hrun. destruct Hrun as (? & ? & _ & _ & [=]). }
  eapply renameLoop_run; [|exact Hrun].
  cbn [files]. intros c Hc. rewrite lookup_insert_eq in Hc.
  injection Hc as <-. sapp. rewrite <- Hsplit. reflexivity.
Qed.

(** From the empty file system the export can succeed. *)
Lemma writeBase64Atomic_can_run path lines :
  exists s', run (writeBase64Atomic path lines) no_files s' None.
Proof.
  unfold writeBase64Atomic. cbv zeta.
  set (data := base64.EncodeToString _).
  eexists. cbn [run].
  exists (OSOk "tmp"), {| files := <["tmp" := ""]> ∅;
                         buffered := <["tmp" := ""]> ∅ |}.
  split; [cbn; split; [apply lookup_empty|reflexivity]|].
  cbn [run].
  exists None, {| files := <["tmp" := data]> ∅;
                  buffered := <["tmp" := ""]> ∅ |}.
  split.
  { cbn [os_step files buffered]. exists "", "", data, "".
    rewrite !lookup_insert_eq, !insert_insert_eq, app_empty_r.
    repeat split; reflexivity. }
  cbn [run].
  exists None, {| files := <["tmp" := data]> ∅;
                  buffered := <["tmp" := ""]> ∅ |}.
  split.
  { cbn [os_step files buffered]. exists data, "".
    rewrite !lookup_insert_eq, !insert_insert_eq, app_empty_r.
    repeat split; reflexivity. }
  cbn [run]. exists None. eexists. split; [reflexivity|].
  change (Z.to_nat maxRetries) with 6%nat. cbn [renameLoop run].
  exists (Some "remove: no such file"). eexists. split; [reflexivity|].
  exists None. eexists. split.
  { cbn [os_step files]. exists data. split;
      [apply lookup_insert_eq|reflexivity]. }
  cbn [run]. split; reflexivity.
Qed.

Lemma export_run path lines sorted s s' :
  lines <> [] -> Forall newline_free lines ->
  run (export path lines sorted) s s' None ->
  reads_back s' path (if sorted then sort.Strings lines else lines).
Proof.
  intros Hne Hall Hrun. unfold reads_back, export in *.
  destruct sorted.
  - unfold writeBase64Sorted in Hrun. cbv zeta in Hrun.
    apply writeBase64Atomic_run in Hrun.
    eexists _, _. split; [exact Hrun|].
    split; [apply DecodeString_EncodeToString|].
    pose proof (Strings_Permutation lines) as Hp.
    apply Split_Join.
    + intros Hs. rewrite Hs in Hp. apply Permutation_sym in Hp.
      apply Permutation_nil in Hp. auto.
    + rewrite Forall_forall in *. intros l Hl. apply Hall.
      apply list_elem_of_In. apply list_elem_of_In in Hl.
      now apply (Permutation_in _ (Permutation_sym Hp)).
  - unfold writeBase64NoSort in Hrun.
    apply writeBase64Atomic_run in Hrun.
    eexists _, _. split; [exact Hrun|].
    split; [apply DecodeString_EncodeToString|].
    now apply Split_Join.
Qed.

Lemma export_can_run path lines sorted :
  exists s', run (export path lines sorted) no_files s' None.
Proof. destruct sorted; apply writeBase64Atomic_can_run. Qed.

End ExportRun.

(** C2, as the code has it.  For every non-empty list of lines without
    new line, when the export succeeds, base64-decoding the bytes of the
    destination file and splitting the decoded text on new lines gives
    the input list back: in input order when [sorted] is false, and
    sorted (the same lines, in increasing byte-wise order) when it is
    true. *)
Theorem export_round_trip
  (L : GoLib) (path : string) (lines : list string) (sorted : bool)
  (s s' : fsys) :
  lines <> [] ->
  Forall newline_free lines ->
  run (export path lines sorted) s s' None ->
  reads_back s' path (if sorted then sort.Strings lines else lines)
  /\ Permutation lines (sort.Strings lines)
  /\ Sorted string_le (sort.Strings lines).
Proof.
  intros Hne Hall Hrun. split; [now apply export_run with s|].
  split; [apply Strings_Permutation|apply Strings_Sorted].
Qed.

Lemma export_round_trip_witness :
  exists s',
    run (export "out/normal" ["b"; "a"] true) no_files s' None
    /\ reads_back s' "out/normal" ["a"; "b"].
Proof.
  destruct (export_can_run (H := golib) "out/normal" ["b"; "a"] true)
    as [s' Hrun].
  exists s'. split; [exact Hrun|].
  refine (proj1 (export_round_trip golib "out/normal" ["b"; "a"] true
                   no_files s' _ _ Hrun)).
  - discriminate.
  - repeat constructor.
Defined.

(** C2, as stated, fails on the empty list: the export of no line writes
    the empty text, which splits into one empty line. *)
Lemma export_empty_list_reads_one_line :
  ~ (forall (path : string) (lines : list string) (sorted : bool)
            (s s' : fsys),
       Forall newline_free lines ->
       run (export path lines sorted) s s' None ->
       reads_back s' path (if sorted then sort.Strings lines else lines)).
Proof.
  intros Hc.
  destruct (export_can_run (H := golib) "out/ipv4" [] false) as [s' Hrun].
  pose proof (Hc _ _ _ _ _ (List.Forall_nil _) Hrun) as Hback.
  apply (writeBase64Atomic_run (H := golib)) in Hrun.
  destruct Hback as (content & decoded & Hfile & Hdec & Hsplit).
  rewrite Hrun in Hfile. injection Hfile as <-.
  cbn in Hdec. injection Hdec as <-. discriminate Hsplit.
Qed.

(** * More properties of the program *)

(** ** White space *)

Lemma string_lt_ind (P : string -> Prop) :
  (forall s, (forall t, (String.length t < String.length s)%nat -> P t) -> P s) ->
  forall s, P s.
Proof.
  intros Hstep s. remember (String.length s) as n eqn:Hn.
  revert s Hn. induction n as [n IH] using lt_wf_ind. intros s ->.
  apply Hstep. intros t Ht. now apply (IH (String.length t)).
Qed.

Lemma str_rev_app_app s : forall t, String.rev_app s t = String.rev s +:+ t.
Proof.
  unfold String.rev. induction s as [|a r IH]; intros t; [reflexivity|].
  cbn [String.rev_app]. rewrite (IH (String a "")), IH.
  now rewrite app_String_assoc.
Qed.

Lemma str_rev_cons a r : String.rev (String a r) = String.rev r +:+ String a "".
Proof. unfold String.rev at 1. cbn [String.rev_app]. apply str_rev_app_app. Qed.

Lemma app_assoc_str s t u : (s +:+ t) +:+ u = s +:+ (t +:+ u).
Proof. induction s as [|a r IH]; sapp; congruence. Qed.

Lemma rev_app_str s t : String.rev (s +:+ t) = String.rev t +:+ String.rev s.
Proof.
  induction s as [|a r IH]; sapp.
  - change (String.rev "") with "". now rewrite app_empty_r.
  - now rewrite !str_rev_cons, IH, app_assoc_str.
Qed.

Lemma str_rev_involutive s : String.rev (String.rev s) = s.
Proof.
  induction s as [|a r IH]; [reflexivity|].
  rewrite str_rev_cons, rev_app_str, IH. reflexivity.
Qed.

Lemma plain_space c : plain c = true -> strings.asciiSpace c = false.
Proof. unfold plain. destruct (strings.asciiSpace c); [discriminate|reflexivity]. Qed.

Lemma plain_lead2 c a : plain c = true -> strings.space2 c a = false.
Proof.
  unfold plain, strings.space2. intros Hc.
  apply andb_true_iff in Hc as [_ Hc]. apply N.ltb_lt in Hc.
  destruct (N.eqb_spec (N_of_ascii c) 194); [lia|reflexivity].
Qed.

Lemma plain_lead3 c b a : plain c = true -> strings.space3 c b a = false.
Proof.
  unfold plain, strings.space3. intros Hc.
  apply andb_true_iff in Hc as [_ Hc]. apply N.ltb_lt in Hc.
  destruct (N.eqb_spec (N_of_ascii c) 225); [lia|].
  destruct (N.eqb_spec (N_of_ascii c) 226); [lia|].
  destruct (N.eqb_spec (N_of_ascii c) 227); [lia|reflexivity].
Qed.

Lemma trimLeft_cons a r :
  strings.trimLeft (String a r) =
  if strings.asciiSpace a then strings.trimLeft r
  else match r with
       | EmptyString => String a r
       | String b r2 =>
           if strings.space2 a b then strings.trimLeft r2
           else match r2 with
                | EmptyString => String a r
                | String c r3 =>
                    if strings.space3 a b c then strings.trimLeft r3
                    else String a r
                end
       end.
Proof. reflexivity. Qed.

Lemma trimLeft_rev_cons a r :
  strings.trimLeft_rev (String a r) =
  if strings.asciiSpace a then strings.trimLeft_rev r
  else match r with
       | EmptyString => String a r
       | String b r2 =>
           if strings.space2 b a then strings.trimLeft_rev r2
           else match r2 with
                | EmptyString => String a r
                | String c r3 =>
                    if strings.space3 c b a then strings.trimLeft_rev r3
                    else String a r
                end
       end.
Proof. reflexivity. Qed.

Lemma trimLeft_length s :
  (String.length (strings.trimLeft s) <= String.length s)%nat.
Proof.
  induction s as [s IH] using string_lt_ind.
  destruct s as [|a r]; [cbn; lia|]. rewrite trimLeft_cons.
  destruct (strings.asciiSpace a).
  { etransitivity; [apply IH; cbn; lia|cbn; lia]. }
  destruct r as [|b r]; [lia|].
  destruct (strings.space2 a b).
  { etransitivity; [apply IH; cbn; lia|cbn; lia]. }
  destruct r as [|c r]; [lia|].
  destruct (strings.space3 a b c); [|lia].
  etransitivity; [apply IH; cbn; lia|cbn; lia].
Qed.

Lemma trimLeft_idem s : strings.trimLeft (strings.trimLeft s) = strings.trimLeft s.
Proof.
  induction s as [s IH] using string_lt_ind.
  destruct s as [|a r]; [reflexivity|]. rewrite (trimLeft_cons a r).
  destruct (strings.asciiSpace a) eqn:Ea; [apply IH; cbn; lia|].
  destruct r as [|b r]; [now rewrite trimLeft_cons, Ea|].
  destruct (strings.space2 a b) eqn:E2; [apply IH; cbn; lia|].
  destruct r as [|c r]; [now rewrite trimLeft_cons, Ea, E2|].
  destruct (strings.space3 a b c) eqn:E3; [apply IH; cbn; lia|].
  now rewrite trimLeft_cons, Ea, E2, E3.
Qed.

Lemma trimLeft_rev_idem s :
  strings.trimLeft_rev (strings.trimLeft_rev s) = strings.trimLeft_rev s.
Proof.
  induction s as [s IH] using string_lt_ind.
  destruct s as [|a r]; [reflexivity|]. rewrite (trimLeft_rev_cons a r).
  destruct (strings.asciiSpace a) eqn:Ea; [apply IH; cbn; lia|].
  destruct r as [|b r]; [now rewrite trimLeft_rev_cons, Ea|].
  destruct (strings.space2 b a) eqn:E2; [apply IH; cbn; lia|].
  destruct r as [|c r]; [now rewrite trimLeft_rev_cons, Ea, E2|].
  destruct (strings.space3 c b a) eqn:E3; [apply IH; cbn; lia|].
  now rewrite trimLeft_rev_cons, Ea, E2, E3.
Qed.

(** What [trimLeft_rev] keeps is the end of its argument. *)
Lemma trimLeft_rev_suffix s : exists p, s = p +:+ strings.trimLeft_rev s.
Proof.
  induction s as [s IH] using string_lt_ind.
  destruct s as [|a r]; [exists ""; reflexivity|]. rewrite trimLeft_rev_cons.
  destruct (strings.asciiSpace a).
  { destruct (IH r) as [p Hp]; [cbn; lia|].
    exists (String a p). sapp. now rewrite <- Hp. }
  destruct r as [|b r]; [exists ""; reflexivity|].
  destruct (strings.space2 b a).
  { destruct (IH r) as [p Hp]; [cbn; lia|].
    exists (String a (String b p)). sapp. now rewrite <- Hp. }
  destruct r as [|c r]; [exists ""; reflexivity|].
  destruct (strings.space3 c b a); [|exists ""; reflexivity].
  destruct (IH r) as [p Hp]; [cbn; lia|].
  exists (String a (String b (String c p))). sapp. now rewrite <- Hp.
Qed.

Lemma trimRight_prefix t : exists q, t = strings.trimRight t +:+ q.
Proof.
  unfold strings.trimRight.
  destruct (trimLeft_rev_suffix (String.rev t)) as [p Hp].
  exists (String.rev p).
  rewrite <- rev_app_str, <- Hp. now rewrite str_rev_involutive.
Qed.

Lemma trimRight_idem t :
  strings.trimRight (strings.trimRight t) = strings.trimRight t.
Proof.
  unfold strings.trimRight. now rewrite str_rev_involutive, trimLeft_rev_idem.
Qed.

(** A text that does not start with white space has no prefix that
    does. *)
Lemma trimLeft_fixed_prefix r q :
  strings.trimLeft (r +:+ q) = r +:+ q -> strings.trimLeft r = r.
Proof.
  assert (Hshort : forall u v : string,
            (String.length u < String.length v)%nat -> strings.trimLeft u <> v).
  { intros u v Hl He. pose proof (trimLeft_length u). rewrite He in *. lia. }
  destruct r as [|a r]; [reflexivity|]. sapp. rewrite !(trimLeft_cons a).
  destruct (strings.asciiSpace a).
  { intros Ht. exfalso. revert Ht. apply Hshort. cbn. lia. }
  destruct r as [|b r]; [reflexivity|]. sapp.
  destruct (strings.space2 a b).
  { intros Ht. exfalso. revert Ht. apply Hshort. cbn. lia. }
  destruct r as [|c r]; [reflexivity|]. sapp.
  destruct (strings.space3 a b c); [|reflexivity].
  intros Ht. exfalso. revert Ht. apply Hshort. cbn. lia.
Qed.

(** Trimming what is trimmed changes nothing. *)
Lemma TrimSpace_idem s :
  strings.TrimSpace (strings.TrimSpace s) = strings.TrimSpace s.
Proof.
  unfold strings.TrimSpace.
  set (t := strings.trimLeft s).
  destruct (trimRight_prefix t) as [q Hq].
  assert (Hl : strings.trimLeft (strings.trimRight t) = strings.trimRight t).
  { apply trimLeft_fixed_prefix with q. rewrite <- Hq. apply trimLeft_idem. }
  rewrite Hl. apply trimRight_idem.
Qed.

Lemma trimLeft_plain c r :
  plain c = true -> strings.trimLeft (String c r) = String c r.
Proof.
  intros Hc. rewrite trimLeft_cons, (plain_space c Hc).
  destruct r as [|b r]; [reflexivity|]. rewrite (plain_lead2 c b Hc).
  destruct r as [|d r]; [reflexivity|]. now rewrite (plain_lead3 c b d Hc).
Qed.

Lemma trimLeft_rev_plain c y :
  plain c = true ->
  strings.trimLeft_rev (y +:+ String c "")
  = strings.trimLeft_rev y +:+ String c "".
Proof.
  intros Hc. induction y as [y IH] using string_lt_ind.
  destruct y as [|a r]; sapp.
  { rewrite trimLeft_rev_cons. now rewrite (plain_space c Hc). }
  rewrite !(trimLeft_rev_cons a).
  destruct (strings.asciiSpace a); [apply IH; cbn; lia|].
  destruct r as [|b r]; sapp; [now rewrite (plain_lead2 c a Hc)|].
  destruct (strings.space2 b a); [apply IH; cbn; lia|].
  destruct r as [|d r]; sapp; [now rewrite (plain_lead3 c b a Hc)|].
  destruct (strings.space3 d b a); [|reflexivity].
  apply IH. cbn; lia.
Qed.

Lemma trimRight_plain c r :
  plain c = true ->
  strings.trimRight (String c r) = String c (strings.trimRight r).
Proof.
  intros Hc. unfold strings.trimRight.
  rewrite str_rev_cons, trimLeft_rev_plain by assumption.
  rewrite rev_app_str. reflexivity.
Qed.

Lemma TrimSpace_plain c r :
  plain c = true ->
  strings.TrimSpace (String c r) = String c (strings.trimRight r).
Proof.
  intros Hc. unfold strings.TrimSpace.
  now rewrite trimLeft_plain, trimRight_plain.
Qed.


(** ** The filters of validate.go *)

Section FiltersFacts.
Context `{GoLib}.

Lemma filterValidLines_loop_out key lines : forall idx out err,
  fst (filterValidLines_loop key idx lines out err)
  = out ++ List.filter accepted (map strings.TrimSpace lines).
Proof.
  induction lines as [|raw rest IH]; intros idx out err.
  - cbn. now rewrite app_nil_r.
  - cbn [filterValidLines_loop map List.filter].
    replace (accepted (strings.TrimSpace raw))
      with (negb (String.eqb (strings.TrimSpace raw) "")
            && match validateLine (strings.TrimSpace raw) with
               | None => true
               | Some _ => false
               end) by reflexivity.
    destruct (String.eqb (strings.TrimSpace raw) ""); cbn [negb andb];
      [apply IH|].
    destruct (validateLine (strings.TrimSpace raw)); [apply IH|].
    rewrite IH, <- app_assoc. reflexivity.
Qed.

Lemma filterValidLines_out lines key :
  fst (filterValidLines lines key)
  = List.filter accepted (map strings.TrimSpace lines).
Proof. unfold filterValidLines. now rewrite filterValidLines_loop_out. Qed.

Lemma accepted_trimmed raw :
  accepted (strings.TrimSpace raw) = true ->
  accepted (strings.TrimSpace (strings.TrimSpace raw)) = true.
Proof. now rewrite TrimSpace_idem. Qed.

Lemma filterValidLines_loop_count key lines : forall idx out err,
  let r := filterValidLines_loop key idx lines out err in
  (length (fst r) + length (snd r)
   = length out + length err
     + length (List.filter (fun raw => negb (blank raw)) lines))%nat.
Proof.
  induction lines as [|raw rest IH]; intros idx out err; cbv zeta.
  - cbn. lia.
  - cbn [filterValidLines_loop List.filter]. unfold blank at 1.
    destruct (String.eqb (strings.TrimSpace raw) ""); cbn [negb]; [apply IH|].
    destruct (validateLine (strings.TrimSpace raw)).
    + rewrite (IH (idx + 1) out). rewrite length_app. cbn [length]. lia.
    + rewrite (IH (idx + 1)). rewrite length_app. cbn [length]. lia.
Qed.

Lemma filterValidLines_loop_err key (all lines : list string) : forall idx out err,
  0 <= idx ->
  (forall j raw, lines !! j = Some raw ->
                 all !! (Z.to_nat idx + j)%nat = Some raw) ->
  Forall (fun p => exists i raw e,
            p = skipped key i e /\ 0 <= i /\ all !! Z.to_nat i = Some raw
            /\ strings.TrimSpace raw <> ""
            /\ validateLine (strings.TrimSpace raw) = Some e) err ->
  Forall (fun p => exists i raw e,
            p = skipped key i e /\ 0 <= i /\ all !! Z.to_nat i = Some raw
            /\ strings.TrimSpace raw <> ""
            /\ validateLine (strings.TrimSpace raw) = Some e)
    (snd (filterValidLines_loop key idx lines out err)).
Proof.
  induction lines as [|raw rest IH]; intros idx out err Hidx Hall Herr.
  - exact Herr.
  - assert (Hrest : forall j raw0, rest !! j = Some raw0 ->
              all !! (Z.to_nat (idx + 1) + j)%nat = Some raw0).
    { intros j raw0 Hj.
      replace (Z.to_nat (idx + 1) + j)%nat with (Z.to_nat idx + S j)%nat by lia.
      now apply Hall. }
    cbn [filterValidLines_loop].
    destruct (String.eqb_spec (strings.TrimSpace raw) "") as [Hb|Hb];
      [apply IH; auto; lia|].
    destruct (validateLine (strings.TrimSpace raw)) as [e|] eqn:Hv;
      [|apply IH; auto; lia].
    apply IH; [lia|assumption|].
    apply Forall_app. split; [assumption|].
    constructor; [|constructor].
    exists idx, raw, e. repeat split; auto.
    specialize (Hall 0%nat raw eq_refl).
    now rewrite Nat.add_0_r in Hall.
Qed.

End FiltersFacts.

Lemma filterValidLines_keeps_valid_lemma `{GoLib} (lines : list string) (key : string) :
  let out := fst (filterValidLines lines key) in
  (forall l, l ∈ out ->
     validateLine l = None /\ l <> "" /\ strings.TrimSpace l = l
     /\ exists raw, raw ∈ lines /\ l = strings.TrimSpace raw)
  /\ (forall raw, raw ∈ lines -> strings.TrimSpace raw <> "" ->
        validateLine (strings.TrimSpace raw) = None ->
        strings.TrimSpace raw ∈ out)
  /\ sublist out (strings.TrimSpace <$> lines).
Proof.
  cbv zeta. rewrite filterValidLines_out. split; [|split].
  - intros l Hl. apply list_elem_of_In, filter_In in Hl as [Hin Ha].
    unfold accepted in Ha. apply andb_true_iff in Ha as [Hne Hv].
    apply in_map_iff in Hin as (raw & <- & Hraw).
    split; [now destruct (validateLine (strings.TrimSpace raw))|].
    split; [intros He; rewrite He in Hne; discriminate|].
    split; [apply TrimSpace_idem|].
    exists raw. split; [now apply list_elem_of_In|reflexivity].
  - intros raw Hraw Hb Hv. apply list_elem_of_In, filter_In. split.
    + apply in_map. now apply list_elem_of_In.
    + unfold accepted. rewrite Hv, andb_true_r.
      now destruct (String.eqb_spec (strings.TrimSpace raw) "").
  - change (strings.TrimSpace <$> lines) with (map strings.TrimSpace lines).
    generalize (map strings.TrimSpace lines). intros l.
    induction l as [|x l IH]; cbn [List.filter]; [constructor|].
    destruct (accepted x); now constructor.
Qed.

(** X1.  [filterValidLines] keeps exactly the valid lines: every line it
    returns is not empty, is its own white-space trim, is the trim of
    an input line and passes [validateLine]; every input line whose trim
    is not empty and passes [validateLine] has its trim in the result;
    and the result follows the order of the input. *)
Theorem filterValidLines_keeps_valid (L : GoLib) (lines : list string) (key : string) :
  let out := fst (filterValidLines lines key) in
  (forall l, l ∈ out ->
     validateLine l = None /\ l <> "" /\ strings.TrimSpace l = l
     /\ exists raw, raw ∈ lines /\ l = strings.TrimSpace raw)
  /\ (forall raw, raw ∈ lines -> strings.TrimSpace raw <> "" ->
        validateLine (strings.TrimSpace raw) = None ->
        strings.TrimSpace raw ∈ out)
  /\ sublist out (strings.TrimSpace <$> lines).
Proof. apply filterValidLines_keeps_valid_lemma. Qed.

(** X2.  [filterValidLines] is idempotent: run on its own result (with
    any key) it returns that result and writes nothing to [os.Stderr]. *)
Theorem filterValidLines_idempotent (L : GoLib) (lines : list string) (key key' : string) :
  filterValidLines (fst (filterValidLines lines key)) key'
  = (fst (filterValidLines lines key), []).
Proof.
  rewrite filterValidLines_out.
  assert (Hall : Forall (fun l => strings.TrimSpace l = l /\ accepted l = true)
            (List.filter accepted (map strings.TrimSpace lines))).
  { apply Forall_forall. intros l Hl.
    apply list_elem_of_In, filter_In in Hl as [Hin Ha]. split; [|assumption].
    apply in_map_iff in Hin as (raw & <- & _). apply TrimSpace_idem. }
  revert Hall. generalize (List.filter accepted (map strings.TrimSpace lines)).
  intros out Hall. unfold filterValidLines.
  assert (Hgen : forall idx pre,
            filterValidLines_loop key' idx out pre [] = (pre ++ out, [])).
  { induction Hall as [|l rest [Ht Ha] _ IH]; intros idx pre.
    - cbn. now rewrite app_nil_r.
    - cbn [filterValidLines_loop]. rewrite Ht.
      unfold accepted in Ha. apply andb_true_iff in Ha as [Hne Hv].
      destruct (String.eqb l ""); [discriminate|].
      destruct (validateLine l); [discriminate|].
      rewrite IH, <- app_assoc. reflexivity. }
  apply (Hgen 0 []).
Qed.

(** X3.  [filterValidLines] accounts for every line that is not blank:
    the lines kept and the reports written to [os.Stderr] are together
    as many as the input lines whose trim is not empty, and each report
    carries the key, the index of an input line and the error that
    [validateLine] gives for the trim of that line. *)
Theorem filterValidLines_reports (L : GoLib) (lines : list string) (key : string) :
  let '(out, stderr) := filterValidLines lines key in
  (length out + length stderr
   = length (List.filter (fun raw => negb (blank raw)) lines))%nat
  /\ forall p, p ∈ stderr ->
       exists i raw e,
         p = skipped key i e /\ 0 <= i /\ lines !! Z.to_nat i = Some raw
         /\ strings.TrimSpace raw <> ""
         /\ validateLine (strings.TrimSpace raw) = Some e.
Proof.
  pose proof (filterValidLines_loop_count key lines 0 [] []) as Hc.
  pose proof (filterValidLines_loop_err key lines lines 0 [] []) as He.
  unfold filterValidLines.
  destruct (filterValidLines_loop key 0 lines [] []) as [out stderr].
  cbv zeta in Hc. cbn [fst snd length] in *. split; [lia|].
  intros p Hp.
  assert (Hall : Forall (fun p => exists i raw e,
            p = skipped key i e /\ 0 <= i /\ lines !! Z.to_nat i = Some raw
            /\ strings.TrimSpace raw <> ""
            /\ validateLine (strings.TrimSpace raw) = Some e) stderr).
  { apply He; [lia|auto|constructor]. }
  rewrite Forall_forall in Hall. now apply Hall.
Qed.


Section ReportFacts.
Context `{GoLib} `{Fmt}.

Lemma validateLines_loop_length key lines : forall idx problems out err,
  (length (validateLines_loop idx lines problems) + length err
   = length problems
     + length (snd (filterValidLines_loop key idx lines out err)))%nat.
Proof.
  induction lines as [|raw rest IH]; intros idx problems out err.
  - cbn. lia.
  - cbn [validateLines_loop filterValidLines_loop].
    destruct (String.eqb (strings.TrimSpace raw) ""); [apply IH|].
    destruct (validateLine (strings.TrimSpace raw)) as [e|]; [|apply IH].
    match goal with
    | |- (length (validateLines_loop _ _ ?ps) + _ = _
          + length (snd (filterValidLines_loop _ _ _ _ ?es)))%nat =>
        pose proof (IH (idx + 1) ps out es) as Hs
    end.
    rewrite !length_app in Hs. cbn [length] in Hs. lia.
Qed.

End ReportFacts.

(** X4.  [validateLines] and [filterValidLines] agree: [validateLines]
    returns [nil] exactly when [filterValidLines] reports no line, and
    the error it returns otherwise names the key and counts as many bad
    lines as [filterValidLines] reports. *)
Theorem validateLines_agrees (L : GoLib) (F : Fmt) (lines : list string) (key : string) :
  (validateLines lines key = None <-> snd (filterValidLines lines key) = [])
  /\ forall e, validateLines lines key = Some e ->
       exists text,
         e = Errorf ("validation failed for key %q (%d bad lines):"
                     +:+ String "010" "%s")
               [Astr key;
                Aint (Z.of_nat (length (snd (filterValidLines lines key))));
                Astr text].
Proof.
  pose proof (validateLines_loop_length key lines 0 [] [] []) as Hl.
  unfold validateLines, filterValidLines. cbv zeta.
  cbn [length] in Hl. rewrite Nat.add_0_r in Hl. cbn [Nat.add] in Hl.
  rewrite <- Hl.
  destruct (Z.eqb_spec (Z.of_nat (length (validateLines_loop 0 lines []))) 0)
    as [Hz|Hz].
  - split; [|discriminate]. split; [|reflexivity]. intros _.
    apply nil_length_inv. lia.
  - split.
    + split; [discriminate|]. intros He. rewrite He in Hl. cbn in Hl. lia.
    + intros e [= <-]. eauto.
Qed.

(** ** Removing duplicates *)

Lemma seen_nothing (x : string) :
  x ∈ (∅ : gset string) <-> x ∈ ([] : list string).
Proof.
  split; intros Hx; [now apply not_elem_of_empty in Hx|inversion Hx].
Qed.

Lemma dedupe_body_inv seen out s :
  (forall x, x ∈ seen <-> x ∈ out) -> NoDup out ->
  let '(seen', out') := dedupe_body (seen, out) s in
  (forall x, x ∈ seen' <-> x ∈ out') /\ NoDup out'
  /\ out' = out ++ (if String.eqb (strings.TrimSpace s) ""
                    then []
                    else if bool_decide (strings.TrimSpace s ∈ out) then []
                         else [strings.TrimSpace s]).
Proof.
  intros Hseen Hnd. unfold dedupe_body.
  destruct (String.eqb (strings.TrimSpace s) "").
  { now rewrite app_nil_r. }
  rewrite (bool_decide_ext _ _ (Hseen (strings.TrimSpace s))).
  destruct (bool_decide_reflect (strings.TrimSpace s ∈ out)) as [Hin|Hin].
  { now rewrite app_nil_r. }
  split; [|split; [|reflexivity]].
  - intros x. rewrite elem_of_union, elem_of_singleton, elem_of_app,
      list_elem_of_singleton, Hseen. tauto.
  - apply NoDup_app. split; [assumption|]. split; [|apply NoDup_singleton].
    intros x Hx Hx'. apply list_elem_of_singleton in Hx' as ->. contradiction.
Qed.

Lemma dedupe_fold_inv l : forall seen out,
  (forall x, x ∈ seen <-> x ∈ out) -> NoDup out ->
  let '(seen', out') := fold_left dedupe_body l (seen, out) in
  (forall x, x ∈ seen' <-> x ∈ out') /\ NoDup out'.
Proof.
  induction l as [|s l IH]; intros seen out Hseen Hnd; [now cbn|].
  cbn [fold_left].
  pose proof (dedupe_body_inv seen out s Hseen Hnd) as Hb.
  destruct (dedupe_body (seen, out) s) as [seen1 out1].
  destruct Hb as (Hseen1 & Hnd1 & _). now apply IH.
Qed.

(** From any state of the loop, the slice grows by the entries of the
    result of [dedupe] that it does not hold yet. *)
Lemma dedupe_from l : forall seen out,
  (forall x, x ∈ seen <-> x ∈ out) -> NoDup out ->
  snd (fold_left dedupe_body l (seen, out))
  = out ++ filter (fun x => x ∉ out) (dedupe l).
Proof.
  unfold dedupe.
  induction l as [|s l IH] using rev_ind; intros seen out Hseen Hnd.
  - cbn. now rewrite app_nil_r.
  - rewrite !fold_left_app. cbn [fold_left].
    specialize (IH seen out Hseen Hnd).
    pose proof (dedupe_fold_inv l seen out Hseen Hnd) as Hl.
    pose proof (dedupe_fold_inv l ∅ []) as Hr.
    destruct (fold_left dedupe_body l (seen, out)) as [seen1 out1].
    destruct (fold_left dedupe_body l (∅, [])) as [seen2 out2].
    cbn [snd] in IH. destruct Hl as [Hs1 Hn1].
    destruct Hr as [Hs2 Hn2]; [apply seen_nothing|constructor|].
    pose proof (dedupe_body_inv seen1 out1 s Hs1 Hn1) as Hb1.
    pose proof (dedupe_body_inv seen2 out2 s Hs2 Hn2) as Hb2.
    destruct (dedupe_body (seen1, out1) s) as [seen1' out1'].
    destruct (dedupe_body (seen2, out2) s) as [seen2' out2'].
    destruct Hb1 as (_ & _ & ->). destruct Hb2 as (_ & _ & ->). cbn [snd].
    set (k := strings.TrimSpace s).
    destruct (String.eqb k "").
    { now rewrite !app_nil_r. }
    rewrite filter_app, IH.
    destruct (bool_decide_reflect (k ∈ out ++ filter (fun x => x ∉ out) out2))
      as [Hin|Hin];
      destruct (bool_decide_reflect (k ∈ out2)) as [Hin2|Hin2].
    + now rewrite filter_nil, !app_nil_r.
    + rewrite app_nil_r. rewrite filter_cons_False, filter_nil, app_nil_r;
        [reflexivity|].
      apply elem_of_app in Hin as [Hin|Hin]; [auto|].
      apply list_elem_of_filter in Hin as [_ Hin]. contradiction.
    + exfalso. apply Hin. apply elem_of_app.
      destruct (decide (k ∈ out)); [now left|right].
      now apply list_elem_of_filter.
    + rewrite filter_cons_True, filter_nil, app_assoc; [reflexivity|].
      intros Hk. apply Hin. apply elem_of_app. now left.
Qed.

Lemma dedupe_inv l :
  (forall x, x ∈ fst (fold_left dedupe_body l (∅, [])) <-> x ∈ dedupe l)
  /\ NoDup (dedupe l).
Proof.
  unfold dedupe.
  pose proof (dedupe_fold_inv l ∅ []) as Hr.
  destruct (fold_left dedupe_body l (∅, [])) as [seen out].
  apply Hr; [apply seen_nothing|constructor].
Qed.

Lemma dedupe_app l1 l2 :
  dedupe (l1 ++ l2)
  = dedupe l1 ++ filter (fun x => x ∉ dedupe l1) (dedupe l2).
Proof.
  destruct (dedupe_inv l1) as [Hs Hn].
  unfold dedupe at 1. rewrite fold_left_app.
  rewrite (surjective_pairing (fold_left dedupe_body l1 (∅, []))).
  now apply (dedupe_from l2 (fst (fold_left dedupe_body l1 (∅, [])))
               (dedupe l1)).
Qed.

Lemma dedupe_one s :
  dedupe [s] = if String.eqb (strings.TrimSpace s) "" then []
               else [strings.TrimSpace s].
Proof.
  unfold dedupe. cbn [fold_left dedupe_body].
  destruct (String.eqb (strings.TrimSpace s) ""); [reflexivity|].
  rewrite bool_decide_eq_false_2 by apply not_elem_of_empty. reflexivity.
Qed.

Lemma dedupe_elem_of l x :
  x ∈ dedupe l <-> x <> "" /\ exists s, s ∈ l /\ strings.TrimSpace s = x.
Proof.
  induction l as [|s l IH] using rev_ind.
  - cbn. split; [intros Hx; inversion Hx|].
    intros (_ & s & Hs & _). inversion Hs.
  - rewrite dedupe_app, dedupe_one, elem_of_app, IH. split.
    + intros [(Hne & s' & Hs' & Hx)|Hx].
      * split; [assumption|]. exists s'. split; [|assumption].
        apply elem_of_app. now left.
      * apply list_elem_of_filter in Hx as [_ Hx].
        destruct (String.eqb_spec (strings.TrimSpace s) "") as [Hb|Hb];
          [inversion Hx|].
        apply list_elem_of_singleton in Hx as ->.
        split; [assumption|]. exists s. split; [|reflexivity].
        apply elem_of_app. right. now apply list_elem_of_singleton.
    + intros (Hne & s' & Hs' & Hx).
      apply elem_of_app in Hs' as [Hs'|Hs']; [left; eauto|].
      apply list_elem_of_singleton in Hs' as ->.
      destruct (decide (x ∈ dedupe l)) as [Hin|Hin].
      * left. now apply IH.
      * right. apply list_elem_of_filter. split; [assumption|].
        rewrite Hx. destruct (String.eqb_spec x "") as [Hb|Hb];
          [contradiction|].
        now apply list_elem_of_singleton.
Qed.

(** X5.  The result of [dedupe] has no duplicate, and its elements are
    the non-empty white-space trims of the input lines. *)
Theorem dedupe_set (lines : list string) :
  NoDup (dedupe lines)
  /\ forall x, x ∈ dedupe lines
       <-> x <> "" /\ exists s, s ∈ lines /\ strings.TrimSpace s = x.
Proof. split; [apply dedupe_inv|apply dedupe_elem_of]. Qed.

(** X6.  [dedupe] keeps first occurrences, in order: the result for a
    concatenation is the result for the first list followed by those
    entries of the result for the second list that are not already
    there. *)
Theorem dedupe_first_occurrences (l1 l2 : list string) :
  dedupe (l1 ++ l2)
  = dedupe l1 ++ filter (fun x => x ∉ dedupe l1) (dedupe l2).
Proof. apply dedupe_app. Qed.

Lemma dedupe_fixed D :
  NoDup D -> Forall (fun x => strings.TrimSpace x = x /\ x <> "") D ->
  dedupe D = D.
Proof.
  induction D as [|x D IH] using rev_ind; intros Hnd Hall; [reflexivity|].
  apply NoDup_app in Hnd as (Hnd & Hx & _).
  apply Forall_app in Hall as [Hall Hx'].
  apply Forall_singleton in Hx' as [Ht Hne].
  rewrite dedupe_app, dedupe_one, IH, Ht by assumption.
  destruct (String.eqb_spec x "") as [Hb|Hb]; [contradiction|].
  rewrite filter_cons_True, filter_nil; [reflexivity|].
  intros Hin. apply (Hx x Hin). now apply list_elem_of_singleton.
Qed.

(** X7.  [dedupe] is idempotent. *)
Theorem dedupe_idempotent (lines : list string) :
  dedupe (dedupe lines) = dedupe lines.
Proof.
  apply dedupe_fixed; [apply dedupe_inv|].
  apply Forall_forall. intros x Hx.
  apply dedupe_elem_of in Hx as (Hne & s & _ & <-).
  split; [apply TrimSpace_idem|assumption].
Qed.


(** ** The probe: what is reported, and how often *)

Section ProbeCount.
Context `{GoLib}.
Variable lines : list string.

Lemma carried_insert ws w w0 w1 :
  ws !! w = Some w0 ->
  carried (<[w := w1]> ws) ++ carried [w0] ≡ₚ carried ws ++ carried [w1].
Proof.
  intros Hw. unfold carried.
  rewrite <- (take_drop_middle ws w w0 Hw) at 2.
  rewrite insert_take_drop by (now apply lookup_lt_Some in Hw).
  rewrite !flat_map_app. cbn [flat_map]. rewrite !app_nil_r.
  rewrite <- !app_assoc.
  apply Permutation_app_head.
  etransitivity; [apply Permutation_app_comm|].
  rewrite !app_assoc. apply Permutation_app_tail, Permutation_app_comm.
Qed.

Lemma sent_next i raw :
  0 <= i -> lines !! Z.to_nat i = Some raw ->
  sent lines (Feeding (i + 1)) = sent lines (Feeding i) ++ [strings.TrimSpace raw].
Proof.
  intros Hi Hraw. unfold sent.
  replace (Z.to_nat (i + 1)) with (S (Z.to_nat i)) by lia.
  rewrite (take_S_r _ _ _ Hraw), fmap_app. reflexivity.
Qed.

Lemma pool_count_start maxConcurrent : pool_count lines (start maxConcurrent).
Proof.
  pose proof (limit_bounds lines) as Hlim.
  unfold pool_count, start. cbn [feed workers reachable]. split; [lia|].
  assert (Hc : forall n, carried (replicate n Waiting) = []).
  { induction n; [reflexivity|assumption]. }
  rewrite Hc. apply submseteq_nil_l.
Qed.

Lemma carried_swap ws w w0 w1 :
  ws !! w = Some w0 -> carried [w0] = carried [w1] ->
  carried (<[w := w1]> ws) ≡ₚ carried ws.
Proof.
  intros Hw He. pose proof (carried_insert ws w w0 w1 Hw) as Hp.
  rewrite He in Hp. now apply Permutation_app_inv_r in Hp.
Qed.

Lemma carried_take ws w it w0 :
  ws !! w = Some Waiting -> carried [w0] = [line it] ->
  carried (<[w := w0]> ws) ≡ₚ carried ws ++ [line it].
Proof.
  intros Hw He. pose proof (carried_insert ws w Waiting w0 Hw) as Hp.
  rewrite He in Hp. cbn in Hp. now rewrite app_nil_r in Hp.
Qed.

Lemma carried_drop ws w it w0 :
  ws !! w = Some w0 -> carried [w0] = [line it] ->
  carried (<[w := Waiting]> ws) ++ [line it] ≡ₚ carried ws.
Proof.
  intros Hw He. pose proof (carried_insert ws w w0 Waiting Hw) as Hp.
  rewrite He in Hp. cbn in Hp. now rewrite app_nil_r in Hp.
Qed.

Lemma pool_count_step p q :
  step lines p q -> pool_count lines p -> pool_count lines q.
Proof.
  unfold pool_count. intros Hs [Hf Hc].
  destruct Hs; cbn [feed workers reachable] in *.
  - split; [lia|]. rewrite (sent_next i raw) by (assumption || lia).
    now apply submseteq_inserts_r.
  - split; [lia|]. rewrite (sent_next i raw) by (assumption || lia).
    rewrite (carried_take ws w (Build_item i (strings.TrimSpace raw)))
      by (assumption || reflexivity).
    rewrite app_assoc. cbn [line]. now apply submseteq_skips_r.
  - split; [exact I|]. unfold sent in Hc |- *.
    replace (limit lines) with i by lia. exact Hc.
  - split; [assumption|].
    rewrite <- (carried_drop ws w it (Got it)) in Hc
      by (assumption || reflexivity).
    etransitivity; [|exact Hc].
    apply submseteq_skips_l, submseteq_inserts_r. reflexivity.
  - split; [assumption|].
    rewrite <- (carried_drop ws w it (Got it)) in Hc
      by (assumption || reflexivity).
    etransitivity; [|exact Hc].
    apply submseteq_skips_l, submseteq_inserts_r. reflexivity.
  - split; [assumption|].
    now rewrite (carried_swap ws w (Got it) (Dialed it))
      by (assumption || reflexivity).
  - split; [assumption|].
    rewrite <- (carried_drop ws w it (Dialed it)) in Hc
      by (assumption || reflexivity).
    now rewrite <- app_assoc, (Permutation_app_comm [line it]).
  - split; [assumption|].
    now rewrite (carried_swap ws w Waiting Exited)
      by (assumption || reflexivity).
Qed.

Lemma pool_count_rtc p q :
  rtc (step lines) p q -> pool_count lines p -> pool_count lines q.
Proof.
  induction 1 as [|p q r Hpq _ IH]; [auto|].
  intros Hp. apply IH. now apply pool_count_step with p.
Qed.

Lemma pool_count_reached maxConcurrent p :
  rtc (step lines) (start maxConcurrent) p -> pool_count lines p.
Proof.
  intros Hr. eapply pool_count_rtc; [eassumption|apply pool_count_start].
Qed.

Lemma carried_exited ws : Forall (fun w => w = Exited) ws -> carried ws = [].
Proof.
  induction 1 as [|w ws -> _ IH]; [reflexivity|]. exact IH.
Qed.

Lemma take_limit : take (Z.to_nat (limit lines)) lines = take 1000 lines.
Proof.
  unfold limit, maxToTest.
  destruct (Z.ltb_spec 1000 (Z.of_nat (length lines))) as [Hl|Hl].
  - reflexivity.
  - rewrite !take_ge by lia. reflexivity.
Qed.

Lemma filterReachableLines_count timeout maxConcurrent res :
  filterReachableLines lines timeout maxConcurrent res ->
  res ⊆+ strings.TrimSpace <$> take 1000 lines.
Proof.
  intros (p & Hrun & Hfin & ->).
  apply pool_count_reached in Hrun as [Hf Hc].
  rewrite (carried_exited _ Hfin), app_nil_r in Hc.
  etransitivity; [exact Hc|].
  unfold sent. rewrite <- take_limit.
  apply sublist_submseteq, fmap_sublist.
  destruct (feed p) as [i|]; [|reflexivity].
  replace (Z.to_nat i) with (Z.to_nat i `min` Z.to_nat (limit lines))%nat by lia.
  rewrite <- take_take. apply sublist_take.
Qed.

End ProbeCount.

(** X8.  [filterReachableLines] reports each line at most as many times
    as it is sent: its result is, up to order, a sub-multiset of the
    trimmed first 1000 input lines.  So it has at most 1000 lines, no
    more lines than the input, and no duplicate when the trimmed input
    has none. *)
Theorem filterReachableLines_at_most_once
  (L : GoLib) (lines : list string) (timeout maxConcurrent : Z)
  (res : list string) :
  filterReachableLines lines timeout maxConcurrent res ->
  res ⊆+ strings.TrimSpace <$> take 1000 lines
  /\ (length res <= 1000)%nat /\ (length res <= length lines)%nat
  /\ (NoDup (strings.TrimSpace <$> lines) -> NoDup res).
Proof.
  intros Hres. apply filterReachableLines_count in Hres.
  split; [assumption|].
  pose proof (submseteq_length _ _ Hres) as Hlen.
  rewrite length_fmap, length_take in Hlen.
  split; [lia|]. split; [lia|].
  intros Hnd.
  apply submseteq_sublist_r in Hres as (k & Hperm & Hsub).
  rewrite Hperm. eapply sublist_NoDup; [|exact Hsub].
  eapply sublist_NoDup; [exact Hnd|].
  apply fmap_sublist, sublist_take.
Qed.


Lemma filterReachableLines_at_most_once_witness :
  ["vless://u@1.2.3.4:443"]
    ⊆+ strings.TrimSpace <$> take 1000 [" vless://u@1.2.3.4:443"]
  /\ (length ["vless://u@1.2.3.4:443"] <= 1000)%nat
  /\ (length ["vless://u@1.2.3.4:443"] <= length [" vless://u@1.2.3.4:443"])%nat
  /\ (NoDup (strings.TrimSpace <$> [" vless://u@1.2.3.4:443"]) ->
      NoDup ["vless://u@1.2.3.4:443"]).
Proof.
  exact (filterReachableLines_at_most_once golib
           [" vless://u@1.2.3.4:443"] 2000000000 1
           ["vless://u@1.2.3.4:443"] probe_one_line).
Defined.

Section ProbeDialed.
Context `{GoLib}.
Variable lines : list string.

Lemma extractHostPort_trim l :
  extractHostPort (strings.TrimSpace l) = extractHostPort l.
Proof. unfold extractHostPort. now rewrite TrimSpace_idem. Qed.

Lemma dialable_trim l : dialable (strings.TrimSpace l) = dialable l.
Proof. unfold dialable. now rewrite extractHostPort_trim. Qed.

Lemma target_dialable it :
  dialable (line it) = true <-> exists addr, target it = Some addr.
Proof.
  unfold dialable, target.
  destruct (extractHostPort (line it)) as [[host port]|e].
  - destruct (String.eqb host ""); cbn [negb andb orb].
    + split; [discriminate|]. intros [addr [=]].
    + destruct (port =? 0); cbn [negb].
      * split; [discriminate|]. intros [addr [=]].
      * split; eauto.
  - split; [discriminate|]. intros [addr [=]].
Qed.

Lemma target_endpoint it addr :
  target it = Some addr ->
  exists host port,
    extractHostPort (line it) = Ok (host, port) /\ host <> "" /\ port <> 0
    /\ addr = JoinHostPort host (Itoa port).
Proof.
  unfold target.
  destruct (extractHostPort (line it)) as [[host port]|e]; [|discriminate].
  destruct (String.eqb_spec host ""); cbn [orb]; [discriminate|].
  destruct (Z.eqb_spec port 0); [discriminate|].
  intros [= <-]. eauto 6.
Qed.

Lemma pool_dialed_step p q : step lines p q -> pool_dialed p -> pool_dialed q.
Proof.
  unfold pool_dialed. intros Hs [Hw Hr].
  destruct Hs; cbn [workers reachable dials] in *.
  - auto.
  - split; [|assumption]. now apply Forall_insert.
  - auto.
  - split; [|assumption]. now apply Forall_insert.
  - split.
    + apply Forall_insert; [|exact I].
      eapply Forall_impl; [exact Hw|]. intros [| | |] Hx; auto.
      destruct Hx as (a & Ha & Hin). exists a. split; [assumption|].
      apply elem_of_app. now left.
    + eapply Forall_impl; [exact Hr|].
      intros r0 (it0 & a & -> & Ha & Hin). exists it0, a.
      repeat split; auto. apply elem_of_app. now left.
  - split.
    + apply Forall_insert.
      * eapply Forall_impl; [exact Hw|]. intros [| | |] Hx; auto.
        destruct Hx as (a & Ha & Hin). exists a. split; [assumption|].
        apply elem_of_app. now left.
      * exists addr. split; [assumption|]. apply elem_of_app. right.
        now apply list_elem_of_singleton.
    + eapply Forall_impl; [exact Hr|].
      intros r0 (it0 & a & -> & Ha & Hin). exists it0, a.
      repeat split; auto. apply elem_of_app. now left.
  - pose proof (Forall_lookup_1 _ _ _ _ Hw H0) as Hit. cbn in Hit.
    split; [now apply Forall_insert|].
    apply Forall_app. split; [assumption|].
    constructor; [|constructor].
    destruct Hit as (a & Ha & Hin). eauto.
  - split; [|assumption]. now apply Forall_insert.
Qed.

Lemma pool_dialed_rtc p q : rtc (step lines) p q -> pool_dialed p -> pool_dialed q.
Proof.
  induction 1 as [|p q r Hpq _ IH]; [auto|].
  intros Hp. apply IH. now apply pool_dialed_step with p.
Qed.

Lemma pool_dialed_reached maxConcurrent p :
  rtc (step lines) (start maxConcurrent) p -> pool_dialed p.
Proof.
  intros Hr. eapply pool_dialed_rtc; [eassumption|].
  unfold pool_dialed, start. cbn. split; [|constructor].
  apply Forall_replicate. exact I.
Qed.

End ProbeDialed.

(** X9.  In every state that [filterReachableLines] reaches, each line
    of [reachable] is the line of an item whose endpoint was extracted
    with a non-empty host and a port other than 0, and
    [net.DialTimeout] was called for that item on the address joined
    from that host and port. *)
Theorem reachable_after_dial
  (L : GoLib) (lines : list string) (maxConcurrent : Z) (p : pool) :
  rtc (step lines) (start maxConcurrent) p ->
  forall r, r ∈ reachable p ->
    exists it host port,
      r = line it /\ extractHostPort r = Ok (host, port)
      /\ host <> "" /\ port <> 0
      /\ (it, JoinHostPort host (Itoa port)) ∈ dials p.
Proof.
  intros Hrun r Hr. apply pool_dialed_reached in Hrun as [_ Hall].
  rewrite Forall_forall in Hall.
  destruct (Hall r Hr) as (it & addr & -> & Ht & Hin).
  apply target_endpoint in Ht as (host & port & He & Hh & Hp & ->).
  exists it, host, port. auto.
Qed.

(** The run of [probe_one_line], with its pool. *)
Lemma probe_one_line_run :
  rtc (step [" vless://u@1.2.3.4:443"]) (start 1)
    (Build_pool Closed [Exited] ["vless://u@1.2.3.4:443"]
       [(Build_item 0 "vless://u@1.2.3.4:443", "1.2.3.4:443")]).
Proof.
  set (it := Build_item 0 "vless://u@1.2.3.4:443").
  eapply rtc_l.
  { apply (feed_send _ 0 " vless://u@1.2.3.4:443" 0%nat);
      [vm_compute; reflexivity | reflexivity
      | vm_compute; discriminate | reflexivity]. }
  eapply rtc_l.
  { apply (work_dial_ok _ _ 0%nat it "1.2.3.4:443");
      [reflexivity | vm_compute; reflexivity]. }
  eapply rtc_l.
  { apply (work_append _ _ 0%nat it). reflexivity. }
  eapply rtc_l.
  { apply feed_close. vm_compute. discriminate. }
  eapply rtc_l.
  { apply (work_exit _ 0%nat). reflexivity. }
  apply rtc_refl.
Qed.

Lemma reachable_after_dial_witness :
  exists it host port,
    "vless://u@1.2.3.4:443" = line it
    /\ extractHostPort "vless://u@1.2.3.4:443" = Ok (host, port)
    /\ host <> "" /\ port <> 0
    /\ (it, JoinHostPort host (Itoa port))
       ∈ [(Build_item 0 "vless://u@1.2.3.4:443", "1.2.3.4:443")].
Proof.
  exact (reachable_after_dial golib [" vless://u@1.2.3.4:443"] 1 _
           probe_one_line_run "vless://u@1.2.3.4:443"
           (list_elem_of_here _ _)).
Defined.

(** ** Validated lines are probed *)

Section Dialable.
Context `{GoLib}.

Lemma TrimSpace_nonempty s : strings.TrimSpace s <> "" -> s <> "".
Proof. intros Hs ->. now apply Hs. Qed.

Lemma validated_endpoint line :
  validateLine (strings.TrimSpace line) = None ->
  exists host port,
    extractHostPort line = Ok (host, port) /\ host <> "" /\ 0 < port <= 99999
    /\ (strings.HasPrefix (strings.TrimSpace line) "vmess://" = false ->
        port <= 65535).
Proof.
  unfold validateLine, extractHostPort. cbv zeta.
  set (l := strings.TrimSpace line).
  destruct (strings.HasPrefix l "vmess://") eqn:Evm.
  - destruct (HasPrefix_vmess_only l Evm) as (-> & -> & ->). cbn [orb].
    unfold validateVmess.
    destruct (String.eqb (vmessPayload l) ""); [discriminate|].
    destruct (decodeVmessBase64 (vmessPayload l)) as [payload|de];
      [|discriminate].
    destruct (json_Unmarshal payload) as [m|je]; [|discriminate].
    destruct (String.eqb_spec
                (strings.TrimSpace (assert_string (index m "add"))) "")
      as [Hh|Hh]; [discriminate|].
    destruct (extractPortFromJSON (index m "port")) as [p|pe]; [|discriminate].
    destruct (Z.leb_spec p 0); [discriminate|].
    destruct (Z.ltb_spec 99999 p); [discriminate|]. cbn [orb].
    intros _. exists (assert_string (index m "add")), p.
    split; [reflexivity|]. split; [now apply TrimSpace_nonempty|].
    split; [lia|discriminate].
  - assert (Hurl : forall v,
      (v = validateVless l \/ v = validateTrojan l
       \/ v = validateShadowsocks l) ->
      v = None ->
      exists host port,
        match url_Parse l with
        | Err perr => Err perr
        | Ok u =>
            if String.eqb (url.Hostname u) "" || String.eqb (url.Port u) ""
            then Err (errorString "missing host or port")
            else match strconv.Atoi (url.Port u) with
                 | Err perr => Err perr
                 | Ok p => Ok (url.Hostname u, p)
                 end
        end = Ok (host, port)
        /\ host <> "" /\ 0 < port <= 99999 /\ (false = false -> port <= 65535)).
    { intros v Hv Hnone.
      unfold validateVless, validateTrojan, validateShadowsocks, parsePort
        in Hv.
      destruct (url_Parse l) as [u|pe];
        [|destruct Hv as [-> | [-> | ->]]; discriminate].
      destruct (String.eqb_spec (url.Hostname u) "") as [Hh|Hh];
        [destruct Hv as [-> | [-> | ->]]; discriminate|].
      destruct (String.eqb (url.Port u) "");
        [destruct Hv as [-> | [-> | ->]]; discriminate|].
      cbn [orb].
      destruct (strconv.Atoi (url.Port u)) as [p|ae];
        [|destruct Hv as [-> | [-> | ->]]; discriminate].
      destruct (Z.leb_spec p 0);
        [destruct Hv as [-> | [-> | ->]]; discriminate|].
      destruct (Z.ltb_spec 65535 p);
        [destruct Hv as [-> | [-> | ->]]; discriminate|].
      exists (url.Hostname u), p. repeat split; auto; lia. }
    destruct (strings.HasPrefix l "vless://");
      [cbn [orb]; intros Hx; apply (Hurl _ (or_introl eq_refl) Hx)|].
    destruct (strings.HasPrefix l "trojan://");
      [cbn [orb]; intros Hx;
       apply (Hurl _ (or_intror (or_introl eq_refl)) Hx)|].
    destruct (strings.HasPrefix l "ss://");
      [cbn [orb]; intros Hx;
       apply (Hurl _ (or_intror (or_intror eq_refl)) Hx)|].
    discriminate.
Qed.

End Dialable.

Section ProbeServed.
Context `{GoLib}.
Variable lines : list string.

Lemma workers_insert_nonempty {A} (ws : list A) w x : ws <> [] -> <[w := x]> ws <> [].
Proof.
  intros Hne Hnil. apply Hne. apply length_zero_iff_nil.
  rewrite <- (length_insert ws w x), Hnil. reflexivity.
Qed.

Lemma workers_insert_inv {A} (ws : list A) w w' x y :
  <[w := x]> ws !! w' = Some y -> y = x \/ ws !! w' = Some y.
Proof.
  intros Hl. destruct (decide (w = w')) as [->|Hne].
  - left. apply list_lookup_insert_Some in Hl.
    destruct Hl as [(_ & -> & _)|(Hx & _)]; [reflexivity|contradiction].
  - right. now rewrite list_lookup_insert_ne in Hl.
Qed.

Lemma workers_insert_held (ws : list worker) w w0 x it :
  ws !! w = Some w0 -> w0 <> Got it ->
  (exists v, ws !! v = Some (Got it)) ->
  exists v, <[w := x]> ws !! v = Some (Got it).
Proof.
  intros Hw Hne [v Hv]. exists v.
  destruct (decide (w = v)) as [->|Hwv]; [congruence|].
  now rewrite list_lookup_insert_ne.
Qed.

Lemma pool_served_start maxConcurrent :
  pool_served lines (start maxConcurrent).
Proof.
  unfold pool_served, start. cbn [feed workers dials fed].
  split; [|split].
  - destruct (Z.to_nat _) as [|n] eqn:Hn; [|discriminate].
    destruct (Z.leb_spec maxConcurrent 0); lia.
  - intros w Hw. apply lookup_replicate in Hw as [[=] _].
  - intros i raw Hi. lia.
Qed.

Lemma pool_served_step p q :
  step lines p q -> pool_served lines p -> pool_served lines q.
Proof.
  unfold pool_served. intros Hs (Hne & Hex & Hall).
  destruct Hs; cbn [feed workers dials fed] in *.
  - (* feed_skip *)
    split; [assumption|]. split.
    { intros w Hw. now apply Hex in Hw. }
    intros j raw' Hj Hraw' Hnb.
    destruct (decide (j = i)) as [->|Hji]; [congruence|].
    apply Hall; [lia|assumption..].
  - (* feed_send *)
    split; [now apply workers_insert_nonempty|]. split.
    { intros v Hv. apply workers_insert_inv in Hv as [[=]|Hv].
      now apply Hex in Hv. }
    intros j raw' Hj Hraw' Hnb.
    destruct (decide (j = i)) as [->|Hji].
    + left. exists w. replace raw' with raw by congruence.
      apply list_lookup_insert_eq. now apply lookup_lt_Some in H3.
    + destruct (Hall j raw' ltac:(lia) Hraw' Hnb) as [Hheld|Hrest];
        [|now right].
      left. eapply workers_insert_held; [eassumption|discriminate|assumption].
  - (* feed_close *)
    split; [assumption|]. split; [reflexivity|].
    intros j raw' Hj Hraw' Hnb. apply Hall; [lia|assumption..].
  - (* work_skip *)
    split; [now apply workers_insert_nonempty|]. split.
    { intros v Hv. apply workers_insert_inv in Hv as [[=]|Hv].
      now apply Hex in Hv. }
    intros j raw' Hj Hraw' Hnb.
    destruct (Hall j raw' Hj Hraw' Hnb) as [[v Hv]|Hrest]; [|now right].
    destruct (decide (w = v)) as [->|Hwv].
    + right. left. congruence.
    + left. exists v. now rewrite list_lookup_insert_ne.
  - (* work_dial_fail *)
    split; [now apply workers_insert_nonempty|]. split.
    { intros v Hv. apply workers_insert_inv in Hv as [[=]|Hv].
      now apply Hex in Hv. }
    intros j raw' Hj Hraw' Hnb.
    destruct (Hall j raw' Hj Hraw' Hnb) as [[v Hv]|[Hno|(a & Ha & Hin)]].
    + destruct (decide (w = v)) as [->|Hwv].
      * right. right. exists addr.
        replace it with (Build_item j (strings.TrimSpace raw')) in *
          by congruence.
        split; [assumption|]. apply elem_of_app. right.
        now apply list_elem_of_singleton.
      * left. exists v. now rewrite list_lookup_insert_ne.
    + right. now left.
    + right. right. exists a. split; [assumption|].
      apply elem_of_app. now left.
  - (* work_dial_ok *)
    split; [now apply workers_insert_nonempty|]. split.
    { intros v Hv. apply workers_insert_inv in Hv as [[=]|Hv].
      now apply Hex in Hv. }
    intros j raw' Hj Hraw' Hnb.
    destruct (Hall j raw' Hj Hraw' Hnb) as [[v Hv]|[Hno|(a & Ha & Hin)]].
    + destruct (decide (w = v)) as [->|Hwv].
      * right. right. exists addr.
        replace it with (Build_item j (strings.TrimSpace raw')) in *
          by congruence.
        split; [assumption|]. apply elem_of_app. right.
        now apply list_elem_of_singleton.
      * left. exists v. now rewrite list_lookup_insert_ne.
    + right. now left.
    + right. right. exists a. split; [assumption|].
      apply elem_of_app. now left.
  - (* work_append *)
    split; [now apply workers_insert_nonempty|]. split.
    { intros v Hv. apply workers_insert_inv in Hv as [[=]|Hv].
      now apply Hex in Hv. }
    intros j raw' Hj Hraw' Hnb.
    destruct (Hall j raw' Hj Hraw' Hnb) as [Hheld|Hrest]; [|now right].
    left. eapply workers_insert_held; [eassumption|discriminate|assumption].
  - (* work_exit *)
    split; [now apply workers_insert_nonempty|]. split; [reflexivity|].
    intros j raw' Hj Hraw' Hnb.
    destruct (Hall j raw' Hj Hraw' Hnb) as [Hheld|Hrest]; [|now right].
    left. eapply workers_insert_held; [eassumption|discriminate|assumption].
Qed.

Lemma pool_served_rtc p q :
  rtc (step lines) p q -> pool_served lines p -> pool_served lines q.
Proof.
  induction 1 as [|p q r Hpq _ IH]; [auto|].
  intros Hp. apply IH. now apply pool_served_step with p.
Qed.

Lemma pool_served_reached maxConcurrent p :
  rtc (step lines) (start maxConcurrent) p -> pool_served lines p.
Proof.
  intros Hr. eapply pool_served_rtc; [eassumption|].
  apply pool_served_start.
Qed.

Lemma finished_closed maxConcurrent p :
  rtc (step lines) (start maxConcurrent) p -> finished p ->
  feed p = Closed /\ forall w it, workers p !! w <> Some (Got it).
Proof.
  intros Hr Hfin. apply pool_served_reached in Hr as (Hne & Hex & _).
  unfold finished in Hfin. rewrite Forall_lookup in Hfin. split.
  - destruct (workers p) as [|w0 ws] eqn:Hws; [contradiction|].
    apply (Hex 0%nat). cbn. f_equal. now apply (Hfin 0%nat).
  - intros w it Hw. apply Hfin in Hw. discriminate.
Qed.

Lemma finished_dialed maxConcurrent p (i : nat) raw :
  rtc (step lines) (start maxConcurrent) p -> finished p ->
  (i < 1000)%nat -> lines !! i = Some raw ->
  validateLine (strings.TrimSpace raw) = None ->
  exists host port,
    extractHostPort raw = Ok (host, port)
    /\ host <> "" /\ 0 < port <= 99999
    /\ (strings.HasPrefix (strings.TrimSpace raw) "vmess://" = false ->
        port <= 65535)
    /\ (Build_item (Z.of_nat i) (strings.TrimSpace raw),
        JoinHostPort host (Itoa port)) ∈ dials p.
Proof.
  intros Hr Hfin Hi Hraw Hv.
  destruct (finished_closed _ _ Hr Hfin) as [Hcl Hnone].
  pose proof (pool_served_reached _ _ Hr) as (_ & _ & Hall).
  destruct (validated_endpoint raw Hv) as (host & port & He & Hh & Hp & Hvm).
  exists host, port. split; [assumption|]. split; [assumption|].
  split; [assumption|]. split; [assumption|].
  assert (Hnb : strings.TrimSpace raw <> "").
  { intros Hb. rewrite Hb in Hv. vm_compute in Hv. discriminate. }
  assert (Hlim : Z.of_nat i < limit lines).
  { pose proof (lookup_lt_Some _ _ _ Hraw) as Hlt.
    unfold limit, maxToTest.
    destruct (Z.ltb_spec 1000 (Z.of_nat (length lines))); lia. }
  rewrite Hcl in Hall. cbn [fed] in Hall.
  specialize (Hall (Z.of_nat i) raw ltac:(lia)).
  rewrite Nat2Z.id in Hall. specialize (Hall Hraw Hnb). cbv zeta in Hall.
  assert (Ht : target (Build_item (Z.of_nat i) (strings.TrimSpace raw))
               = Some (JoinHostPort host (Itoa port))).
  { unfold target. cbn [line]. rewrite extractHostPort_trim, He.
    destruct (String.eqb_spec host ""); [contradiction|].
    destruct (Z.eqb_spec port 0); [lia|]. reflexivity. }
  destruct Hall as [[w Hw]|[Hno|(a & Ha & Hin)]].
  - now apply Hnone in Hw.
  - congruence.
  - congruence.
Qed.

End ProbeServed.

(** X10.  Every line that validation accepts is probed, when it is one
    of the first 1000: in every run of [filterReachableLines] that has
    ended (every worker has exited), for each input line below index
    1000 whose trim [validateLine] accepts, [extractHostPort] returns a
    non-empty host and a port in 1..99999 (in 1..65535 when the line is
    not a vmess line), and [net.DialTimeout] was called for the line on
    the address joined from them. *)
Theorem validated_line_is_probed
  (L : GoLib) (lines : list string) (maxConcurrent : Z) (p : pool)
  (i : nat) (raw : string) :
  rtc (step lines) (start maxConcurrent) p -> finished p ->
  (i < 1000)%nat -> lines !! i = Some raw ->
  validateLine (strings.TrimSpace raw) = None ->
  exists host port,
    extractHostPort raw = Ok (host, port)
    /\ host <> "" /\ 0 < port <= 99999
    /\ (strings.HasPrefix (strings.TrimSpace raw) "vmess://" = false ->
        port <= 65535)
    /\ (Build_item (Z.of_nat i) (strings.TrimSpace raw),
        JoinHostPort host (Itoa port)) ∈ dials p.
Proof. apply finished_dialed. Qed.

Lemma validated_line_is_probed_witness :
  exists host port,
    extractHostPort " vless://u@1.2.3.4:443" = Ok (host, port)
    /\ host <> "" /\ 0 < port <= 99999
    /\ (strings.HasPrefix (strings.TrimSpace " vless://u@1.2.3.4:443")
          "vmess://" = false -> port <= 65535)
    /\ (Build_item 0 "vless://u@1.2.3.4:443", JoinHostPort host (Itoa port))
       ∈ [(Build_item 0 "vless://u@1.2.3.4:443", "1.2.3.4:443")].
Proof.
  refine (validated_line_is_probed golib [" vless://u@1.2.3.4:443"] 1 _
            0%nat " vless://u@1.2.3.4:443" probe_one_line_run _ _ _ _).
  - repeat constructor.
  - lia.
  - reflexivity.
  - vm_compute. reflexivity.
Defined.


(** ** The probe: the runs that report every line, in any order *)

Section ProbeBest.
Context `{GoLib}.
Variable lines : list string.

Lemma dialable_blank l : strings.TrimSpace l = "" -> dialable l = false.
Proof.
  intros Hl. unfold dialable, extractHostPort. cbv zeta. rewrite Hl.
  reflexivity.
Qed.

(** The feeder goes through its loop while the first worker takes each
    item, connects and appends the line. *)
Lemma feed_through_ok ws (k : nat) : forall i r d,
  0 <= i -> i + Z.of_nat k = limit lines ->
  exists d',
    rtc (step lines) (Build_pool (Feeding i) (Waiting :: ws) r d)
      (Build_pool (Feeding (limit lines)) (Waiting :: ws)
         (r ++ List.filter dialable
                 (strings.TrimSpace <$> take k (drop (Z.to_nat i) lines)))
         d').
Proof.
  pose proof (limit_bounds lines) as Hlim.
  induction k as [|k IH]; intros i r d Hi Hk.
  - replace i with (limit lines) by lia. exists d. cbn.
    rewrite app_nil_r. apply rtc_refl.
  - destruct (lines !! Z.to_nat i) as [raw|] eqn:Hraw.
    2:{ apply lookup_ge_None in Hraw. lia. }
    rewrite (drop_S _ _ _ Hraw). cbn [take fmap list_fmap List.filter].
    replace (S (Z.to_nat i)) with (Z.to_nat (i + 1)) by lia.
    destruct (String.eqb_spec (strings.TrimSpace raw) "") as [Hb|Hb].
    + rewrite dialable_trim, (dialable_blank raw Hb).
      destruct (IH (i + 1) r d) as [d' Hrun]; [lia|lia|].
      exists d'. eapply rtc_l; [|exact Hrun].
      apply feed_skip with raw; [lia|assumption|assumption].
    + set (it := Build_item i (strings.TrimSpace raw)).
      destruct (dialable (strings.TrimSpace raw)) eqn:Hd.
      * destruct (proj1 (target_dialable it) Hd) as [addr Ht].
        destruct (IH (i + 1) (r ++ [strings.TrimSpace raw])
                    (d ++ [(it, addr)])) as [d' Hrun]; [lia|lia|].
        exists d'. rewrite <- app_assoc in Hrun. cbn [app] in Hrun.
        eapply rtc_l.
        { apply (feed_send lines i raw 0%nat);
            [lia|assumption|assumption|reflexivity]. }
        eapply rtc_l.
        { apply (work_dial_ok lines _ 0%nat it addr);
            [reflexivity|assumption]. }
        eapply rtc_l; [|exact Hrun].
        apply (work_append lines _ 0%nat it). reflexivity.
      * assert (Ht : target it = None).
        { destruct (target it) as [addr|] eqn:Ht; [|reflexivity].
          assert (Hx : dialable (line it) = true)
            by (apply target_dialable; eauto).
          cbn [line it] in Hx. congruence. }
        destruct (IH (i + 1) r d) as [d' Hrun]; [lia|lia|].
        exists d'.
        eapply rtc_l.
        { apply (feed_send lines i raw 0%nat);
            [lia|assumption|assumption|reflexivity]. }
        eapply rtc_l; [|exact Hrun].
        apply (work_skip lines _ 0%nat it); [reflexivity|assumption].
Qed.

Lemma filterReachableLines_all timeout maxConcurrent :
  filterReachableLines lines timeout maxConcurrent
    (List.filter dialable (strings.TrimSpace <$> take 1000 lines)).
Proof.
  pose proof (limit_bounds lines) as Hlim.
  unfold filterReachableLines, start. cbv zeta.
  set (n := Z.to_nat (if maxConcurrent <=? 0 then 20 else maxConcurrent)).
  assert (Hn : exists n', n = S n').
  { exists (Nat.pred n). subst n.
    destruct (Z.leb_spec maxConcurrent 0); lia. }
  destruct Hn as [n' ->]. cbn [replicate].
  destruct (feed_through_ok (replicate n' Waiting) (Z.to_nat (limit lines))
              0 [] []) as [d' Hfeed]; [lia|lia|].
  cbn [drop Z.to_nat app] in Hfeed. rewrite take_limit in Hfeed.
  eexists (Build_pool Closed (replicate (S n') Exited) _ d').
  split; [|split; [apply Forall_replicate; reflexivity|reflexivity]].
  eapply rtc_trans; [exact Hfeed|].
  eapply rtc_l; [apply feed_close; lia|].
  apply (exit_all lines _ d' (S n') []).
Qed.


End ProbeBest.





(** ** The export: the error returned and the time spent *)

Section ExportVerdict.
Context `{GoLib}.

Lemma last_cons2 {A} (a b : A) l : last (a :: b :: l) = last (b :: l).
Proof. reflexivity. Qed.

Lemma renameLoop_verdict path tmpPath left : forall i tr res,
  Z.of_nat left + i = maxRetries -> left <> O ->
  exec (renameLoop path tmpPath left i) tr res ->
  match res with
  | None => last (renames tr) = Some None
  | Some e =>
      exists msg,
        last (renames tr) = Some (Some msg)
        /\ e = Errorf "rename failed (%d tries): %w"
                 [Aint (i + Z.of_nat (length (renames tr)));
                  Aerr (errorString msg)]
  end.
Proof.
  induction left as [|left IH]; intros i tr res Hi Hleft He; [contradiction|].
  cbn [renameLoop exec] in He.
  destruct He as (r0 & tr0 & -> & r & tr1 & -> & He).
  destruct r as [msg|].
  - destruct (busy msg && (i <? maxRetries - 1)) eqn:Hb.
    + apply andb_true_iff in Hb as [_ Hlt]. apply Z.ltb_lt in Hlt.
      cbn [exec] in He. destruct He as ([] & tr2 & -> & He).
      apply IH in He; [|lia|unfold maxRetries in *; lia].
      cbn [record renames].
      destruct res as [e|].
      * destruct He as (msg' & Hlast & ->).
        destruct (renames tr2) as [|b rest]; [discriminate Hlast|].
        exists msg'. rewrite last_cons2. split; [assumption|].
        cbn [length]. do 3 f_equal. lia.
      * destruct (renames tr2) as [|b rest]; [discriminate He|].
        now rewrite last_cons2.
    + cbn [exec] in He. destruct He as (r1 & tr2 & -> & -> & ->).
      cbn. exists msg. split; reflexivity.
  - cbn [exec] in He. destruct He as (-> & ->). reflexivity.
Qed.

Lemma writeBase64Atomic_verdict path lines tr res :
  exec (writeBase64Atomic path lines) tr res ->
  match res with
  | None => last (renames tr) = Some None
  | Some e =>
      (renames tr = [] /\ exists msg, e = errorString msg)
      \/ exists msg,
           last (renames tr) = Some (Some msg)
           /\ e = Errorf "rename failed (%d tries): %w"
                    [Aint (Z.of_nat (length (renames tr)));
                     Aerr (errorString msg)]
  end.
Proof.
  unfold writeBase64Atomic. cbv zeta. cbn [exec].
  intros (t & tr0 & -> & He).
  destruct t as [tmpPath|err].
  2:{ cbn [exec] in He. destruct He as (-> & ->). left. cbn. eauto. }
  cbn [exec] in He. destruct He as (w & tr1 & -> & He).
  destruct w as [err|].
  { cbn [exec] in He.
    destruct He as (c & tr2 & -> & r & tr3 & -> & -> & ->).
    left. cbn. eauto. }
  cbn [exec] in He. destruct He as (f & tr2 & -> & He).
  destruct f as [err|].
  { cbn [exec] in He.
    destruct He as (c & tr3 & -> & r & tr4 & -> & -> & ->).
    left. cbn. eauto. }
  cbn [exec] in He. destruct He as (c & tr3 & -> & He).
  destruct c as [err|].
  { cbn [exec] in He. destruct He as (r & tr4 & -> & -> & ->).
    left. cbn. eauto. }
  apply renameLoop_verdict in He; [|reflexivity|discriminate].
  cbn [record renames]. destruct res as [e|]; [|assumption].
  right. exact He.
Qed.

Lemma slept_schedule tr : slept tr = pauses (schedule tr).
Proof.
  induction tr as [|e tr IH]; [reflexivity|].
  destruct e; cbn [slept schedule pauses]; congruence.
Qed.

Lemma pauses_plan rs : forall k,
  rs <> [] ->
  2 * pauses (plan k rs)
  = 200 * Millisecond
    * ((Z.of_nat (length rs) - 1) * (2 * k + Z.of_nat (length rs) - 2)).
Proof.
  induction rs as [|a rs IH]; intros k Hne; [contradiction|].
  destruct rs as [|b rs]; [cbn; lia|].
  rewrite plan_cons. cbn [pauses].
  rewrite Z.mul_add_distr_l, IH by discriminate.
  cbn [length]. unfold Millisecond. nia.
Qed.

End ExportVerdict.

(** X13.  The error of [writeBase64Atomic].  A run that returns [nil]
    ends on a rename that succeeded.  A run that returns an error
    either made no rename, and returns the error of the operating
    system, or returns [rename failed (n tries)] wrapping the error of
    its last rename, where [n] is the number of renames it made.  The
    final [rename failed after retries] is never returned. *)
Theorem writeBase64Atomic_error
  (L : GoLib) (path : string) (lines : list string)
  (tr : list event) (res : option error) :
  exec (writeBase64Atomic path lines) tr res ->
  match res with
  | None => last (renames tr) = Some None
  | Some e =>
      (renames tr = [] /\ exists msg, e = errorString msg)
      \/ exists msg,
           last (renames tr) = Some (Some msg)
           /\ e = Errorf "rename failed (%d tries): %w"
                    [Aint (Z.of_nat (length (renames tr)));
                     Aerr (errorString msg)]
  end
  /\ res <> Some (Errorf "rename failed after retries" []).
Proof.
  intros He. apply writeBase64Atomic_verdict in He.
  split; [exact He|].
  intros ->. destruct He as [(_ & msg & [=])|(msg & _ & [=])].
Qed.

Lemma writeBase64Atomic_error_witness :
  last (renames retried_twice) = Some None
  /\ None <> Some (Errorf "rename failed after retries" []).
Proof.
  exact (writeBase64Atomic_error golib "out/normal" ["a"] retried_twice None
           retried_twice_exec).
Defined.

(** X14.  The time [writeBase64Atomic] sleeps: after [n] renames it has
    slept 100ms times [n(n-1)], that is 3 seconds at most. *)
Theorem writeBase64Atomic_sleeps
  (L : GoLib) (path : string) (lines : list string)
  (tr : list event) (res : option error) :
  exec (writeBase64Atomic path lines) tr res ->
  let n := Z.of_nat (length (renames tr)) in
  slept tr = 100 * Millisecond * (n * (n - 1))
  /\ 0 <= slept tr <= 3000 * Millisecond.
Proof.
  intros He. apply writeBase64Atomic_exec in He as (Hlen & _ & Hsch & _).
  cbv zeta. rewrite slept_schedule, Hsch.
  destruct (renames tr) as [|a rs] eqn:Hrs; [cbn; unfold Millisecond; lia|].
  pose proof (pauses_plan (a :: rs) 1) as Hp.
  set (n := Z.of_nat (length (a :: rs))) in *.
  assert (Hn : 1 <= n <= 6) by (subst n; cbn [length] in *; lia).
  unfold Millisecond in *. specialize (Hp ltac:(discriminate)). nia.
Qed.


Lemma writeBase64Atomic_sleeps_witness :
  let n := Z.of_nat (length (renames retried_twice)) in
  slept retried_twice = 100 * Millisecond * (n * (n - 1))
  /\ 0 <= slept retried_twice <= 3000 * Millisecond.
Proof.
  exact (writeBase64Atomic_sleeps golib "out/normal" ["a"] retried_twice None
           retried_twice_exec).
Defined.

(** ** The export: what it leaves in the file system *)

Section ExportFrame.
Context `{GoLib}.

Lemma renameLoop_lands F path tmpPath data left : forall i s s',
  staged F path tmpPath data s ->
  run (renameLoop path tmpPath left i) s s' None ->
  files s' = <[path := data]> F.
Proof.
  induction left as [|left IH]; intros i s s' Hinv Hrun.
  - cbn in Hrun. destruct Hrun as (r & s1 & _ & _ & [=]).
  - cbn [renameLoop run] in Hrun.
    destruct Hrun as (r0 & s1 & Hrm & r & s2 & Hrn & Hrun).
    assert (Hinv1 : staged F path tmpPath data s1).
    { cbn [os_step] in Hrm. destruct r0 as [msg|]; [now subst s1|].
      destruct Hrm as [_ ->]. unfold staged in *. cbn [files].
      destruct Hinv as [Hgone|(G & HG & Hfresh & Haim)].
      - left. apply lookup_delete_None. now right.
      - destruct (decide (path = tmpPath)) as [->|Hne].
        + left. apply lookup_delete_eq.
        + right. exists (delete path G). rewrite HG.
          split; [now apply delete_insert_ne|].
          split; [apply lookup_delete_None; now right|].
          now rewrite insert_delete_eq. }
    cbn [os_step] in Hrn. destruct r as [msg|].
    + subst s2.
      destruct (busy msg && (i <? maxRetries - 1)).
      * cbn [run] in Hrun. destruct Hrun as ([] & s3 & Hsl & Hrun).
        cbn [os_step] in Hsl. subst s3. now apply IH in Hrun.
      * cbn [run] in Hrun. destruct Hrun as (r1 & s3 & _ & _ & [=]).
    + destruct Hrn as (c & Hc & ->).
      cbn [run] in Hrun. destruct Hrun as [-> _]. cbn [files].
      destruct Hinv1 as [Hgone|(G & HG & Hfresh & Haim)]; [congruence|].
      rewrite HG in Hc |- *. rewrite lookup_insert_eq in Hc.
      injection Hc as <-.
      now rewrite delete_insert_id.
Qed.

Lemma writeBase64Atomic_lands path lines s s' :
  run (writeBase64Atomic path lines) s s' None ->
  files s' = <[path := encoded lines]> (files s).
Proof.
  unfold writeBase64Atomic, encoded. cbv zeta. fold newline.
  set (data := base64.EncodeToString (strings.Join lines newline)).
  cbn [run]. intros (t & s1 & Hct & Hrun).
  destruct t as [tmpPath|err];
    [|cbn [run] in Hrun; destruct Hrun as [_ [=]]].
  cbn [os_step] in Hct. destruct Hct as [Hfresh ->].
  cbn [run] in Hrun. destruct Hrun as (w & s2 & Hw & Hrun).
  destruct w as [err|].
  { cbn [run] in Hrun.
    destruct Hrun as (? & ? & _ & ? & ? & _ & _ & [=]). }
  cbn [os_step files buffered] in Hw.
  destruct Hw as (c & b & written & kept & Hc & Hb & Hsplit & ->).
  rewrite lookup_insert_eq in Hc, Hb.
  injection Hc as <-. injection Hb as <-.
  cbn [run] in Hrun. destruct Hrun as (f & s3 & Hf & Hrun).
  destruct f as [err|].
  { cbn [run] in Hrun.
    destruct Hrun as (? & ? & _ & ? & ? & _ & _ & [=]). }
  cbn [os_step files buffered] in Hf.
  destruct Hf as (c & b & Hc & Hb & ->).
  rewrite lookup_insert_eq in Hc, Hb.
  injection Hc as <-. injection Hb as <-.
  cbn [run] in Hrun. destruct Hrun as (cl & s4 & Hcl & Hrun).
  cbn [os_step] in Hcl. subst s4.
  destruct cl as [err|].
  { cbn [run] in Hrun. destruct Hrun as (? & ? & _ & _ & [=]). }
  eapply renameLoop_lands; [|exact Hrun].
  right. exists (files s). cbn [files].
  rewrite !insert_insert_eq. sapp. rewrite <- Hsplit. sapp.
  repeat split; auto.
Qed.

End ExportFrame.

(** X15.  A successful [writeBase64Atomic] changes the destination and
    nothing else: the files afterwards are the files before with the
    encoded text at [path]; no temporary file is left. *)
Theorem writeBase64Atomic_success_frame
  (L : GoLib) (path : string) (lines : list string) (s s' : fsys) :
  run (writeBase64Atomic path lines) s s' None ->
  files s' = <[path := encoded lines]> (files s).
Proof. apply writeBase64Atomic_lands. Qed.


Lemma writeBase64Atomic_success_frame_witness :
  exists s',
    run (writeBase64Atomic "out/normal" ["a"; "b"]) no_files s' None
    /\ files s' = <["out/normal" := encoded ["a"; "b"]]> (files no_files).
Proof.
  destruct (writeBase64Atomic_can_run (H := golib) "out/normal" ["a"; "b"])
    as [s' Hrun].
  exists s'. split; [exact Hrun|].
  exact (writeBase64Atomic_success_frame golib "out/normal" ["a"; "b"]
           no_files s' Hrun).
Defined.

Section ExportFailure.
Context `{GoLib}.

Lemma others_kept_insert F path tmpPath c s s' :
  F !! tmpPath = None ->
  files s' = <[tmpPath := c]> (files s) ->
  others_kept F path s -> others_kept F path s'.
Proof.
  intros Hfresh Hs' Hk q d Hq HF. rewrite Hs'.
  rewrite lookup_insert_ne by congruence. now apply Hk.
Qed.

Lemma old_or_gone_insert F path tmpPath c s s' :
  F !! tmpPath = None ->
  files s' = <[tmpPath := c]> (files s) ->
  old_or_gone F path s -> old_or_gone F path s'.
Proof.
  intros Hfresh Hs' Hk old HF. rewrite Hs'.
  rewrite lookup_insert_ne by congruence. now apply Hk.
Qed.

Lemma others_kept_delete F path x s s' :
  F !! x = None \/ x = path ->
  files s' = delete x (files s) ->
  others_kept F path s -> others_kept F path s'.
Proof.
  intros Hx Hs' Hk q d Hq HF. rewrite Hs'.
  rewrite lookup_delete_ne by (destruct Hx; congruence). now apply Hk.
Qed.

Lemma old_or_gone_delete F path x s s' :
  files s' = delete x (files s) ->
  old_or_gone F path s -> old_or_gone F path s'.
Proof.
  intros Hs' Hk old HF. rewrite Hs'.
  destruct (decide (x = path)) as [->|Hne].
  - right. apply lookup_delete_eq.
  - rewrite lookup_delete_ne by assumption. now apply Hk.
Qed.

Lemma remove_kept F path x r s s' :
  F !! x = None \/ x = path ->
  os_step s (Remove x) r s' ->
  (others_kept F path s -> others_kept F path s')
  /\ (old_or_gone F path s -> old_or_gone F path s').
Proof.
  intros Hx Hrm. cbn [os_step] in Hrm. destruct r as [msg|].
  - subst s'. auto.
  - destruct Hrm as [_ ->]. split.
    + now apply others_kept_delete with x.
    + now apply old_or_gone_delete with x.
Qed.

Lemma renameLoop_kept F path tmpPath left : forall i s s' res,
  F !! tmpPath = None ->
  others_kept F path s -> old_or_gone F path s ->
  run (renameLoop path tmpPath left i) s s' res ->
  others_kept F path s' /\ (res <> None -> old_or_gone F path s').
Proof.
  induction left as [|left IH]; intros i s s' res Hfresh Hk Ho Hrun.
  - cbn [renameLoop run] in Hrun.
    destruct Hrun as (r & s1 & Hrm & -> & ->).
    destruct (remove_kept F path tmpPath r s s1) as [Hk1 Ho1]; auto.
  - cbn [renameLoop run] in Hrun.
    destruct Hrun as (r0 & s1 & Hrm & r & s2 & Hrn & Hrun).
    destruct (remove_kept F path path r0 s s1) as [Hk1 Ho1]; auto.
    specialize (Hk1 Hk). specialize (Ho1 Ho).
    cbn [os_step] in Hrn. destruct r as [msg|].
    + subst s2.
      destruct (busy msg && (i <? maxRetries - 1)).
      * cbn [run] in Hrun. destruct Hrun as ([] & s3 & Hsl & Hrun).
        cbn [os_step] in Hsl. subst s3. now apply IH in Hrun.
      * cbn [run] in Hrun. destruct Hrun as (r1 & s3 & Hrm1 & -> & ->).
        destruct (remove_kept F path tmpPath r1 s1 s3) as [Hk3 Ho3]; auto.
    + destruct Hrn as (c & Hc & ->).
      cbn [run] in Hrun. destruct Hrun as [-> ->].
      split; [|congruence].
      intros q d Hq HF. cbn [files].
      rewrite lookup_insert_ne by congruence.
      rewrite lookup_delete_ne by congruence. now apply Hk1.
Qed.

Lemma writeBase64Atomic_kept path lines s s' res :
  run (writeBase64Atomic path lines) s s' res ->
  others_kept (files s) path s'
  /\ (res <> None -> old_or_gone (files s) path s').
Proof.
  assert (Hk0 : others_kept (files s) path s) by (intros q c _ Hq; exact Hq).
  assert (Ho0 : old_or_gone (files s) path s) by (intros old Hold; now left).
  unfold writeBase64Atomic. cbv zeta.
  cbn [run]. intros (t & s1 & Hct & Hrun).
  destruct t as [tmpPath|err].
  2:{ cbn [run os_step] in *. destruct Hrun as [-> ->]. subst s1. auto. }
  cbn [os_step] in Hct. destruct Hct as [Hfresh Hs1].
  assert (Hk1 : others_kept (files s) path s1).
  { apply (others_kept_insert _ _ tmpPath "" s); auto. now subst s1. }
  assert (Ho1 : old_or_gone (files s) path s1).
  { apply (old_or_gone_insert _ _ tmpPath "" s); auto. now subst s1. }
  clear Hs1.
  cbn [run] in Hrun. destruct Hrun as (w & s2 & Hw & Hrun).
  destruct w as [err|].
  { cbn [os_step] in Hw. destruct Hw as [c' ->].
    cbn [run] in Hrun.
    destruct Hrun as (? & s3 & Hcl & r & s4 & Hrm & -> & ->).
    cbn [os_step] in Hcl. subst s3.
    eapply remove_kept in Hrm as [Hk4 Ho4]; [|left; exact Hfresh].
    split; [apply Hk4|intros _; apply Ho4].
    - now apply (others_kept_insert _ _ tmpPath c' s1).
    - now apply (old_or_gone_insert _ _ tmpPath c' s1). }
  cbn [os_step] in Hw.
  destruct Hw as (c & b & written & kept & Hc & Hb & Hsplit & Hs2).
  assert (Hk2 : others_kept (files s) path s2).
  { apply (others_kept_insert _ _ tmpPath (c +:+ written) s1); auto.
    now subst s2. }
  assert (Ho2 : old_or_gone (files s) path s2).
  { apply (old_or_gone_insert _ _ tmpPath (c +:+ written) s1); auto.
    now subst s2. }
  clear Hs2 Hc Hb Hsplit.
  cbn [run] in Hrun. destruct Hrun as (f & s3 & Hf & Hrun).
  destruct f as [err|].
  { cbn [os_step] in Hf. destruct Hf as [c' ->].
    cbn [run] in Hrun.
    destruct Hrun as (? & s4 & Hcl & r & s5 & Hrm & -> & ->).
    cbn [os_step] in Hcl. subst s4.
    eapply remove_kept in Hrm as [Hk4 Ho4]; [|left; exact Hfresh].
    split; [apply Hk4|intros _; apply Ho4].
    - now apply (others_kept_insert _ _ tmpPath c' s2).
    - now apply (old_or_gone_insert _ _ tmpPath c' s2). }
  cbn [os_step] in Hf. destruct Hf as (c0 & b0 & Hc & Hb & Hs3).
  assert (Hk3 : others_kept (files s) path s3).
  { apply (others_kept_insert _ _ tmpPath (c0 +:+ b0) s2); auto.
    now subst s3. }
  assert (Ho3 : old_or_gone (files s) path s3).
  { apply (old_or_gone_insert _ _ tmpPath (c0 +:+ b0) s2); auto.
    now subst s3. }
  clear Hs3 Hc Hb.
  cbn [run] in Hrun. destruct Hrun as (cl & s4 & Hcl & Hrun).
  cbn [os_step] in Hcl. subst s4.
  destruct cl as [err|].
  { cbn [run] in Hrun. destruct Hrun as (r & s5 & Hrm & -> & ->).
    eapply remove_kept in Hrm as [Hk4 Ho4]; [|left; exact Hfresh].
    split; [now apply Hk4|intros _; now apply Ho4]. }
  now apply (renameLoop_kept (files s) path tmpPath) in Hrun.
Qed.

(** Once the destination is removed, every rename may fail: the
    temporary file is removed at the end and nothing is left. *)
Lemma renameLoop_can_fail path tmpPath data (msg : string) left : forall i s,
  files s !! path = None -> files s !! tmpPath = Some data ->
  exists s' e,
    run (renameLoop path tmpPath left i) s s' (Some e)
    /\ files s' !! path = None.
Proof.
  induction left as [|left IH]; intros i s Hgone Htmp.
  - exists {| files := delete tmpPath (files s); buffered := buffered s |}.
    eexists. cbn [renameLoop run]. split.
    + exists None. eexists. split; [|split; reflexivity].
      cbn [os_step]. split; [eauto|reflexivity].
    + cbn [files]. apply lookup_delete_None. now right.
  - cbn [renameLoop].
    destruct (busy msg && (i <? maxRetries - 1)) eqn:Hb.
    + destruct (IH (i + 1) s Hgone Htmp) as (s' & e & Hrun & Hs').
      exists s', e. split; [|assumption]. cbn [run].
      exists (Some "remove: no such file"), s. split; [reflexivity|].
      exists (Some msg), s. split; [reflexivity|].
      rewrite Hb. cbn [run].
      exists tt, s. split; [reflexivity|]. exact Hrun.
    + exists {| files := delete tmpPath (files s); buffered := buffered s |}.
      eexists. split.
      * cbn [run].
        exists (Some "remove: no such file"), s. split; [reflexivity|].
        exists (Some msg), s. split; [reflexivity|].
        rewrite Hb. cbn [run].
        exists None. eexists. split; [|split; reflexivity].
        cbn [os_step]. split; [eauto|reflexivity].
      * cbn [files]. apply lookup_delete_None. now right.
Qed.

Lemma append_longer (c : ascii) s : String c s <> s.
Proof.
  intros He. apply (f_equal String.length) in He. cbn in He. lia.
Qed.

Lemma writeBase64Atomic_can_lose path old lines :
  exists s' e,
    run (writeBase64Atomic path lines)
      {| files := {[path := old]}; buffered := ∅ |} s' (Some e)
    /\ files s' !! path = None.
Proof.
  set (tmp := String "t" path).
  assert (Hne : tmp <> path) by apply append_longer.
  set (data := encoded lines).
  set (s3 := {| files := <[tmp := data]> (delete path {[path := old]});
                buffered := <[tmp := ""]> ∅ |}).
  destruct (renameLoop_can_fail path tmp data "rename: permission denied"
              5 1 s3) as (s' & e & Hloop & Hs').
  { cbn [files s3]. rewrite lookup_insert_ne by assumption.
    apply lookup_delete_eq. }
  { cbn [files s3]. apply lookup_insert_eq. }
  unfold writeBase64Atomic. cbv zeta. fold newline. fold (encoded lines).
  fold data.
  change (Z.to_nat maxRetries) with 6%nat. cbn [renameLoop].
  destruct (busy "rename: permission denied" && (0 <? maxRetries - 1)) eqn:Hb.
  - exists s', e. split; [|assumption]. cbn [run].
    exists (OSOk tmp), {| files := <[tmp := ""]> {[path := old]};
                          buffered := <[tmp := ""]> ∅ |}.
    split.
    { cbn [os_step files buffered]. split; [|reflexivity].
      apply lookup_singleton_ne. congruence. }
    exists None, {| files := <[tmp := data]> {[path := old]};
                    buffered := <[tmp := ""]> ∅ |}.
    split.
    { cbn [os_step files buffered]. exists "", "", data, "".
      rewrite !lookup_insert_eq, !insert_insert_eq, app_empty_r.
      repeat split; reflexivity. }
    exists None, {| files := <[tmp := data]> {[path := old]};
                    buffered := <[tmp := ""]> ∅ |}.
    split.
    { cbn [os_step files buffered]. exists data, "".
      rewrite !lookup_insert_eq, !insert_insert_eq, app_empty_r.
      repeat split; reflexivity. }
    exists None. eexists. split; [reflexivity|].
    exists None, s3. split.
    { cbn [os_step files buffered]. split.
      - rewrite lookup_insert_ne by assumption.
        rewrite lookup_singleton_eq. eauto.
      - unfold s3. f_equal. symmetry. apply delete_insert_ne. congruence. }
    exists (Some "rename: permission denied"), s3. split; [reflexivity|].
    rewrite Hb. cbn [run]. exists tt, s3. split; [reflexivity|].
    exact Hloop.
  - exists {| files := delete tmp (files s3); buffered := buffered s3 |}.
    eexists. split.
    2:{ cbn [files s3]. apply lookup_delete_None. right.
        rewrite lookup_insert_ne by assumption. apply lookup_delete_eq. }
    cbn [run].
    exists (OSOk tmp), {| files := <[tmp := ""]> {[path := old]};
                          buffered := <[tmp := ""]> ∅ |}.
    split.
    { cbn [os_step files buffered]. split; [|reflexivity].
      apply lookup_singleton_ne. congruence. }
    exists None, {| files := <[tmp := data]> {[path := old]};
                    buffered := <[tmp := ""]> ∅ |}.
    split.
    { cbn [os_step files buffered]. exists "", "", data, "".
      rewrite !lookup_insert_eq, !insert_insert_eq, app_empty_r.
      repeat split; reflexivity. }
    exists None, {| files := <[tmp := data]> {[path := old]};
                    buffered := <[tmp := ""]> ∅ |}.
    split.
    { cbn [os_step files buffered]. exists data, "".
      rewrite !lookup_insert_eq, !insert_insert_eq, app_empty_r.
      repeat split; reflexivity. }
    exists None. eexists. split; [reflexivity|].
    exists None, s3. split.
    { cbn [os_step files buffered]. split.
      - rewrite lookup_insert_ne by assumption.
        rewrite lookup_singleton_eq. eauto.
      - unfold s3. f_equal. symmetry. apply delete_insert_ne. congruence. }
    exists (Some "rename: permission denied"), s3. split; [reflexivity|].
    rewrite Hb. cbn [run].
    exists None. eexists. split; [|split; reflexivity].
    cbn [os_step]. split; [|reflexivity].
    cbn [files s3]. rewrite lookup_insert_eq. eauto.
Qed.

End ExportFailure.

(** X16.  Whatever happens, [writeBase64Atomic] leaves every file that
    existed, other than the destination, with its content; and when it
    fails, a destination that existed either still has its old content
    or is gone: it never holds a partial or a new text. *)
Theorem writeBase64Atomic_spares_files
  (L : GoLib) (path : string) (lines : list string) (s s' : fsys)
  (res : option error) :
  run (writeBase64Atomic path lines) s s' res ->
  (forall q c, q <> path -> files s !! q = Some c -> files s' !! q = Some c)
  /\ (res <> None ->
      forall old, files s !! path = Some old ->
                  files s' !! path = Some old \/ files s' !! path = None).
Proof. apply writeBase64Atomic_kept. Qed.

Lemma writeBase64Atomic_spares_files_witness :
  exists s' e,
    run (writeBase64Atomic "out/normal" ["a"])
      {| files := {["out/normal" := "b2xk"]}; buffered := ∅ |} s' (Some e)
    /\ (forall q c, q <> "out/normal" ->
          files {| files := {["out/normal" := "b2xk"]}; buffered := ∅ |} !! q
          = Some c ->
          files s' !! q = Some c)
    /\ (Some e <> None ->
        forall old,
          files {| files := {["out/normal" := "b2xk"]}; buffered := ∅ |}
            !! "out/normal" = Some old ->
          files s' !! "out/normal" = Some old
          \/ files s' !! "out/normal" = None).
Proof.
  destruct (writeBase64Atomic_can_lose (H := golib) "out/normal" "b2xk" ["a"])
    as (s' & e & Hrun & _).
  exists s', e. split; [exact Hrun|].
  exact (writeBase64Atomic_spares_files golib "out/normal" ["a"] _ s' (Some e)
           Hrun).
Defined.


(** X17.  [writeBase64Atomic] can lose the destination: since it removes
    [path] before it renames the temporary file, there is a run on a
    file system that holds [path] which returns an error and leaves no
    file at [path]. *)
Theorem writeBase64Atomic_can_lose_destination
  (L : GoLib) (path old : string) (lines : list string) :
  exists s' e,
    run (writeBase64Atomic path lines)
      {| files := {[path := old]}; buffered := ∅ |} s' (Some e)
    /\ files s' !! path = None.
Proof. apply writeBase64Atomic_can_lose. Qed.


(** ** Base64 texts of subscriptions and of vmess payloads *)

Lemma b64char_facts c :
  b64char c = true ->
  possibleB64 c = true /\ plain c = true /\ base64.isNL c = false
  /\ c <> "-"%char /\ c <> "_"%char.
Proof.
  destruct c as [b0 b1 b2 b3 b4 b5 b6 b7].
  destruct b0, b1, b2, b3, b4, b5, b6, b7; intros Hc;
    try discriminate Hc; repeat split; try reflexivity; discriminate.
Qed.

Lemma encode1_b64char b0 b1 b2 b3 b4 b5 :
  b64char (base64.encode1 (Ascii b0 b1 b2 b3 b4 b5 false false)) = true
  /\ base64.encode1 (Ascii b0 b1 b2 b3 b4 b5 false false) <> "="%char.
Proof. destruct b0, b1, b2, b3, b4, b5; split; (reflexivity || discriminate). Qed.

Lemma sextets_b64char a b c :
  let '(d0, d1, d2, d3) := base64.sextets a b c in
  (b64char (base64.encode1 d0) = true /\ base64.encode1 d0 <> "="%char)
  /\ (b64char (base64.encode1 d1) = true /\ base64.encode1 d1 <> "="%char)
  /\ (b64char (base64.encode1 d2) = true /\ base64.encode1 d2 <> "="%char)
  /\ (b64char (base64.encode1 d3) = true /\ base64.encode1 d3 <> "="%char).
Proof.
  destruct a, b, c. cbn [base64.sextets].
  repeat split; apply encode1_b64char.
Qed.

Lemma encode_b64char s : all_bytes b64char (base64.encode s) = true.
Proof.
  induction s as [|a|a b|a b c r IH] using string_ind3.
  - reflexivity.
  - cbn [base64.encode].
    pose proof (sextets_b64char a base64.zero base64.zero) as H6.
    destruct (base64.sextets a base64.zero base64.zero) as [[[d0 d1] d2] d3].
    destruct H6 as ([H0 _] & [H1 _] & _). cbn [all_bytes].
    now rewrite H0, H1.
  - cbn [base64.encode].
    pose proof (sextets_b64char a b base64.zero) as H6.
    destruct (base64.sextets a b base64.zero) as [[[d0 d1] d2] d3].
    destruct H6 as ([H0 _] & [H1 _] & [H2 _] & _). cbn [all_bytes].
    now rewrite H0, H1, H2.
  - cbn [base64.encode].
    pose proof (sextets_b64char a b c) as H6.
    destruct (base64.sextets a b c) as [[[d0 d1] d2] d3].
    destruct H6 as ([H0 _] & [H1 _] & [H2 _] & [H3 _]). cbn [all_bytes].
    now rewrite H0, H1, H2, H3, IH.
Qed.

Lemma all_bytes_impl (p q : ascii -> bool) s :
  (forall c, p c = true -> q c = true) ->
  all_bytes p s = true -> all_bytes q s = true.
Proof.
  intros Hpq. induction s as [|c r IH]; [reflexivity|].
  cbn [all_bytes]. intros Hs. apply andb_true_iff in Hs as [Hc Hr].
  now rewrite (Hpq c Hc), IH.
Qed.

Lemma trimRight_all_plain s :
  all_bytes plain s = true -> strings.trimRight s = s.
Proof.
  induction s as [|c r IH]; [reflexivity|].
  cbn [all_bytes]. intros Hs. apply andb_true_iff in Hs as [Hc Hr].
  now rewrite trimRight_plain, IH.
Qed.

Lemma TrimSpace_all_plain s :
  all_bytes plain s = true -> strings.TrimSpace s = s.
Proof.
  destruct s as [|c r]; [reflexivity|]. intros Hs.
  pose proof (trimRight_all_plain _ Hs) as Hr.
  cbn [all_bytes] in Hs. apply andb_true_iff in Hs as [Hc _].
  unfold strings.TrimSpace. now rewrite trimLeft_plain.
Qed.

Lemma encode_plain s : all_bytes plain (base64.encode s) = true.
Proof.
  apply all_bytes_impl with b64char; [|apply encode_b64char].
  intros c Hc. now apply b64char_facts in Hc.
Qed.

Lemma encode_empty s : base64.encode s = "" -> s = "".
Proof.
  destruct s as [|a [|b [|c r]]]; [reflexivity| | |]; cbn [base64.encode].
  - destruct (base64.sextets a base64.zero base64.zero) as [[[d0 d1] d2] d3].
    discriminate.
  - destruct (base64.sextets a b base64.zero) as [[[d0 d1] d2] d3].
    discriminate.
  - destruct (base64.sextets a b c) as [[[d0 d1] d2] d3]. discriminate.
Qed.

(** *** New lines do not matter to the decoder *)

Lemma ReplaceAll_without c s :
  strings.ReplaceAll s (String c "") "" = without c s.
Proof.
  unfold strings.ReplaceAll.
  induction s as [|a r IH]; [reflexivity|].
  cbn [strings.replace_go without]. rewrite prefix1.
  destruct (Ascii.eqb a c); cbn [String.length Nat.sub]; sapp; now rewrite IH.
Qed.

Lemma skipNL_head r c r' : base64.skipNL r = String c r' -> base64.isNL c = false.
Proof.
  induction r as [|a r IH]; [discriminate|]. cbn [base64.skipNL].
  destruct (base64.isNL a) eqn:Ea; [exact IH|].
  intros [= <- <-]. exact Ea.
Qed.

Lemma isNL_newline c : Ascii.eqb c "010" = true -> base64.isNL c = true.
Proof. unfold base64.isNL. now intros ->. Qed.

Lemma skipNL_without r :
  base64.skipNL (without "010" r) = without "010" (base64.skipNL r).
Proof.
  induction r as [|a r IH]; [reflexivity|].
  cbn [without base64.skipNL].
  destruct (Ascii.eqb a "010") eqn:Ea.
  - now rewrite (isNL_newline a Ea).
  - cbn [base64.skipNL]. destruct (base64.isNL a); [exact IH|].
    cbn [without]. now rewrite Ea.
Qed.

Lemma skipNL_without_nil r :
  base64.skipNL r = "" -> base64.skipNL (without "010" r) = "".
Proof. intros Hr. now rewrite skipNL_without, Hr. Qed.

Lemma skipNL_without_cons r c r' :
  base64.skipNL r = String c r' ->
  base64.skipNL (without "010" r) = String c (without "010" r').
Proof.
  intros Hr. pose proof (skipNL_head r c r' Hr) as Hc.
  rewrite skipNL_without, Hr. cbn [without].
  destruct (Ascii.eqb c "010") eqn:Ec; [|reflexivity].
  rewrite (isNL_newline c Ec) in Hc. discriminate.
Qed.

Lemma decode_without s : forall q,
  base64.decode q (without "010" s) = base64.decode q s.
Proof.
  induction s as [|c r IH]; intros q; [reflexivity|].
  cbn [without]. destruct (Ascii.eqb c "010") eqn:Ec.
  - rewrite IH. apply Ascii.eqb_eq in Ec. subst c. reflexivity.
  - cbn [base64.decode].
    destruct (base64.decodeMap c) as [v|].
    + destruct q as [|d0 [|d1 [|d2 [|d3 q]]]]; rewrite ?IH; reflexivity.
    + destruct (base64.isNL c); [apply IH|].
      destruct (Ascii.eqb c "="); [|reflexivity].
      destruct q as [|d0 [|d1 [|d2 [|d3 q]]]]; try reflexivity.
      * destruct (base64.skipNL r) as [|c' r'] eqn:Hr.
        { now rewrite (skipNL_without_nil r Hr). }
        rewrite (skipNL_without_cons r c' r' Hr).
        destruct (Ascii.eqb c' "="); [|reflexivity].
        destruct (base64.skipNL r') as [|c'' r''] eqn:Hr'.
        { now rewrite (skipNL_without_nil r' Hr'). }
        now rewrite (skipNL_without_cons r' c'' r'' Hr').
      * destruct (base64.skipNL r) as [|c' r'] eqn:Hr.
        { now rewrite (skipNL_without_nil r Hr). }
        now rewrite (skipNL_without_cons r c' r' Hr).
Qed.

Lemma DecodeString_without_newlines s :
  base64.DecodeString (strings.ReplaceAll s (String "010" "") "")
  = base64.DecodeString s.
Proof.
  unfold base64.DecodeString. now rewrite ReplaceAll_without, decode_without.
Qed.

Lemma len_zero s : (strings.len s =? 0) = String.eqb s "".
Proof. destruct s; reflexivity. Qed.

(** X18.  [tryDecodeIfBase64] decodes what was encoded: given the
    standard base64 encoding of a text that names a scheme ([vless://],
    [vmess://] or [ss://], in any case), it returns the text. *)
Theorem tryDecodeIfBase64_decodes (L : GoLib) (text : string) :
  marked text = true ->
  tryDecodeIfBase64 (base64.EncodeToString text) = text.
Proof.
  intros Hm. unfold tryDecodeIfBase64, base64.EncodeToString. cbv zeta.
  rewrite (TrimSpace_all_plain _ (encode_plain text)), len_zero.
  destruct (String.eqb_spec (base64.encode text) "") as [He|He].
  { rewrite He. symmetry. now apply encode_empty. }
  unfold rePossibleB64.
  destruct (String.eqb_spec (base64.encode text) ""); [contradiction|].
  rewrite (all_bytes_impl b64char possibleB64 _
             (fun c Hc => proj1 (b64char_facts c Hc)) (encode_b64char text)).
  cbn [negb andb].
  pose proof (DecodeString_EncodeToString text) as Hd.
  unfold base64.EncodeToString in Hd. rewrite Hd.
  unfold marked in Hm. cbv zeta in Hm. now rewrite Hm.
Qed.

Lemma tryDecodeIfBase64_decodes_witness :
  tryDecodeIfBase64 (base64.EncodeToString "VLESS://u@1.2.3.4:443")
  = "VLESS://u@1.2.3.4:443".
Proof.
  apply (tryDecodeIfBase64_decodes golib "VLESS://u@1.2.3.4:443").
  vm_compute. reflexivity.
Defined.

(** X19.  [tryDecodeIfBase64] has three outcomes: the empty text for a
    blank input; the input itself; or the decoding of the trimmed
    input, which then is made of base64 characters, carriage returns
    and new lines only, decodes at the first attempt, and names a
    scheme.  (The second attempt, without new lines, never succeeds
    where the first failed: the decoder ignores new lines.) *)
Theorem tryDecodeIfBase64_cases (L : GoLib) (b : string) :
  let r := tryDecodeIfBase64 b in
  (strings.TrimSpace b = "" /\ r = "")
  \/ (strings.TrimSpace b <> "" /\ r = b)
  \/ (rePossibleB64 (strings.TrimSpace b) = true
      /\ base64.DecodeString (strings.TrimSpace b) = Ok r
      /\ marked r = true).
Proof.
  cbv zeta. unfold tryDecodeIfBase64. cbv zeta.
  rewrite len_zero, DecodeString_without_newlines.
  destruct (String.eqb_spec (strings.TrimSpace b) "") as [Hb|Hb].
  { left. now rewrite Hb. }
  destruct (rePossibleB64 (strings.TrimSpace b)); cbn [negb]; [|auto].
  destruct (base64.DecodeString (strings.TrimSpace b)) as [dec|e]; [|auto].
  fold (marked dec). destruct (marked dec) eqn:Hm; auto.
Qed.


(** *** The encodings that [decodeVmessBase64] reads *)

Lemma ReplaceAll_char c d s :
  strings.ReplaceAll s (String c "") (String d "")
  = strmap (fun a => if Ascii.eqb a c then d else a) s.
Proof.
  unfold strings.ReplaceAll.
  induction s as [|a r IH]; [reflexivity|].
  cbn [strings.replace_go strmap]. rewrite prefix1.
  destruct (Ascii.eqb a c); cbn [String.length Nat.sub]; sapp; now rewrite IH.
Qed.

Lemma strmap_strmap f g s : strmap f (strmap g s) = strmap (fun c => f (g c)) s.
Proof. induction s as [|a r IH]; [reflexivity|]. cbn [strmap]. now rewrite IH. Qed.

Lemma strmap_id f s :
  all_bytes b64char s = true ->
  (forall c, b64char c = true -> f c = c) -> strmap f s = s.
Proof.
  intros Hs Hf. induction s as [|a r IH]; [reflexivity|].
  cbn [all_bytes] in Hs. apply andb_true_iff in Hs as [Ha Hr].
  cbn [strmap]. now rewrite (Hf a Ha), IH.
Qed.

Lemma restore_std c :
  b64char c = true ->
  (if Ascii.eqb (if Ascii.eqb c "-" then "+"%char else c) "_"
   then "/"%char else if Ascii.eqb c "-" then "+"%char else c) = c.
Proof.
  intros Hc. apply b64char_facts in Hc as (_ & _ & _ & H1 & H2).
  destruct (Ascii.eqb_spec c "-"); [contradiction|].
  destruct (Ascii.eqb_spec c "_"); [contradiction|reflexivity].
Qed.

Lemma restore_urlsafe c :
  b64char c = true ->
  (if Ascii.eqb (if Ascii.eqb (urlsafe1 c) "-" then "+"%char else urlsafe1 c) "_"
   then "/"%char
   else if Ascii.eqb (urlsafe1 c) "-" then "+"%char else urlsafe1 c) = c.
Proof.
  intros Hc. apply b64char_facts in Hc as (_ & _ & _ & H1 & H2).
  unfold urlsafe1.
  destruct (Ascii.eqb_spec c "+") as [->|]; [reflexivity|].
  destruct (Ascii.eqb_spec c "/") as [->|]; [reflexivity|].
  destruct (Ascii.eqb_spec c "-"); [contradiction|].
  destruct (Ascii.eqb_spec c "_"); [contradiction|reflexivity].
Qed.

Lemma without_b64char c s :
  all_bytes b64char s = true -> all_bytes b64char (without c s) = true.
Proof.
  induction s as [|a r IH]; [reflexivity|].
  cbn [all_bytes without]. intros Hs. apply andb_true_iff in Hs as [Ha Hr].
  destruct (Ascii.eqb a c); [auto|]. cbn [all_bytes]. now rewrite Ha, IH.
Qed.

Lemma urlsafe1_plain c : b64char c = true -> plain (urlsafe1 c) = true.
Proof.
  intros Hc. unfold urlsafe1.
  destruct (Ascii.eqb c "+"); [reflexivity|].
  destruct (Ascii.eqb c "/"); [reflexivity|].
  now apply b64char_facts in Hc.
Qed.

Lemma strmap_plain f s :
  all_bytes b64char s = true ->
  (forall c, b64char c = true -> plain (f c) = true) ->
  all_bytes plain (strmap f s) = true.
Proof.
  intros Hs Hf. induction s as [|a r IH]; [reflexivity|].
  cbn [all_bytes] in Hs. apply andb_true_iff in Hs as [Ha Hr].
  cbn [strmap all_bytes]. now rewrite (Hf a Ha), IH.
Qed.

Lemma padded_quantum c0 c1 c2 c3 w :
  padded (String c0 (String c1 (String c2 (String c3 w))))
  = String c0 (String c1 (String c2 (String c3 (padded w)))).
Proof.
  unfold padded. cbv zeta.
  replace (strings.len (String c0 (String c1 (String c2 (String c3 w)))))
    with (strings.len w + 1 * 4)
    by (unfold strings.len; cbn [String.length]; lia).
  rewrite Z_mod_plus_full.
  destruct (negb (strings.len w mod 4 =? 0)); reflexivity.
Qed.

(** Padding the text of an encoding from which the padding was removed,
    or was not, gives the encoding. *)
Lemma padded_encode s :
  padded (without "=" (base64.encode s)) = base64.encode s
  /\ padded (base64.encode s) = base64.encode s.
Proof.
  induction s as [|a|a b|a b c r [IH1 IH2]] using string_ind3.
  - split; reflexivity.
  - cbn [base64.encode].
    pose proof (sextets_b64char a base64.zero base64.zero) as H6.
    destruct (base64.sextets a base64.zero base64.zero) as [[[d0 d1] d2] d3].
    destruct H6 as ([_ H0] & [_ H1] & _).
    split; [|reflexivity]. cbn [without].
    apply Ascii.eqb_neq in H0, H1. rewrite H0, H1. reflexivity.
  - cbn [base64.encode].
    pose proof (sextets_b64char a b base64.zero) as H6.
    destruct (base64.sextets a b base64.zero) as [[[d0 d1] d2] d3].
    destruct H6 as ([_ H0] & [_ H1] & [_ H2] & _).
    split; [|reflexivity]. cbn [without].
    apply Ascii.eqb_neq in H0, H1, H2. rewrite H0, H1, H2. reflexivity.
  - cbn [base64.encode].
    pose proof (sextets_b64char a b c) as H6.
    destruct (base64.sextets a b c) as [[[d0 d1] d2] d3].
    destruct H6 as ([_ H0] & [_ H1] & [_ H2] & [_ H3]).
    split.
    + cbn [without].
      apply Ascii.eqb_neq in H0, H1, H2, H3. rewrite H0, H1, H2, H3.
      now rewrite padded_quantum, IH1.
    + now rewrite padded_quantum, IH2.
Qed.

Lemma without_encode_nonempty s :
  s <> "" -> without "=" (base64.encode s) <> "".
Proof.
  destruct s as [|a [|b [|c r]]]; [contradiction| | |]; intros _;
    cbn [base64.encode].
  - pose proof (sextets_b64char a base64.zero base64.zero) as H6.
    destruct (base64.sextets a base64.zero base64.zero) as [[[d0 d1] d2] d3].
    destruct H6 as ([_ H0] & _). cbn [without].
    apply Ascii.eqb_neq in H0. rewrite H0. discriminate.
  - pose proof (sextets_b64char a b base64.zero) as H6.
    destruct (base64.sextets a b base64.zero) as [[[d0 d1] d2] d3].
    destruct H6 as ([_ H0] & _). cbn [without].
    apply Ascii.eqb_neq in H0. rewrite H0. discriminate.
  - pose proof (sextets_b64char a b c) as H6.
    destruct (base64.sextets a b c) as [[[d0 d1] d2] d3].
    destruct H6 as ([_ H0] & _). cbn [without].
    apply Ascii.eqb_neq in H0. rewrite H0. discriminate.
Qed.

Lemma strmap_nonempty f s : s <> "" -> strmap f s <> "".
Proof. destruct s; [contradiction|discriminate]. Qed.

Section VmessEncodings.
Context `{GoLib}.

Lemma decodeVmessBase64_padded x :
  strings.TrimSpace x = x -> x <> "" ->
  decodeVmessBase64 x
  = base64.DecodeString
      (padded (strings.ReplaceAll (strings.ReplaceAll x "-" "+") "_" "/")).
Proof.
  intros Ht Hne. unfold decodeVmessBase64, padded. cbv zeta. rewrite Ht.
  destruct (String.eqb_spec x ""); [contradiction|].
  now destruct (base64.DecodeString _).
Qed.

Lemma decodeVmessBase64_encodeWith urlsafe pad src :
  src <> "" -> decodeVmessBase64 (encodeWith urlsafe pad src) = Ok src.
Proof.
  intros Hne. unfold encodeWith, base64.EncodeToString. cbv zeta.
  set (e := if pad then base64.encode src
            else without "=" (base64.encode src)).
  assert (He : all_bytes b64char e = true).
  { subst e. destruct pad; [|apply without_b64char]; apply encode_b64char. }
  assert (Hne' : e <> "").
  { subst e. destruct pad; [|now apply without_encode_nonempty].
    intros Hx. now apply encode_empty in Hx. }
  assert (Hp : padded e = base64.encode src).
  { subst e. destruct pad; apply padded_encode. }
  rewrite decodeVmessBase64_padded.
  - rewrite !ReplaceAll_char.
    destruct urlsafe.
    + rewrite !strmap_strmap.
      rewrite (strmap_id _ e He restore_urlsafe), Hp.
      unfold base64.DecodeString. now rewrite decode_encode.
    + rewrite !strmap_strmap.
      rewrite (strmap_id _ e He restore_std), Hp.
      unfold base64.DecodeString. now rewrite decode_encode.
  - apply TrimSpace_all_plain. destruct urlsafe.
    + apply strmap_plain; [assumption|apply urlsafe1_plain].
    + apply all_bytes_impl with b64char; [|assumption].
      intros c Hc. now apply b64char_facts in Hc.
  - destruct urlsafe; [now apply strmap_nonempty|assumption].
Qed.

End VmessEncodings.

(** X20.  [decodeVmessBase64] reads the four encodings of
    [encoding/base64]: for every non-empty payload, its encoding with
    the standard or the URL-safe alphabet, padded or not, decodes to
    the payload. *)
Theorem decodeVmessBase64_reads_encodings
  (L : GoLib) (urlsafe pad : bool) (src : string) :
  src <> "" -> decodeVmessBase64 (encodeWith urlsafe pad src) = Ok src.
Proof. apply decodeVmessBase64_encodeWith. Qed.

Lemma decodeVmessBase64_reads_encodings_witness :
  decodeVmessBase64 (encodeWith true false "{?>") = Ok "{?>"
  /\ encodeWith true false "{?>" = "ez8-"
  /\ encodeWith false true "{" = "ew==".
Proof.
  split; [|split; reflexivity].
  apply (decodeVmessBase64_reads_encodings golib true false "{?>").
  discriminate.
Defined.


(** ** Splitting a line that holds several URIs *)

Lemma str_prefix_length p s :
  String.prefix p s = true -> (String.length p <= String.length s)%nat.
Proof.
  revert s. induction p as [|c p IH]; intros s Hp; [cbn; lia|].
  destruct s as [|a r]; [discriminate|].
  rewrite prefix_cons in Hp. apply andb_true_iff in Hp as [_ Hp].
  apply IH in Hp. cbn. lia.
Qed.

Lemma Index_unfold s sub :
  strings.Index s sub =
  if String.prefix sub s then 0
  else match s with
       | EmptyString => -1
       | String _ r =>
           let i := strings.Index r sub in if i <? 0 then -1 else i + 1
       end.
Proof. destruct s; reflexivity. Qed.

Lemma Index_ge s sub : -1 <= strings.Index s sub.
Proof.
  induction s as [|a r IH]; rewrite Index_unfold;
    destruct (String.prefix sub _); try lia.
  cbv zeta. destruct (strings.Index r sub <? 0); lia.
Qed.

(** Where [Index] finds [sub], there it is. *)
Lemma Index_found s sub :
  0 <= strings.Index s sub ->
  String.prefix sub (strings.drop (Z.to_nat (strings.Index s sub)) s) = true
  /\ strings.Index s sub + strings.len sub <= strings.len s.
Proof.
  unfold strings.len.
  induction s as [|a r IH]; rewrite Index_unfold.
  - destruct (String.prefix sub "") eqn:Hp; [|lia].
    intros _. split; [exact Hp|]. apply str_prefix_length in Hp. lia.
  - destruct (String.prefix sub (String a r)) eqn:Hp.
    + intros _. split; [exact Hp|]. apply str_prefix_length in Hp. lia.
    + cbv zeta.
      destruct (Z.ltb_spec (strings.Index r sub) 0) as [Hi|Hi]; [lia|].
      intros _. destruct (IH Hi) as [Hd Hl].
      replace (Z.to_nat (strings.Index r sub + 1))
        with (S (Z.to_nat (strings.Index r sub))) by lia.
      cbn [strings.drop String.length]. split; [exact Hd|lia].
Qed.

Lemma Index_prefix s sub : String.prefix sub s = true -> strings.Index s sub = 0.
Proof. intros Hp. rewrite Index_unfold. now rewrite Hp. Qed.

Lemma str_drop_length n s :
  String.length (strings.drop n s) = (String.length s - n)%nat.
Proof.
  revert s. induction n as [|n IH]; intros s; [cbn; lia|].
  destruct s as [|a r]; [reflexivity|]. cbn [strings.drop String.length].
  now rewrite IH.
Qed.

Lemma str_drop_drop n m s :
  strings.drop n (strings.drop m s) = strings.drop (m + n) s.
Proof.
  revert s. induction m as [|m IH]; intros s; [reflexivity|].
  destruct s as [|a r]; [now destruct n|]. cbn [strings.drop Nat.add].
  apply IH.
Qed.

Lemma str_take_all n s :
  (String.length s <= n)%nat -> strings.take n s = s.
Proof.
  revert s. induction n as [|n IH]; intros s Hn.
  - destruct s; [reflexivity|cbn in Hn; lia].
  - destruct s as [|a r]; [reflexivity|]. cbn [strings.take].
    rewrite IH; [reflexivity|cbn in Hn; lia].
Qed.

Lemma get_in_range s n :
  (n < String.length s)%nat -> exists c, String.get n s = Some c.
Proof.
  revert n. induction s as [|a r IH]; intros n Hn; [cbn in Hn; lia|].
  destruct n as [|n]; [exists a; reflexivity|].
  cbn [String.get]. apply IH. cbn in Hn. lia.
Qed.

Lemma byte_at_in_range s i :
  0 <= i < strings.len s -> exists c, byte_at s i = Some c.
Proof.
  intros Hi. unfold byte_at.
  destruct (Z.leb_spec 0 i); [|lia].
  destruct (Z.ltb_spec i (strings.len s)); [|lia]. cbn [andb].
  apply get_in_range. unfold strings.len in Hi. lia.
Qed.

Lemma slice_from_ok s lo :
  0 <= lo <= strings.len s ->
  slice s lo (strings.len s) = Some (strings.drop (Z.to_nat lo) s).
Proof.
  intros Hlo. unfold slice.
  destruct (Z.leb_spec 0 lo); [|lia].
  destruct (Z.leb_spec lo (strings.len s)); [|lia].
  destruct (Z.leb_spec (strings.len s) (strings.len s)); [|lia].
  cbn [andb]. f_equal. apply str_take_all. rewrite str_drop_length.
  unfold strings.len. lia.
Qed.

Lemma slice_to_ok s hi :
  0 <= hi <= strings.len s ->
  slice s 0 hi = Some (strings.take (Z.to_nat hi) s).
Proof.
  intros Hhi. unfold slice.
  destruct (Z.leb_spec 0 0); [|lia].
  destruct (Z.leb_spec 0 hi); [|lia].
  destruct (Z.leb_spec hi (strings.len s)); [|lia].
  cbn [andb]. now rewrite Z.sub_0_r.
Qed.

(** The inner loop stops at the byte before the letters that precede
    [start + 1]. *)
Lemma schemeStart_done cur : forall fuel start,
  -1 <= start < strings.len cur -> start + 1 < Z.of_nat fuel ->
  exists st,
    schemeStart fuel cur start = Done st /\ -1 <= st <= start
    /\ (forall j c, st < j <= start -> byte_at cur j = Some c ->
                    isSchemeChar c = true)
    /\ (st = -1 \/ exists c, byte_at cur st = Some c
                             /\ isSchemeChar c = false).
Proof.
  induction fuel as [|fuel IH]; intros start Hs Hf; [lia|].
  cbn [schemeStart].
  destruct (Z.leb_spec 0 start) as [H0|H0].
  2:{ exists start. repeat split; lia. }
  destruct (byte_at_in_range cur start) as [c Hc]; [lia|]. rewrite Hc.
  destruct (isSchemeChar c) eqn:Hsc.
  - destruct (IH (start - 1)) as (st & Hst & Hb & Hall & Hend); [lia|lia|].
    exists st. split; [exact Hst|]. split; [lia|]. split; [|exact Hend].
    intros j d Hj Hd.
    destruct (Z.eq_dec j start) as [->|Hne]; [congruence|].
    apply (Hall j d); [lia|assumption].
  - exists start. split; [reflexivity|]. split; [lia|]. split; [intros; lia|].
    right. eauto.
Qed.

Lemma str_prefix_take p s n :
  String.prefix p s = true -> (String.length p <= n)%nat ->
  String.prefix p (strings.take n s) = true.
Proof.
  revert s n. induction p as [|c p IH]; intros s n Hp Hn; [apply prefix_nil|].
  destruct s as [|a r]; [discriminate|].
  destruct n as [|n]; [cbn in Hn; lia|].
  cbn [strings.take]. rewrite prefix_cons in Hp |- *.
  apply andb_true_iff in Hp as [Ha Hp]. rewrite Ha. cbn [andb].
  apply IH; [assumption|cbn in Hn; lia].
Qed.

Lemma marker_inv t :
  String.prefix "://" t = true ->
  exists r, t = String ":" (String "/" (String "/" r)).
Proof.
  destruct t as [|a [|b [|c r]]]; try discriminate;
    rewrite ?prefix_cons; cbn [String.prefix]; rewrite ?andb_false_r;
    try discriminate.
  destruct (Ascii.eqb_spec a ":") as [->|]; [|discriminate].
  destruct (Ascii.eqb_spec b "/") as [->|]; [|discriminate].
  destruct (Ascii.eqb_spec c "/") as [->|]; [|discriminate].
  eauto.
Qed.

(** Trimming does not eat a leading [://]. *)
Lemma TrimSpace_marker t :
  String.prefix "://" t = true ->
  String.prefix "://" (strings.TrimSpace t) = true.
Proof.
  intros Hp. apply marker_inv in Hp as [r ->].
  rewrite TrimSpace_plain by reflexivity.
  rewrite !trimRight_plain by reflexivity.
  rewrite !prefix_cons, prefix_nil. reflexivity.
Qed.

(** One iteration of the loop of [splitPossible]. *)
Lemma splitPossible_loop_step fuel cur parts :
  0 <= strings.Index cur "://" ->
  exists st,
    let rest := strings.drop (Z.to_nat (st + 1)) cur in
    let next := strings.Index (strings.drop 3 rest) "://" in
    -1 <= st < strings.Index cur "://"
    /\ (forall j c, st < j < strings.Index cur "://" ->
                    byte_at cur j = Some c -> isSchemeChar c = true)
    /\ (st = -1 \/ exists c, byte_at cur st = Some c /\ isSchemeChar c = false)
    /\ splitPossible_loop (S fuel) cur parts
       = (if 0 <=? next then
            splitPossible_loop fuel (strings.drop (Z.to_nat (next + 3)) rest)
              (parts ++ [strings.TrimSpace
                           (strings.take (Z.to_nat (next + 3)) rest)])
          else Done (parts ++ [strings.TrimSpace rest]))
    /\ (0 <= next ->
        (String.length (strings.drop (Z.to_nat (next + 3)) rest) + 3
         <= String.length cur)%nat
        /\ String.prefix "://" (strings.drop (Z.to_nat (next + 3)) rest) = true).
Proof.
  intros Hidx. destruct (Index_found cur "://" Hidx) as [_ Hlen].
  change (strings.len "://") with 3 in Hlen.
  destruct (schemeStart_done cur (S (String.length cur))
              (strings.Index cur "://" - 1))
    as (st & Hst & Hb & Hall & Hend);
    [lia|unfold strings.len in Hlen; lia|].
  exists st. cbv zeta.
  set (rest := strings.drop (Z.to_nat (st + 1)) cur).
  assert (Hrest : strings.len rest = strings.len cur - (st + 1)).
  { unfold strings.len, rest in *. rewrite str_drop_length. lia. }
  split; [lia|]. split.
  { intros j c Hj. apply Hall. lia. }
  split; [exact Hend|].
  assert (Hnext : 0 <= strings.Index (strings.drop 3 rest) "://" ->
            strings.Index (strings.drop 3 rest) "://" + 3 + 3
            <= strings.len rest
            /\ String.prefix "://"
                 (strings.drop
                    (Z.to_nat (strings.Index (strings.drop 3 rest) "://" + 3))
                    rest) = true).
  { intros Hn. destruct (Index_found _ "://" Hn) as [Hp Hl].
    change (strings.len "://") with 3 in Hl.
    assert (Hl3 : strings.len (strings.drop 3 rest) = strings.len rest - 3).
    { unfold strings.len in *. rewrite str_drop_length. lia. }
    split; [lia|].
    rewrite str_drop_drop in Hp.
    replace (Z.to_nat (strings.Index (strings.drop 3 rest) "://" + 3))
      with (3 + Z.to_nat (strings.Index (strings.drop 3 rest) "://"))%nat
      by lia.
    exact Hp. }
  split.
  - cbn [splitPossible_loop].
    destruct (Z.ltb_spec (strings.Index cur "://") 0); [lia|].
    rewrite Hst. rewrite slice_from_ok by lia. fold rest.
    rewrite (slice_from_ok rest 3) by lia.
    change (Z.to_nat 3) with 3%nat.
    destruct (Z.leb_spec 0 (strings.Index (strings.drop 3 rest) "://"))
      as [Hn|Hn]; [|reflexivity].
    destruct (Hnext Hn) as [Hl _].
    rewrite slice_to_ok by lia. rewrite slice_from_ok by lia. reflexivity.
  - intros Hn. destruct (Hnext Hn) as [Hl Hp]. split; [|exact Hp].
    rewrite str_drop_length. unfold strings.len in *. lia.
Qed.

Lemma splitPossible_loop_returns : forall fuel cur parts,
  (String.length cur < fuel)%nat ->
  exists parts', splitPossible_loop fuel cur parts = Done parts'.
Proof.
  induction fuel as [|fuel IH]; intros cur parts Hf; [lia|].
  destruct (Z.ltb_spec (strings.Index cur "://") 0) as [Hi|Hi].
  { exists parts. cbn [splitPossible_loop].
    destruct (Z.ltb_spec (strings.Index cur "://") 0); [reflexivity|lia]. }
  destruct (splitPossible_loop_step fuel cur parts Hi)
    as (st & _ & _ & _ & -> & Hnext).
  cbv zeta in Hnext.
  destruct (Z.leb_spec 0 (strings.Index
              (strings.drop 3 (strings.drop (Z.to_nat (st + 1)) cur)) "://"))
    as [Hn|Hn]; [|eauto].
  destruct (Hnext Hn) as [Hl _]. apply IH. lia.
Qed.

(** From a text that starts with [://] on, every piece starts with
    [://]. *)
Lemma splitPossible_loop_marked : forall fuel cur parts parts',
  String.prefix "://" cur = true ->
  splitPossible_loop fuel cur parts = Done parts' ->
  exists new, parts' = parts ++ new
              /\ Forall (fun p => String.prefix "://" p = true) new.
Proof.
  induction fuel as [|fuel IH]; intros cur parts parts' Hp; [discriminate|].
  pose proof (Index_prefix cur "://" Hp) as Hi.
  destruct (splitPossible_loop_step fuel cur parts) as
    (st & Hst & _ & _ & -> & Hnext); [lia|].
  cbv zeta in Hnext. rewrite Hi in Hst.
  replace st with (-1) in * by lia.
  change (strings.drop (Z.to_nat (-1 + 1)) cur) with cur in *.
  destruct (Z.leb_spec 0 (strings.Index (strings.drop 3 cur) "://"))
    as [Hn|Hn].
  - destruct (Hnext Hn) as [_ Hp']. intros Hrun.
    apply IH in Hrun as (new & -> & Hall); [|assumption].
    eexists. rewrite <- app_assoc. split; [reflexivity|].
    constructor; [|assumption].
    apply TrimSpace_marker, str_prefix_take; [assumption|].
    change (String.length "://") with 3%nat. lia.
  - intros [= <-]. eexists. split; [reflexivity|].
    constructor; [|constructor]. now apply TrimSpace_marker.
Qed.

Lemma splitPossible_loop_tail fuel cur parts' :
  splitPossible_loop fuel cur [] = Done parts' ->
  Forall (fun p => String.prefix "://" p = true) (tail parts').
Proof.
  destruct fuel as [|fuel]; [discriminate|].
  destruct (Z.ltb_spec (strings.Index cur "://") 0) as [Hi|Hi].
  { cbn [splitPossible_loop].
    destruct (Z.ltb_spec (strings.Index cur "://") 0); [|lia].
    intros [= <-]. constructor. }
  destruct (splitPossible_loop_step fuel cur [] Hi)
    as (st & _ & _ & _ & -> & Hnext).
  cbv zeta in Hnext.
  destruct (Z.leb_spec 0 (strings.Index
              (strings.drop 3 (strings.drop (Z.to_nat (st + 1)) cur)) "://"))
    as [Hn|Hn].
  - destruct (Hnext Hn) as [_ Hp]. intros Hrun.
    apply splitPossible_loop_marked in Hrun as (new & -> & Hall);
      [|assumption].
    exact Hall.
  - intros [= <-]. constructor.
Qed.

Lemma marked_unsupported `{GoLib} p :
  String.prefix "://" p = true ->
  validateLine p = Some (errorString "unsupported or unexpected scheme").
Proof.
  intros Hp. apply marker_inv in Hp as [r ->]. reflexivity.
Qed.

(** X21.  [splitPossible] returns on every input: its loop ends, and no
    index or slice expression is out of range. *)
Theorem splitPossible_returns (s : string) :
  exists parts, splitPossible s = Done parts.
Proof.
  unfold splitPossible.
  destruct (strings.Count s "://" <=? 1); [eauto|].
  apply splitPossible_loop_returns. lia.
Qed.

(** X22.  Every piece that [splitPossible] returns after the first one
    starts with [://]: it has no scheme, and [validateLine] rejects
    it. *)
Theorem splitPossible_later_pieces (L : GoLib) (s : string) (parts : list string) :
  splitPossible s = Done parts ->
  forall p, p ∈ tail parts ->
    strings.HasPrefix p "://" = true
    /\ validateLine p = Some (errorString "unsupported or unexpected scheme").
Proof.
  unfold splitPossible. intros Hs p Hp.
  assert (Hall : Forall (fun p => String.prefix "://" p = true) (tail parts)).
  { destruct (strings.Count s "://" <=? 1).
    - injection Hs as <-. constructor.
    - now apply splitPossible_loop_tail in Hs. }
  rewrite Forall_forall in Hall. specialize (Hall p Hp).
  split; [exact Hall|now apply marked_unsupported].
Qed.

Lemma splitPossible_later_pieces_witness :
  splitPossible "ss://a@b:1 vmess://c" = Done ["ss://a@b:1 vmess"; "://c"]
  /\ strings.HasPrefix "://c" "://" = true
  /\ validateLine "://c"
     = Some (errorString "unsupported or unexpected scheme").
Proof.
  split; [vm_compute; reflexivity|].
  apply (splitPossible_later_pieces golib "ss://a@b:1 vmess://c"
           ["ss://a@b:1 vmess"; "://c"]).
  - vm_compute. reflexivity.
  - apply list_elem_of_here.
Defined.


(** *** A line with a second [://] *)

Lemma letter_not_colon a : isSchemeChar a = true -> Ascii.eqb a ":" = false.
Proof.
  destruct a as [b0 b1 b2 b3 b4 b5 b6 b7].
  destruct b0, b1, b2, b3, b4, b5, b6, b7; intros Ha;
    try discriminate Ha; reflexivity.
Qed.

Lemma letter_plain a : isSchemeChar a = true -> plain a = true.
Proof.
  destruct a as [b0 b1 b2 b3 b4 b5 b6 b7].
  destruct b0, b1, b2, b3, b4, b5, b6, b7; intros Ha;
    try discriminate Ha; reflexivity.
Qed.

Lemma count_from_ge s sub : forall skip, 0 <= strings.count_from skip s sub.
Proof.
  induction s as [|a r IH]; intros skip; [cbn; lia|].
  cbn [strings.count_from]. destruct skip as [|k]; [|apply IH].
  destruct (String.prefix sub (String a r)); [|apply IH].
  pose proof (IH (String.length sub - 1)%nat). lia.
Qed.

Lemma count_from_found r :
  0 <= strings.Index r "://" -> 1 <= strings.count_from 0 r "://".
Proof.
  induction r as [|a r IH]; rewrite Index_unfold.
  - destruct (String.prefix "://" "") eqn:Hp; [discriminate Hp|lia].
  - cbn [strings.count_from].
    destruct (String.prefix "://" (String a r)) eqn:Hp.
    + intros _. pose proof (count_from_ge r "://" (String.length "://" - 1)).
      lia.
    + cbv zeta. destruct (Z.ltb_spec (strings.Index r "://") 0); [lia|].
      intros _. now apply IH.
Qed.

Lemma count_from_letters u t :
  all_bytes isSchemeChar u = true ->
  strings.count_from 0 (u +:+ t) "://" = strings.count_from 0 t "://".
Proof.
  induction u as [|a r IH]; [reflexivity|].
  cbn [all_bytes]. intros Hu. apply andb_true_iff in Hu as [Ha Hr].
  sapp. cbn [strings.count_from]. rewrite prefix_cons.
  rewrite (letter_not_colon a Ha). cbn [andb]. now apply IH.
Qed.

Lemma marker_app t : String.prefix "://" ("://" +:+ t) = true.
Proof. sapp. rewrite !prefix_cons, prefix_nil. reflexivity. Qed.

Lemma Index_letters_to u t :
  all_bytes isSchemeChar u = true -> String.prefix "://" t = true ->
  strings.Index (u +:+ t) "://" = Z.of_nat (String.length u).
Proof.
  intros Hu Ht. induction u as [|a r IH].
  - now apply Index_prefix.
  - cbn [all_bytes] in Hu. apply andb_true_iff in Hu as [Ha Hr].
    rewrite app_cons, Index_unfold, prefix_cons.
    rewrite (letter_not_colon a Ha). cbn [andb]. cbv zeta.
    rewrite (IH Hr).
    destruct (Z.ltb_spec (Z.of_nat (String.length r)) 0); [lia|].
    cbn [String.length]. lia.
Qed.

Lemma Index_letters u t :
  all_bytes isSchemeChar u = true ->
  strings.Index (u +:+ "://" +:+ t) "://" = Z.of_nat (String.length u).
Proof. intros Hu. apply Index_letters_to; [assumption|apply marker_app]. Qed.

Lemma str_take_app_length u t : strings.take (String.length u) (u +:+ t) = u.
Proof.
  induction u as [|a r IH]; [now destruct t|].
  sapp. cbn [String.length strings.take]. now rewrite IH.
Qed.

Lemma str_drop_app_length u t : strings.drop (String.length u) (u +:+ t) = t.
Proof. induction u as [|a r IH]; [reflexivity|]. sapp. exact IH. Qed.

Lemma str_drop_app n u t :
  (n <= String.length u)%nat ->
  strings.drop n (u +:+ t) = strings.drop n u +:+ t.
Proof.
  revert u. induction n as [|n IH]; intros u Hn; [reflexivity|].
  destruct u as [|a r]; [cbn in Hn; lia|].
  sapp. cbn [strings.drop]. apply IH. cbn in Hn. lia.
Qed.

Lemma all_bytes_drop f n u :
  all_bytes f u = true -> all_bytes f (strings.drop n u) = true.
Proof.
  revert u. induction n as [|n IH]; intros u Hu; [assumption|].
  destruct u as [|a r]; [reflexivity|].
  cbn [all_bytes] in Hu. apply andb_true_iff in Hu as [_ Hr].
  cbn [strings.drop]. now apply IH.
Qed.

Lemma all_bytes_get f u : forall j c,
  all_bytes f (u : string) = true -> String.get j u = Some c -> f c = true.
Proof.
  induction u as [|a r IH]; intros j c Hu Hj; [discriminate|].
  cbn [all_bytes] in Hu. apply andb_true_iff in Hu as [Ha Hr].
  destruct j as [|j]; [injection Hj as <-; assumption|].
  now apply (IH j).
Qed.

Lemma prefix_all_bytes f p : forall u,
  String.prefix p u = true -> all_bytes f u = true -> all_bytes f p = true.
Proof.
  induction p as [|c p IH]; intros u Hp Hu; [reflexivity|].
  destruct u as [|a r]; [discriminate|].
  rewrite prefix_cons in Hp. apply andb_true_iff in Hp as [Ha Hp].
  apply Ascii.eqb_eq in Ha. subst a.
  cbn [all_bytes] in Hu |- *. apply andb_true_iff in Hu as [Hc Hr].
  rewrite Hc. cbn [andb]. now apply (IH r).
Qed.

Lemma letters_unsupported `{GoLib} u :
  all_bytes isSchemeChar u = true ->
  validateLine u = Some (errorString "unsupported or unexpected scheme").
Proof.
  intros Hu. unfold validateLine, strings.HasPrefix.
  assert (Hno : forall p, all_bytes isSchemeChar p = false ->
                          String.prefix p u = false).
  { intros p Hp. destruct (String.prefix p u) eqn:E; [|reflexivity].
    rewrite (prefix_all_bytes _ _ _ E Hu) in Hp. discriminate. }
  rewrite !Hno by reflexivity. reflexivity.
Qed.

Lemma count_from_marker t :
  strings.count_from 0 ("://" +:+ t) "://"
  = 1 + strings.count_from 0 t "://".
Proof.
  sapp.
  change (strings.count_from 0 (String ":" (String "/" (String "/" t))) "://")
    with (if String.prefix "://" (String ":" (String "/" (String "/" t)))
          then 1 + strings.count_from 2 (String "/" (String "/" t)) "://"
          else strings.count_from 0 (String "/" (String "/" t)) "://").
  rewrite !prefix_cons, prefix_nil. reflexivity.
Qed.

Section BrokenLine.
Context `{GoLib}.

Lemma splitPossible_scheme_first scheme rest :
  all_bytes isSchemeChar scheme = true ->
  (3 <= String.length scheme)%nat ->
  strings.Contains rest "://" = true ->
  exists parts,
    splitPossible (scheme +:+ "://" +:+ rest) = Done (scheme :: parts)
    /\ Forall (fun p => String.prefix "://" p = true) parts.
Proof.
  intros Hs Hlen Hc. unfold strings.Contains in Hc. apply Z.leb_le in Hc.
  set (s := scheme +:+ "://" +:+ rest).
  assert (Hidx : strings.Index s "://" = Z.of_nat (String.length scheme))
    by now apply Index_letters.
  unfold splitPossible.
  assert (Hcount : 2 <= strings.Count s "://").
  { unfold strings.Count, s.
    rewrite count_from_letters, count_from_marker by assumption.
    pose proof (count_from_found rest Hc). lia. }
  destruct (Z.leb_spec (strings.Count s "://") 1); [lia|].
  destruct (splitPossible_loop_step (String.length s) s [])
    as (st & Hst & Hall & Hend & Hstep & Hnext); [lia|].
  cbv zeta in Hnext.
  assert (Hst' : st = -1).
  { destruct Hend as [?|(c & Hc' & Hn)]; [assumption|]. exfalso.
    unfold byte_at in Hc'.
    destruct ((0 <=? st) && (st <? strings.len s)) eqn:Hr; [|discriminate].
    apply andb_true_iff in Hr as [Hge _]. apply Z.leb_le in Hge.
    unfold s in Hc'.
    rewrite <- append_correct1 in Hc' by lia.
    rewrite (all_bytes_get _ _ _ _ Hs Hc') in Hn. discriminate. }
  subst st.
  change (strings.drop (Z.to_nat (-1 + 1)) s) with s in *.
  assert (Hn3 : strings.Index (strings.drop 3 s) "://"
                = Z.of_nat (String.length scheme) - 3).
  { unfold s. rewrite str_drop_app by lia.
    rewrite Index_letters by now apply all_bytes_drop.
    rewrite str_drop_length. lia. }
  rewrite Hn3 in Hstep, Hnext.
  destruct (Z.leb_spec 0 (Z.of_nat (String.length scheme) - 3)); [|lia].
  replace (Z.to_nat (Z.of_nat (String.length scheme) - 3 + 3))
    with (String.length scheme) in * by lia.
  destruct Hnext as [Hl Hp]; [lia|].
  assert (Htake : strings.take (String.length scheme) s = scheme)
    by apply str_take_app_length.
  rewrite Htake in Hstep.
  rewrite TrimSpace_all_plain in Hstep.
  2:{ apply all_bytes_impl with isSchemeChar; [apply letter_plain|exact Hs]. }
  rewrite Hstep. cbn [app].
  destruct (splitPossible_loop_returns (String.length s)
              (strings.drop (String.length scheme) s) [scheme])
    as [parts' Hrun]; [lia|].
  pose proof Hrun as Hrun'.
  apply splitPossible_loop_marked in Hrun' as (new & -> & Hnew);
    [|assumption].
  exists new. split; [exact Hrun|exact Hnew].
Qed.

End BrokenLine.

(** X23.  [splitPossible] breaks a line with a second [://]: when the
    line starts with a scheme of three letters or more and holds
    another [://] after the one of the scheme, the first piece is the
    bare scheme and no piece passes [validateLine]. *)
Theorem splitPossible_breaks_line (L : GoLib) (scheme rest : string) :
  all_bytes isSchemeChar scheme = true ->
  (3 <= String.length scheme)%nat ->
  strings.Contains rest "://" = true ->
  exists parts,
    splitPossible (scheme +:+ "://" +:+ rest) = Done (scheme :: parts)
    /\ forall p, p ∈ scheme :: parts ->
         validateLine p = Some (errorString "unsupported or unexpected scheme").
Proof.
  intros Hs Hlen Hc.
  destruct (splitPossible_scheme_first scheme rest Hs Hlen Hc)
    as (parts & Hrun & Hall).
  exists parts. split; [exact Hrun|].
  intros p Hp. apply elem_of_cons in Hp as [->|Hp].
  - now apply letters_unsupported.
  - rewrite Forall_forall in Hall. now apply marked_unsupported, Hall.
Qed.

Lemma splitPossible_breaks_line_witness :
  exists parts,
    splitPossible ("vless" +:+ "://" +:+ "u@1.2.3.4:443?host=http://x.example")
    = Done ("vless" :: parts)
    /\ forall p, p ∈ "vless" :: parts ->
         validateLine p = Some (errorString "unsupported or unexpected scheme").
Proof.
  apply (splitPossible_breaks_line golib "vless"
           "u@1.2.3.4:443?host=http://x.example"); [reflexivity|cbn; lia|].
  vm_compute. reflexivity.
Defined.


(** ** File names *)

Lemma sanitize_byte a :
  safeName (let b := if Ascii.eqb a "/" then "_"%char else a in
            if invalidName b then "_"%char else b) = true.
Proof.
  cbv zeta. destruct (Ascii.eqb a "/") eqn:Ea; [reflexivity|].
  destruct (invalidName a) eqn:Ei; [reflexivity|].
  unfold safeName. now rewrite Ei, Ea.
Qed.

Lemma sanitize_bytes t :
  all_bytes safeName
    (replaceClass invalidName
       (strmap (fun a => if Ascii.eqb a "/" then "_"%char else a) t)) = true.
Proof.
  induction t as [|a r IH]; [reflexivity|].
  cbn [strmap replaceClass all_bytes]. rewrite IH, andb_true_r.
  apply (sanitize_byte a).
Qed.

Lemma sanitize_fixed t :
  all_bytes safeName t = true ->
  replaceClass invalidName
    (strmap (fun a => if Ascii.eqb a "/" then "_"%char else a) t) = t.
Proof.
  induction t as [|a r IH]; [reflexivity|].
  cbn [all_bytes]. intros Ht. apply andb_true_iff in Ht as [Ha Hr].
  unfold safeName in Ha. apply andb_true_iff in Ha as [Hi Hs].
  apply negb_true_iff in Hi, Hs.
  cbn [strmap replaceClass]. now rewrite Hs, Hi, IH.
Qed.

(** X24.  [sanitizeFileName] returns a name that is not empty and holds
    no slash, none of the characters [<], [>], [:], [|], [?], [*], the
    double quote and the backslash, and no byte below 0x20.  The byte
    0x7F (DEL) is not of the class that is replaced: it is kept. *)
Theorem sanitizeFileName_safe :
  (forall name : string,
     sanitizeFileName name <> ""
     /\ all_bytes safeName (sanitizeFileName name) = true)
  /\ (forall c : ascii,
        safeName c = true
        <-> (32 <= N_of_ascii c)%N
            /\ strings.IndexByte
                 ("/<>:|?*" +:+ String "034" (String "092" "")) c = -1)
  /\ sanitizeFileName (String "127" "") = String "127" "".
Proof.
  split; [|split; [|reflexivity]].
  - intros name. unfold sanitizeFileName. cbv zeta. rewrite ReplaceAll_char.
    destruct (String.eqb_spec
                (replaceClass invalidName
                   (strmap (fun a => if Ascii.eqb a "/" then "_"%char else a)
                      (strings.TrimSpace name))) "") as [He|He].
    + split; [discriminate|reflexivity].
    + split; [assumption|apply sanitize_bytes].
  - intros c. destruct c as [b0 b1 b2 b3 b4 b5 b6 b7].
    destruct b0, b1, b2, b3, b4, b5, b6, b7;
      vm_compute; split; intros Hc; try discriminate Hc;
      try reflexivity; try (split; [discriminate|reflexivity]);
      destruct Hc as [Hc1 Hc2]; try discriminate Hc2;
      exfalso; apply Hc1; reflexivity.
Qed.

(** X25.  [sanitizeFileName] leaves alone a name that is not empty, has
    no surrounding white space and holds only bytes that it does not
    replace (such as [normal], [lite], [ipv4] and [ipv6]). *)
Theorem sanitizeFileName_keeps_safe_names (name : string) :
  name <> "" -> strings.TrimSpace name = name ->
  all_bytes safeName name = true ->
  sanitizeFileName name = name.
Proof.
  intros Hne Ht Hs. unfold sanitizeFileName. cbv zeta.
  rewrite Ht, ReplaceAll_char, (sanitize_fixed name Hs).
  now destruct (String.eqb_spec name "").
Qed.

Lemma sanitizeFileName_keeps_safe_names_witness :
  sanitizeFileName "normal" = "normal".
Proof.
  apply (sanitizeFileName_keeps_safe_names "normal");
    [discriminate|reflexivity|reflexivity].
Defined.


(** ** The two buckets *)

Section BucketsFacts.
Context `{GoLib}.

Lemma in_bucket_hosted l :
  hosted l = in_bucket family_of IPv4 l || in_bucket family_of IPv6 l.
Proof.
  unfold hosted, in_bucket, bucket.
  destruct (url_Parse l) as [u|e]; [|reflexivity].
  destruct (String.eqb (url.Host u) ""); [reflexivity|].
  now destruct (family_of (url.Host u)).
Qed.

Lemma in_bucket_one l :
  in_bucket family_of IPv4 l && in_bucket family_of IPv6 l = false.
Proof.
  unfold in_bucket, bucket.
  destruct (url_Parse l) as [u|e]; [|reflexivity].
  destruct (String.eqb (url.Host u) ""); [reflexivity|].
  now destruct (family_of (url.Host u)).
Qed.

Lemma filter_bool_sublist (p : string -> bool) l : sublist (List.filter p l) l.
Proof.
  induction l as [|x l IH]; cbn [List.filter]; [constructor|].
  destruct (p x); now constructor.
Qed.

Lemma filter_bool_split (p q : string -> bool) l :
  (forall x, p x && q x = false) ->
  List.filter p l ++ List.filter q l
  ≡ₚ List.filter (fun x => p x || q x) l.
Proof.
  intros Hpq. induction l as [|x l IH]; [reflexivity|].
  cbn [List.filter]. specialize (Hpq x).
  destruct (p x), (q x); try discriminate; cbn [orb app].
  - now constructor.
  - rewrite <- Permutation_middle. now constructor.
  - exact IH.
Qed.

Lemma splitByIPVersion_parts lines :
  let '(ipv4, ipv6) := splitByIPVersion lines in
  sublist ipv4 lines /\ sublist ipv6 lines
  /\ ipv4 ++ ipv6 ≡ₚ List.filter hosted lines
  /\ (forall l, l ∈ ipv4 -> l ∈ ipv6 -> False).
Proof.
  rewrite splitByIPVersion_filter.
  split; [apply filter_bool_sublist|]. split; [apply filter_bool_sublist|]. split.
  - rewrite filter_bool_split by apply in_bucket_one.
    erewrite List.filter_ext; [reflexivity|].
    intros l. symmetry. apply in_bucket_hosted.
  - intros l H4 H6.
    apply list_elem_of_In, filter_In in H4 as [_ H4].
    apply list_elem_of_In, filter_In in H6 as [_ H6].
    pose proof (in_bucket_one l) as Hone. rewrite H4, H6 in Hone.
    discriminate.
Qed.

End BucketsFacts.

(** X26.  [splitByIPVersion] shares out the lines whose URI parses and
    has a host: each bucket follows the order of the input, no line
    of one bucket is in the other, and the two buckets together are,
    up to order, the input lines with a host. *)
Theorem splitByIPVersion_partition (L : GoLib) (lines : list string) :
  let '(ipv4, ipv6) := splitByIPVersion lines in
  sublist ipv4 lines /\ sublist ipv6 lines
  /\ ipv4 ++ ipv6 ≡ₚ List.filter hosted lines
  /\ (forall l, l ∈ ipv4 -> l ∈ ipv6 -> False).
Proof. apply splitByIPVersion_parts. Qed.

(** ** The sorted export does not depend on the order of its lines *)

Lemma string_leb_trans a : forall b c,
  String.leb a b = true -> String.leb b c = true -> String.leb a c = true.
Proof.
  unfold String.leb.
  induction a as [|x a IH]; intros b c Hab Hbc.
  - now destruct c.
  - destruct b as [|y b]; [discriminate|].
    destruct c as [|z c]; [discriminate|].
    cbn [String.compare] in *. unfold Ascii.compare in *.
    destruct (N.compare_spec (N_of_ascii x) (N_of_ascii y)) as [Exy|Lxy|Gxy];
      [|destruct (N.compare_spec (N_of_ascii y) (N_of_ascii z))
          as [Eyz|Lyz|Gyz]|discriminate].
    + rewrite Exy.
      destruct (N.compare_spec (N_of_ascii y) (N_of_ascii z));
        [now apply IH with b|reflexivity|discriminate].
    + rewrite <- Eyz.
      destruct (N.compare_spec (N_of_ascii x) (N_of_ascii y));
        [lia|reflexivity|lia].
    + destruct (N.compare_spec (N_of_ascii x) (N_of_ascii z));
        [lia|reflexivity|lia].
    + discriminate.
Qed.

Lemma insert_le_all x l :
  Forall (string_le x) l -> sort.insert x l = x :: l.
Proof.
  destruct 1 as [|y l Hy _]; [reflexivity|].
  cbn [sort.insert]. unfold string_le in Hy. now rewrite Hy.
Qed.

Lemma Sorted_all_le x l :
  Sorted string_le (x :: l) -> Forall (string_le x) l.
Proof.
  intros Hs. apply Sorted_StronglySorted in Hs.
  - now inversion Hs.
  - intros a b c Hab Hbc. unfold string_le in *. now apply string_leb_trans with b.
Qed.

(** Two sorted lists with the same elements are the same list. *)
Lemma Sorted_unique l : forall l',
  Sorted string_le l -> Sorted string_le l' -> Permutation l l' -> l = l'.
Proof.
  induction l as [|x l IH]; intros l' Hs Hs' Hp.
  - apply Permutation_nil in Hp. now subst.
  - destruct l' as [|y l'].
    { apply Permutation_sym, Permutation_nil in Hp. discriminate. }
    pose proof (Sorted_all_le x l Hs) as Hx.
    pose proof (Sorted_all_le y l' Hs') as Hy.
    assert (Hxy : x = y).
    { assert (Hin : In y (x :: l))
        by (apply (Permutation_in _ (Permutation_sym Hp)); now left).
      assert (Hin' : In x (y :: l'))
        by (apply (Permutation_in _ Hp); now left).
      destruct Hin as [->|Hin]; [reflexivity|].
      destruct Hin' as [->|Hin']; [reflexivity|].
      rewrite List.Forall_forall in Hx, Hy.
      apply leb_antisym; [now apply Hx|now apply Hy]. }
    subst y. f_equal. apply IH.
    + now inversion Hs.
    + now inversion Hs'.
    + now apply Permutation_cons_inv in Hp.
Qed.

Lemma Strings_of_Permutation l l' :
  Permutation l l' -> sort.Strings l = sort.Strings l'.
Proof.
  intros Hp. apply Sorted_unique; try apply Strings_Sorted.
  rewrite <- (Strings_Permutation l), <- (Strings_Permutation l').
  exact Hp.
Qed.

(** X27.  [writeBase64Sorted] does not depend on the order of its
    lines: two lists with the same lines give the same export. *)
Theorem writeBase64Sorted_any_order
  (L : GoLib) (path : string) (lines lines' : list string) :
  Permutation lines lines' ->
  writeBase64Sorted path lines = writeBase64Sorted path lines'.
Proof.
  intros Hp. unfold writeBase64Sorted. cbv zeta.
  now rewrite (Strings_of_Permutation lines lines' Hp).
Qed.

Lemma writeBase64Sorted_any_order_witness :
  writeBase64Sorted "out/normal" ["b"; "a"; "c"]
  = writeBase64Sorted "out/normal" ["c"; "b"; "a"].
Proof.
  apply (writeBase64Sorted_any_order golib "out/normal").
  etransitivity; [apply perm_swap|].
  etransitivity; [apply perm_skip, perm_swap|].
  etransitivity; [apply perm_swap|].
  etransitivity; [apply perm_skip, perm_swap|].
  reflexivity.
Defined.


(** ** The pipeline of [main] for one subscription *)

Section Pipeline.
Context `{GoLib}.

Lemma fmap_trimmed (l : list string) :
  Forall (fun x => strings.TrimSpace x = x) l -> strings.TrimSpace <$> l = l.
Proof.
  induction 1 as [|x l Hx _ IH]; [reflexivity|].
  cbn [fmap list_fmap]. f_equal; assumption.
Qed.

Lemma normal_lines valid key :
  let normal := fst (filterValidLines (dedupe valid) key) in
  NoDup normal
  /\ Forall (fun x => strings.TrimSpace x = x) normal
  /\ forall l, l ∈ normal ->
       validateLine l = None
       /\ exists s, s ∈ valid /\ strings.TrimSpace s = l.
Proof.
  cbv zeta.
  destruct (filterValidLines_keeps_valid_lemma (dedupe valid) key)
    as (Hsound & _ & Hsub).
  assert (Htrim : Forall (fun x => strings.TrimSpace x = x) (dedupe valid)).
  { apply Forall_forall. intros x Hx.
    apply dedupe_elem_of in Hx as (_ & s & _ & <-). apply TrimSpace_idem. }
  rewrite (fmap_trimmed _ Htrim) in Hsub.
  split; [|split].
  - eapply sublist_NoDup; [apply dedupe_inv|exact Hsub].
  - apply Forall_forall. intros l Hl. now apply Hsound in Hl.
  - intros l Hl. destruct (Hsound l Hl) as (Hv & _ & _ & raw & Hraw & ->).
    split; [assumption|].
    apply dedupe_elem_of in Hraw as (_ & s & Hs & <-).
    exists s. split; [assumption|]. now rewrite TrimSpace_idem.
Qed.

Lemma dialable_of_valid l :
  validateLine (strings.TrimSpace l) = None -> dialable l = true.
Proof.
  intros Hv. apply validated_endpoint in Hv as (host & port & He & Hh & Hp & _).
  unfold dialable. rewrite He.
  destruct (String.eqb_spec host ""); [contradiction|].
  destruct (Z.eqb_spec port 0); [lia|reflexivity].
Qed.

Lemma pipeline_reachable valid key reachable :
  filterReachableLines (fst (filterValidLines (dedupe valid) key))
    2000000000 50 reachable ->
  NoDup reachable
  /\ reachable ⊆+ take 1000 (fst (filterValidLines (dedupe valid) key))
  /\ (forall r, r ∈ reachable ->
        validateLine r = None /\ dialable r = true
        /\ exists s, s ∈ valid /\ strings.TrimSpace s = r)
  /\ (forall l,
        l ∈ buildLiteTail reachable 100
            ++ fst (splitByIPVersion reachable)
            ++ snd (splitByIPVersion reachable) ->
        l ∈ reachable).
Proof.
  intros Hrun.
  destruct (normal_lines valid key) as (Hnd & Htrim & Hvalid).
  apply filterReachableLines_count in Hrun.
  rewrite (fmap_trimmed _ (Forall_take _ 1000 _ Htrim)) in Hrun.
  assert (Hin : forall r, r ∈ reachable ->
            r ∈ fst (filterValidLines (dedupe valid) key)).
  { intros r Hr. apply submseteq_sublist_r in Hrun as (k & Hperm & Hsub).
    rewrite Hperm in Hr.
    eapply elem_of_sublist; [exact Hr|].
    etransitivity; [exact Hsub|apply sublist_take]. }
  split; [|split; [exact Hrun|split]].
  - apply submseteq_sublist_r in Hrun as (k & Hperm & Hsub).
    rewrite Hperm. eapply sublist_NoDup; [|exact Hsub].
    eapply sublist_NoDup; [exact Hnd|apply sublist_take].
  - intros r Hr. specialize (Hin r Hr).
    destruct (Hvalid r Hin) as [Hv Hs].
    rewrite Forall_forall in Htrim. specialize (Htrim r Hin).
    split; [assumption|]. split; [|assumption].
    apply dialable_of_valid. now rewrite Htrim.
  - intros l Hl.
    pose proof (splitByIPVersion_parts reachable) as Hparts.
    destruct (splitByIPVersion reachable) as [ipv4 ipv6].
    destruct Hparts as (H4 & H6 & _). cbn [fst snd] in Hl.
    apply elem_of_app in Hl as [Hl|Hl];
      [|apply elem_of_app in Hl as [Hl|Hl]].
    + unfold buildLiteTail in Hl. cbv zeta in Hl.
      eapply elem_of_sublist; [exact Hl|apply sublist_drop].
    + eapply elem_of_sublist; [exact Hl|exact H4].
    + eapply elem_of_sublist; [exact Hl|exact H6].
Qed.

End Pipeline.

(** X28.  The pipeline of [main] for one subscription: when
    [filterReachableLines], run on the validated result of [dedupe],
    returns [reachable], then [reachable] has no duplicate and is, up
    to order, a sub-multiset of the first 1000 validated lines; each
    of its lines passes [validateLine], has an endpoint and is the trim
    of a line given to [dedupe]; and every line of the lite tail and of
    the two buckets is a line of [reachable]. *)
Theorem main_exports_valid_reachable_lines
  (L : GoLib) (valid : list string) (key : string) (reachable : list string) :
  filterReachableLines (fst (filterValidLines (dedupe valid) key))
    2000000000 50 reachable ->
  NoDup reachable
  /\ reachable ⊆+ take 1000 (fst (filterValidLines (dedupe valid) key))
  /\ (forall r, r ∈ reachable ->
        validateLine r = None /\ dialable r = true
        /\ exists s, s ∈ valid /\ strings.TrimSpace s = r)
  /\ (forall l,
        l ∈ buildLiteTail reachable 100
            ++ fst (splitByIPVersion reachable)
            ++ snd (splitByIPVersion reachable) ->
        l ∈ reachable).
Proof. apply pipeline_reachable. Qed.

Lemma pipeline_example :
  filterReachableLines
    (fst (filterValidLines
            (dedupe [" vless://u@1.2.3.4:443"; "vless://u@1.2.3.4:443";
                     "vless://u@1.2.3.4"]) "k"))
    2000000000 50 ["vless://u@1.2.3.4:443"].
Proof.
  replace (fst (filterValidLines
            (dedupe [" vless://u@1.2.3.4:443"; "vless://u@1.2.3.4:443";
                     "vless://u@1.2.3.4"]) "k"))
    with ["vless://u@1.2.3.4:443"] by (vm_compute; reflexivity).
  replace ["vless://u@1.2.3.4:443"]
    with (List.filter dialable
            (strings.TrimSpace <$> take 1000 ["vless://u@1.2.3.4:443"])) at 2
    by (vm_compute; reflexivity).
  apply filterReachableLines_all.
Qed.

Lemma main_exports_valid_reachable_lines_witness :
  NoDup ["vless://u@1.2.3.4:443"]
  /\ ["vless://u@1.2.3.4:443"]
     ⊆+ take 1000
          (fst (filterValidLines
                  (dedupe [" vless://u@1.2.3.4:443"; "vless://u@1.2.3.4:443";
                           "vless://u@1.2.3.4"]) "k"))
  /\ (forall r, r ∈ ["vless://u@1.2.3.4:443"] ->
        validateLine r = None /\ dialable r = true
        /\ exists s, s ∈ [" vless://u@1.2.3.4:443"; "vless://u@1.2.3.4:443";
                          "vless://u@1.2.3.4"]
                     /\ strings.TrimSpace s = r)
  /\ (forall l,
        l ∈ buildLiteTail ["vless://u@1.2.3.4:443"] 100
            ++ fst (splitByIPVersion ["vless://u@1.2.3.4:443"])
            ++ snd (splitByIPVersion ["vless://u@1.2.3.4:443"]) ->
        l ∈ ["vless://u@1.2.3.4:443"]).
Proof.
  exact (main_exports_valid_reachable_lines golib _ "k" _ pipeline_example).
Defined.


(** ** The intake: [parseAndFilterLines] *)

Lemma all_bytes_app f u t :
  all_bytes f (u +:+ t) = all_bytes f u && all_bytes f t.
Proof.
  induction u as [|a r IH]; [reflexivity|].
  sapp. cbn [all_bytes]. now rewrite IH, andb_assoc.
Qed.

Lemma no_colon_marker sch : all_bytes no_colon (sch +:+ "://") = false.
Proof.
  rewrite all_bytes_app. apply andb_false_iff. right. reflexivity.
Qed.

Lemma no_colon_prefix s sch :
  all_bytes no_colon s = true -> strings.HasPrefix s (sch +:+ "://") = false.
Proof.
  intros Hs. unfold strings.HasPrefix.
  destruct (String.prefix (sch +:+ "://") s) eqn:E; [|reflexivity].
  pose proof (prefix_all_bytes no_colon _ _ E Hs) as Hp.
  now rewrite no_colon_marker in Hp.
Qed.

Lemma count_from_no_colon u t :
  all_bytes no_colon u = true ->
  strings.count_from 0 (u +:+ t) "://" = strings.count_from 0 t "://".
Proof.
  induction u as [|a r IH]; [reflexivity|].
  cbn [all_bytes]. intros Hu. apply andb_true_iff in Hu as [Ha Hr].
  sapp. cbn [strings.count_from]. rewrite prefix_cons.
  unfold no_colon in Ha. apply negb_true_iff in Ha. rewrite Ha.
  cbn [andb]. now apply IH.
Qed.

Lemma Count_no_colon u :
  all_bytes no_colon u = true -> strings.Count u "://" = 0.
Proof.
  intros Hu. unfold strings.Count.
  rewrite <- (app_empty_r u), (count_from_no_colon u "" Hu). reflexivity.
Qed.

Lemma IndexByte_none f s c :
  all_bytes f s = true -> f c = false -> strings.IndexByte s c = -1.
Proof.
  intros Hs Hc. induction s as [|a r IH]; [reflexivity|].
  cbn [all_bytes] in Hs. apply andb_true_iff in Hs as [Ha Hr].
  apply IndexByte_cons_ne; [congruence|now apply IH].
Qed.

Lemma HasSuffix1_none f s c :
  all_bytes f s = true -> f c = false ->
  strings.HasSuffix s (String c "") = false.
Proof.
  intros Hs Hc. induction s as [|a r IH]; [reflexivity|].
  cbn [all_bytes] in Hs. apply andb_true_iff in Hs as [Ha Hr].
  rewrite HasSuffix1_cons. destruct r as [|b r'].
  - apply Ascii.eqb_neq. congruence.
  - now apply IH.
Qed.

Lemma Split_one s :
  newline_free s -> strings.Split s newline = [s].
Proof.
  intros Hs.
  apply (Split_Join [s]); [discriminate|]. now constructor.
Qed.

Lemma existsb_none {A} (f : A -> bool) l :
  (forall x, f x = false) -> existsb f l = false.
Proof.
  intros Hf. induction l as [|x l IH]; [reflexivity|].
  cbn [existsb]. now rewrite Hf, IH.
Qed.

Lemma b64char_lower c :
  b64char c = true ->
  no_colon (urlparse.lower1 c) = true /\ (N_of_ascii c <? 128)%N = true
  /\ Ascii.eqb c "010" = false /\ Ascii.eqb c "013" = false.
Proof.
  destruct c as [b0 b1 b2 b3 b4 b5 b6 b7].
  destruct b0, b1, b2, b3, b4, b5, b6, b7; intros Hc;
    try discriminate Hc; repeat split; reflexivity.
Qed.

Lemma lowerASCII_no_colon s :
  all_bytes b64char s = true ->
  all_bytes no_colon (urlparse.lowerASCII s) = true.
Proof.
  induction s as [|a r IH]; [reflexivity|].
  cbn [all_bytes urlparse.lowerASCII]. intros Hs.
  apply andb_true_iff in Hs as [Ha Hr].
  rewrite (proj1 (b64char_lower a Ha)). now rewrite IH.
Qed.

Lemma lowerScheme_facts c :
  lowerScheme c = true ->
  no_colon c = true /\ urlparse.lower1 c = c
  /\ (N_of_ascii c <? 128)%N = true /\ reSpace c = false
  /\ Ascii.eqb c "#" = false /\ Ascii.eqb c "/" = false
  /\ Ascii.eqb c ";" = false.
Proof.
  destruct c as [b0 b1 b2 b3 b4 b5 b6 b7].
  destruct b0, b1, b2, b3, b4, b5, b6, b7; intros Hc;
    try discriminate Hc; repeat split; reflexivity.
Qed.

Lemma lowerASCII_fixed sch :
  all_bytes lowerScheme sch = true -> urlparse.lowerASCII sch = sch.
Proof.
  induction sch as [|a r IH]; [reflexivity|].
  cbn [all_bytes urlparse.lowerASCII]. intros Hs.
  apply andb_true_iff in Hs as [Ha Hr].
  destruct (lowerScheme_facts a Ha) as (_ & -> & _). now rewrite IH.
Qed.

Lemma lowerASCII_app p s :
  urlparse.lowerASCII (p +:+ s)
  = urlparse.lowerASCII p +:+ urlparse.lowerASCII s.
Proof.
  induction p as [|a r IH]; [reflexivity|].
  sapp. cbn [urlparse.lowerASCII]. sapp. now rewrite IH.
Qed.

Lemma HasSuffix1_inv s c :
  strings.HasSuffix s (String c "") = true -> exists p, s = p +:+ String c "".
Proof.
  induction s as [|a r IH]; [discriminate|].
  rewrite HasSuffix1_cons. destruct r as [|b r'].
  - intros Ha. apply Ascii.eqb_eq in Ha. subst a. now exists "".
  - intros Hr. destruct (IH Hr) as [p Hp]. exists (String a p).
    sapp. now rewrite <- Hp.
Qed.

Lemma trimmed_no_cr l :
  strings.TrimSpace l = l -> strings.HasSuffix l (String "013" "") = false.
Proof.
  intros Ht.
  destruct (strings.HasSuffix l (String "013" "")) eqn:E; [|reflexivity].
  exfalso. unfold strings.TrimSpace in Ht.
  assert (Hl : strings.trimLeft l = l).
  { destruct (trimRight_prefix (strings.trimLeft l)) as [q Hq].
    rewrite Ht in Hq. pose proof (trimLeft_length l) as Hlen.
    rewrite Hq in Hlen. rewrite length_app_str in Hlen.
    destruct q as [|a q]; [now rewrite app_empty_r in Hq|].
    cbn [String.length] in Hlen. lia. }
  rewrite Hl in Ht. unfold strings.trimRight in Ht.
  destruct (HasSuffix1_inv _ _ E) as [p Hp].
  assert (Hrev : String.rev l = String "013" (String.rev p)).
  { rewrite Hp, rev_app_str. reflexivity. }
  rewrite Hrev, trimLeft_rev_cons in Ht.
  change (strings.asciiSpace "013") with true in Ht. cbv iota in Ht.
  destruct (trimLeft_rev_suffix (String.rev p)) as [q Hq].
  assert (Hlen : String.length l
                 = String.length (strings.trimLeft_rev (String.rev p))).
  { rewrite <- Ht at 1.
    rewrite <- (str_rev_involutive (String.rev (strings.trimLeft_rev (String.rev p)))).
    rewrite (str_rev_involutive (strings.trimLeft_rev (String.rev p))).
    clear. generalize (strings.trimLeft_rev (String.rev p)). intros s.
    induction s as [|a r IH]; [reflexivity|].
    rewrite str_rev_cons, length_app_str, IH. cbn [String.length]. lia. }
  assert (Hp' : String.length l = S (String.length (String.rev p))).
  { rewrite <- (str_rev_involutive l), Hrev, str_rev_cons, length_app_str.
    cbn [String.length].
    assert (Hr : forall s, String.length (String.rev s) = String.length s).
    { clear. intros s. induction s as [|a r IH]; [reflexivity|].
      rewrite str_rev_cons, length_app_str, IH. cbn [String.length]. lia. }
    rewrite Hr. lia. }
  rewrite Hq in Hp' at 1. rewrite length_app_str in Hp'. lia.
Qed.

Lemma count_from_none r :
  strings.Contains r "://" = false -> strings.count_from 0 r "://" = 0.
Proof.
  unfold strings.Contains. intros Hr. apply Z.leb_gt in Hr.
  induction r as [|a r IH]; [reflexivity|].
  rewrite Index_unfold in Hr. cbn [strings.count_from].
  destruct (String.prefix "://" (String a r)); [lia|].
  cbv zeta in Hr. apply IH.
  destruct (Z.ltb_spec (strings.Index r "://") 0); [assumption|].
  pose proof (Index_ge r "://"). lia.
Qed.

Lemma Index_no_colon u t :
  all_bytes no_colon u = true -> String.prefix "://" t = true ->
  strings.Index (u +:+ t) "://" = Z.of_nat (String.length u).
Proof.
  intros Hu Ht. induction u as [|a r IH].
  - now apply Index_prefix.
  - cbn [all_bytes] in Hu. apply andb_true_iff in Hu as [Ha Hr].
    unfold no_colon in Ha. apply negb_true_iff in Ha.
    rewrite app_cons, Index_unfold, prefix_cons, Ha.
    cbn [andb]. cbv zeta. rewrite (IH Hr).
    destruct (Z.ltb_spec (Z.of_nat (String.length r)) 0); [lia|].
    cbn [String.length]. lia.
Qed.

Lemma head_not_comment c r :
  reSpace c = false -> Ascii.eqb c "#" = false -> Ascii.eqb c "/" = false ->
  Ascii.eqb c ";" = false -> reCommentLine (String c r) = false.
Proof.
  intros Hs H1 H2 H3. unfold reCommentLine. cbn [skipSpace]. rewrite Hs.
  cbv zeta. unfold strings.HasPrefix.
  now rewrite !prefix_cons, H1, H2, H3.
Qed.

Lemma tokens_lines max lines :
  Forall (fun l => l <> "" /\ strings.len l < max
                   /\ strings.HasSuffix l (String "013" "") = false) lines ->
  bufio.tokens max lines = lines.
Proof.
  induction lines as [|x rest IH]; [reflexivity|].
  intros Hall. apply Forall_cons in Hall as [(Hx & Hlen & Hcr) Hrest].
  assert (Hd : bufio.dropCR x = x) by (unfold bufio.dropCR; now rewrite Hcr).
  apply Z.ltb_lt in Hlen.
  destruct rest as [|y rest].
  - cbn [bufio.tokens].
    destruct (String.eqb_spec x ""); [contradiction|].
    now rewrite Hlen, Hd.
  - change (bufio.tokens max (x :: y :: rest))
      with (if strings.len x <? max
            then bufio.dropCR x :: bufio.tokens max (y :: rest) else []).
    now rewrite Hlen, Hd, (IH Hrest).
Qed.

Section IntakeFacts.
Context `{GoLib}.

Lemma tryDecodeIfBase64_unmarked text :
  marked text = false ->
  tryDecodeIfBase64 (base64.EncodeToString text) = base64.EncodeToString text.
Proof.
  intros Hm. unfold tryDecodeIfBase64, base64.EncodeToString. cbv zeta.
  rewrite (TrimSpace_all_plain _ (encode_plain text)), len_zero.
  destruct (String.eqb_spec (base64.encode text) "") as [He|He];
    [reflexivity|].
  unfold rePossibleB64.
  destruct (String.eqb_spec (base64.encode text) ""); [contradiction|].
  rewrite (all_bytes_impl b64char possibleB64 _
             (fun c Hc => proj1 (b64char_facts c Hc)) (encode_b64char text)).
  cbn [negb andb].
  pose proof (DecodeString_EncodeToString text) as Hd.
  unfold base64.EncodeToString in Hd. rewrite Hd.
  unfold marked in Hm. cbv zeta in Hm. now rewrite Hm.
Qed.

Lemma parseAndFilterLines_base64 (allowed : gset string) enc :
  ToLower_ascii -> all_bytes b64char enc = true ->
  parseAndFilterLines enc allowed = Done [].
Proof.
  intros [Hlow _] Henc.
  assert (Hplain : all_bytes plain enc = true).
  { apply (all_bytes_impl b64char plain); [|assumption].
    intros c Hc. apply (b64char_facts c Hc). }
  assert (Hascii : ascii_text enc = true).
  { apply (all_bytes_impl b64char _); [|assumption].
    intros c Hc. apply (b64char_lower c Hc). }
  unfold parseAndFilterLines, bufio.ScanLines.
  rewrite Split_one by (apply (IndexByte_none b64char); [assumption|reflexivity]).
  cbn [bufio.tokens].
  destruct (String.eqb_spec enc "") as [He|He]; [reflexivity|].
  destruct (strings.len enc <? 10 * 1024 * 1024); [|reflexivity].
  unfold bufio.dropCR.
  rewrite (HasSuffix1_none b64char enc "013" Henc eq_refl).
  cbn [fold_left]. unfold parseAndFilterLines_line.
  rewrite (TrimSpace_all_plain _ Hplain).
  destruct (String.eqb_spec enc ""); [contradiction|]. cbn [orb].
  destruct (reCommentLine enc) eqn:Hc; [reflexivity|].
  unfold splitPossible. rewrite (Count_no_colon enc).
  2:{ apply (all_bytes_impl b64char no_colon); [|assumption].
      intros c Hb. destruct c as [b0 b1 b2 b3 b4 b5 b6 b7].
      destruct b0, b1, b2, b3, b4, b5, b6, b7;
        try discriminate Hb; reflexivity. }
  change (0 <=? 1) with true. cbv iota. cbn [fold_left].
  unfold parseAndFilterLines_item.
  rewrite (TrimSpace_all_plain _ Hplain).
  destruct (String.eqb_spec enc ""); [contradiction|]. rewrite Hc.
  cbn [orb]. cbv zeta. rewrite (Hlow enc Hascii).
  unfold allowedScheme. rewrite existsb_none; [reflexivity|].
  intros sch. apply no_colon_prefix. now apply lowerASCII_no_colon.
Qed.

Lemma uri_line_item (allowed : gset string) out l :
  ToLower_ascii -> uri_line allowed l ->
  parseAndFilterLines_line allowed (Done out) l = Done (out ++ [l]).
Proof.
  intros [Hlow Hpre] (Htrim & _ & _ & sch & rest & -> & Hin & Hsch & Hrest).
  set (l := sch +:+ "://" +:+ rest) in *.
  assert (Hnc : all_bytes no_colon sch = true).
  { apply (all_bytes_impl lowerScheme no_colon); [|assumption].
    intros c Hc. apply (lowerScheme_facts c Hc). }
  assert (Hasc : ascii_text (sch +:+ "://") = true).
  { unfold ascii_text. rewrite all_bytes_app.
    apply andb_true_iff. split; [|reflexivity].
    apply (all_bytes_impl lowerScheme _); [|assumption].
    intros c Hc. apply (lowerScheme_facts c Hc). }
  assert (Hne : l <> "").
  { unfold l. destruct sch; sapp; discriminate. }
  assert (Hcom : reCommentLine l = false).
  { unfold l. destruct sch as [|a r]; sapp.
    - now apply head_not_comment.
    - cbn [all_bytes] in Hsch. apply andb_true_iff in Hsch as [Ha _].
      destruct (lowerScheme_facts a Ha) as (_ & _ & _ & ? & ? & ? & ?).
      now apply head_not_comment. }
  assert (Hcount : strings.Count l "://" = 1).
  { unfold strings.Count, l.
    rewrite (count_from_no_colon sch _ Hnc), count_from_marker.
    now rewrite (count_from_none rest Hrest). }
  assert (Hidx : strings.Index l "://" = Z.of_nat (String.length sch)).
  { unfold l. apply Index_no_colon; [assumption|apply marker_app]. }
  unfold parseAndFilterLines_line. rewrite Htrim.
  destruct (String.eqb_spec l ""); [contradiction|]. rewrite Hcom.
  cbn [orb]. unfold splitPossible. rewrite Hcount.
  change (1 <=? 1) with true. cbv iota. cbn [fold_left].
  unfold parseAndFilterLines_item. rewrite Htrim.
  destruct (String.eqb_spec l ""); [contradiction|]. rewrite Hcom.
  cbn [orb]. cbv zeta.
  assert (Hok : allowedScheme allowed (strings_ToLower l) = true).
  { unfold allowedScheme. apply existsb_exists. exists sch. split.
    - apply list_elem_of_In, elem_of_elements, Hin.
    - unfold l. rewrite <- app_assoc_str, (Hpre _ rest Hasc).
      rewrite lowerASCII_app, (lowerASCII_fixed sch Hsch).
      change (urlparse.lowerASCII "://") with "://".
      unfold strings.HasPrefix.
      generalize (sch +:+ "://"). intros p. clear.
      induction p as [|a p IH]; [apply prefix_nil|].
      sapp. rewrite prefix_cons, Ascii.eqb_refl. exact IH. }
  rewrite Hok. cbn [negb]. f_equal. f_equal. f_equal.
  unfold normalizeScheme. cbv zeta. rewrite Hidx.
  destruct (Z.ltb_spec (Z.of_nat (String.length sch)) 0); [lia|].
  unfold strings.slice_to, strings.slice_from. rewrite Nat2Z.id.
  unfold l. rewrite str_take_app_length, str_drop_app_length.
  rewrite (Hlow sch).
  - now rewrite (lowerASCII_fixed sch Hsch).
  - apply (all_bytes_impl lowerScheme _); [|assumption].
    intros c Hc. apply (lowerScheme_facts c Hc).
Qed.

Lemma uri_lines_fold (allowed : gset string) lines : forall out,
  ToLower_ascii -> Forall (uri_line allowed) lines ->
  fold_left (parseAndFilterLines_line allowed) lines (Done out)
  = Done (out ++ lines).
Proof.
  induction lines as [|l rest IH]; intros out Hlow Hall.
  - cbn [fold_left]. now rewrite List.app_nil_r.
  - apply Forall_cons in Hall as [Hl Hrest].
    cbn [fold_left]. rewrite (uri_line_item allowed out l Hlow Hl).
    rewrite (IH _ Hlow Hrest), <- List.app_assoc. reflexivity.
Qed.

Lemma uri_line_token (allowed : gset string) l :
  uri_line allowed l ->
  l <> "" /\ strings.len l < 10 * 1024 * 1024
  /\ strings.HasSuffix l (String "013" "") = false.
Proof.
  intros (Htrim & _ & Hlen & sch & rest & Hl & _).
  split; [|split; [assumption|now apply trimmed_no_cr]].
  rewrite Hl. destruct sch; sapp; discriminate.
Qed.

Lemma parseAndFilterLines_uri_lines (allowed : gset string) lines :
  ToLower_ascii -> Forall (uri_line allowed) lines ->
  parseAndFilterLines (strings.Join lines newline) allowed = Done lines.
Proof.
  intros Hlow Hall. destruct lines as [|l rest]; [reflexivity|].
  unfold parseAndFilterLines, bufio.ScanLines.
  change (String "010" "") with newline.
  rewrite Split_Join; [|discriminate|].
  2:{ eapply Forall_impl; [exact Hall|]. intros x Hx. apply Hx. }
  rewrite tokens_lines.
  - apply (uri_lines_fold allowed (l :: rest) [] Hlow Hall).
  - eapply Forall_impl; [exact Hall|]. intros x Hx.
    now apply (uri_line_token allowed).
Qed.

End IntakeFacts.

(** X29.  [parseAndFilterLines] takes clean lines as they are: for a
    text made of lines joined by new lines, each without surrounding
    white space, shorter than 10 MiB and of the form [sch://rest] with
    [sch] an allowed scheme in lower case and no [://] in [rest], it
    returns exactly these lines, in order.  ([strings.ToLower] is
    taken to lower-case ASCII bytes one by one.) *)
Theorem parseAndFilterLines_reads_lines
  (L : GoLib) (allowed : gset string) (lines : list string) :
  ToLower_ascii -> Forall (uri_line allowed) lines ->
  parseAndFilterLines (strings.Join lines newline) allowed = Done lines.
Proof. apply parseAndFilterLines_uri_lines. Qed.

Lemma golib_ToLower_ascii : @ToLower_ascii golib.
Proof. split; [reflexivity|]. intros p s _. apply lowerASCII_app. Qed.

Lemma parseAndFilterLines_reads_lines_witness :
  parseAndFilterLines
    (strings.Join ["vless://u@1.2.3.4:443"; "ss://m:p@h:2"] newline)
    {["vless"; "ss"]}
  = Done ["vless://u@1.2.3.4:443"; "ss://m:p@h:2"].
Proof.
  apply (parseAndFilterLines_reads_lines golib {["vless"; "ss"]}
           ["vless://u@1.2.3.4:443"; "ss://m:p@h:2"] golib_ToLower_ascii).
  apply Forall_cons. split; [|apply Forall_cons; split; [|apply List.Forall_nil]].
  - split; [vm_compute; reflexivity|].
    split; [vm_compute; reflexivity|].
    split; [vm_compute; reflexivity|].
    exists "vless", "u@1.2.3.4:443".
    split; [reflexivity|]. split; [set_solver|].
    split; vm_compute; reflexivity.
  - split; [vm_compute; reflexivity|].
    split; [vm_compute; reflexivity|].
    split; [vm_compute; reflexivity|].
    exists "ss", "m:p@h:2".
    split; [reflexivity|]. split; [set_solver|].
    split; vm_compute; reflexivity.
Defined.

(** X30.  A base64 subscription that names no marked scheme is lost:
    when the text names none of [vless://], [vmess://] and [ss://] in
    any case (a list of [trojan://] lines, say), [tryDecodeIfBase64]
    returns its standard base64 encoding undecoded, and
    [parseAndFilterLines] then returns no line, whatever the allowed
    schemes are. *)
Theorem unmarked_base64_yields_nothing
  (L : GoLib) (allowed : gset string) (text : string) :
  ToLower_ascii -> marked text = false ->
  tryDecodeIfBase64 (base64.EncodeToString text) = base64.EncodeToString text
  /\ parseAndFilterLines (tryDecodeIfBase64 (base64.EncodeToString text))
       allowed = Done [].
Proof.
  intros Hlow Hm. rewrite (tryDecodeIfBase64_unmarked text Hm).
  split; [reflexivity|].
  apply parseAndFilterLines_base64; [assumption|].
  apply encode_b64char.
Qed.

Lemma unmarked_base64_yields_nothing_witness :
  tryDecodeIfBase64 (base64.EncodeToString "trojan://p@5.6.7.8:8443")
  = base64.EncodeToString "trojan://p@5.6.7.8:8443"
  /\ parseAndFilterLines
       (tryDecodeIfBase64 (base64.EncodeToString "trojan://p@5.6.7.8:8443"))
       {["trojan"]}
     = Done [].
Proof.
  apply (unmarked_base64_yields_nothing golib {["trojan"]}
           "trojan://p@5.6.7.8:8443" golib_ToLower_ascii).
  vm_compute. reflexivity.
Defined.

